(** * Contractify contracts service: lifecycle, versioning and party ledger

    A shallow embedding of [contract_service/repositories/models.py],
    [contract_service/repositories/contracts_repository.py] and
    [contract_service/services/contracts_service.py], followed by the
    properties of the status transition engine, the versioning engine, the
    party ledger and the access service.

    Modelling conventions.
    - The four tables are lists of rows in insertion order.  A query is a
      [filter] over a table, [ORDER BY] is a stable sort on the key, [LIMIT]
      is [take].
    - An [AsyncSession] holds the committed database and the database as the
      open transaction sees it; [commit] publishes the latter.  Closing a
      session drops whatever was not committed ([request]).
    - Awaited coroutines are state transformers on the session that either
      return a value or raise an exception; the session reached when the
      exception is raised is kept, so that "nothing was written before the
      failure" is a statement about the model and not a convention.
    - Server side defaults ([gen_random_uuid()], [now()]) and the client clock
      ([datetime.utcnow()]) are read from an environment [Env].
    - Columns keep their storage type: status, role, action and signature
      status are strings in the tables and enumerations in the request and
      response schemas.  Integers are Python integers ([Z]).
    - What the database engine enforces on its own (key uniqueness, foreign
      keys, column widths) is outside the model; a property that relies on
      identifiers being unique or unused says so in its statement.
    - Identifiers are the texts in which the database returns its uuid
      values, and a query compares them as texts.  The driver binds an
      identifier of a request as a uuid value: it refuses a text that is not
      a uuid, and takes another spelling of a stored identifier for that
      identifier.  On the canonical texts ([canonical_uuid]) comparing texts
      and comparing values agree; a property that depends on an identifier of
      a request matching no row assumes that the identifier is canonical.
    - The integer columns hold 32 bits; a property that asserts that a row
      with a number chosen by the request is inserted assumes that the
      number is in range ([int32]).
    - A query without [ORDER BY], and an [ORDER BY] on rows with equal keys,
      leave the order to the database.  The model returns one of the
      possible orders (table order); properties are stated up to it, by
      permutation and sortedness. *)

From stdpp Require Import base numbers strings pretty list sorting gmap.

Local Open Scope string_scope.
Local Open Scope list_scope.
Local Open Scope Z_scope.

(** ** Scalars *)

Definition uuid := string.
Definition datetime := Z.

(** JSON compatible values, as stored in the JSONB columns. *)
#[warnings="-register-all"] Inductive json :=
| JNull
| JBool (b : bool)
| JInt (n : Z)
| JStr (s : string)
| JObj (fields : list (string * json)).

Definition dict := list (string * json).

(** [None] becomes JSON null, a string stays a string. *)
Definition json_of_optional_str (o : option string) : json :=
  match o with
  | Some s => JStr s
  | None => JNull
  end.

(** ** schemas *)

Module ContractStatus.
Inductive t := DRAFT | GENERATED | SIGNING | SIGNED | CANCELLED | EXPIRED.

#[global] Instance eq_dec : EqDecision t.
Proof. solve_decision. Defined.

Definition value (s : t) : string :=
  match s with
  | DRAFT => "DRAFT"
  | GENERATED => "GENERATED"
  | SIGNING => "SIGNING"
  | SIGNED => "SIGNED"
  | CANCELLED => "CANCELLED"
  | EXPIRED => "EXPIRED"
  end.

Definition all : list t := [DRAFT; GENERATED; SIGNING; SIGNED; CANCELLED; EXPIRED].

(** Coercion of a stored string into the enumeration, as pydantic does. *)
Definition of_value (s : string) : option t :=
  head (filter (λ x, value x = s) all).
End ContractStatus.

Module PartyRole.
Inductive t := HOST | GUEST | WITNESS.

Definition value (r : t) : string :=
  match r with
  | HOST => "HOST"
  | GUEST => "GUEST"
  | WITNESS => "WITNESS"
  end.

Definition all : list t := [HOST; GUEST; WITNESS].

Definition of_value (s : string) : option t :=
  head (filter (λ x, value x = s) all).
End PartyRole.

Module SignatureStatus.
Inductive t := PENDING | INVITED | SIGNED.

Definition value (r : t) : string :=
  match r with
  | PENDING => "PENDING"
  | INVITED => "INVITED"
  | SIGNED => "SIGNED"
  end.

Definition all : list t := [PENDING; INVITED; SIGNED].

Definition of_value (s : string) : option t :=
  head (filter (λ x, value x = s) all).
End SignatureStatus.

Module ActivityAction.
Inductive t := CREATED | UPDATED | GENERATED | SIGNED | SENT | CANCELLED.

Definition value (a : t) : string :=
  match a with
  | CREATED => "CREATED"
  | UPDATED => "UPDATED"
  | GENERATED => "GENERATED"
  | SIGNED => "SIGNED"
  | SENT => "SENT"
  | CANCELLED => "CANCELLED"
  end.
End ActivityAction.

(** [Literal["AI", "USER"]] *)
Module Source.
Inductive t := AI | USER.

Definition value (s : t) : string :=
  match s with
  | AI => "AI"
  | USER => "USER"
  end.
End Source.

Module UpdateContractRequest.
Record t := { title : option string }.
End UpdateContractRequest.

Module UpdateContractContentRequest.
Record t := { content : string; source : Source.t }.
End UpdateContractContentRequest.

Module UpdateContractStatusRequest.
Record t := { status : ContractStatus.t; reason : option string }.
End UpdateContractStatusRequest.

Module ContractOut.
Record t := {
  id : uuid;
  title : string;
  status : ContractStatus.t;
  template_id : string;
  contract_type : string;
  owner_user_id : string;
  created_at : datetime;
  updated_at : datetime;
  signed_at : option datetime;
}.
End ContractOut.

Module ContractPartyOut.
Record t := {
  id : uuid;
  role : PartyRole.t;
  name : string;
  email : string;
  signature_status : SignatureStatus.t;
  signed_at : option datetime;
  order : Z;
}.
End ContractPartyOut.

Module PublicContractViewOut.
Record t := {
  id : uuid;
  title : string;
  content : string;
  party : ContractPartyOut.t;
  document_url : option string;
}.
End PublicContractViewOut.

Module CreateContractRequest.
Record t := { title : string; template_id : string; contract_type : string }.
End CreateContractRequest.

Module AddPartyRequest.
Record t := { role : PartyRole.t; name : string; email : string; order : option Z }.
End AddPartyRequest.

Module SignatureOut.
Record t := {
  id : uuid;
  party_id : uuid;
  party_name : string;
  role : PartyRole.t;
  signed_at : datetime;
  ip_address : string;
  document_hash : string;
}.
End SignatureOut.

(** [ContractDetailOut(ContractOut)]: the inherited fields are kept together
    in [base]. *)
Module ContractDetailOut.
Record t := {
  base : ContractOut.t;
  content : string;
  parties : list ContractPartyOut.t;
  signatures : list SignatureOut.t;
  document_url : option string;
  document_hash : option string;
}.
End ContractDetailOut.

Module ContractVersionOut.
Record t := {
  version : Z;
  content : string;
  source : Source.t;
  created_at : datetime;
  created_by : string;
}.
End ContractVersionOut.

Module ContractStatsOut.
Record t := {
  total : Z;
  by_status : gmap string Z;
  pending_signatures : Z;
  signed_this_month : Z;
}.
End ContractStatsOut.

(** ** repositories/models.py *)

Module Contract.
Record t := {
  id : uuid;
  title : string;
  contract_type : string;
  template_id : string;
  owner_user_id : string;
  status : string;
  metadata : dict;
  created_at : datetime;
  updated_at : datetime;
  signed_at : option datetime;
  deleted_at : option datetime;
}.
End Contract.

Module ContractVersion.
Record t := {
  id : uuid;
  contract_id : uuid;
  version : Z;
  content : string;
  source : string;
  created_by : string;
  created_at : datetime;
}.
End ContractVersion.

Module ContractParty.
Record t := {
  id : uuid;
  contract_id : uuid;
  role : string;
  name : string;
  email : string;
  signature_status : string;
  signed_at : option datetime;
  signing_order : Z;
  created_at : datetime;
}.
End ContractParty.

Module ActivityLog.
Record t := {
  id : uuid;
  contract_id : uuid;
  action : string;
  user_id : string;
  user_name : string;
  details : dict;
  timestamp : datetime;
}.
End ActivityLog.

(** ** The database, the session and awaited computations *)

Record Database := {
  contracts : list Contract.t;
  contract_versions : list ContractVersion.t;
  contract_parties : list ContractParty.t;
  activity_logs : list ActivityLog.t;
}.

(** What the code reads from outside the tables: the identifiers handed out
    by [gen_random_uuid()] (indexed by the number of draws so far), the
    transaction time [now()] and the client clock [datetime.utcnow()]. *)
Record Env := {
  gen_random_uuid : nat → uuid;
  now : datetime;
  utcnow : datetime;
}.

(** The database server: the committed tables and the number of
    identifiers it has handed out. *)
Record Server := {
  database : Database;
  uuids_drawn : nat;
}.

Record AsyncSession := {
  committed : Database;
  pending : Database;
  drawn : nat;
}.

Inductive Exception :=
| ServiceError (status_code : Z) (message : string)
| ValidationError
| MultipleResultsFound.

Inductive Result (A : Type) :=
| Return (a : A)
| Raise (e : Exception).
Arguments Return {A} a.
Arguments Raise {A} e.

Definition Awaitable (A : Type) : Type := AsyncSession → Result A * AsyncSession.

#[global] Instance Awaitable_ret : MRet Awaitable :=
  λ A a s, (Return a, s).

#[global] Instance Awaitable_bind : MBind Awaitable :=
  λ A B k m s,
    match m s with
    | (Return a, s') => k a s'
    | (Raise e, s') => (Raise e, s')
    end.

Definition raise {A} (e : Exception) : Awaitable A := λ s, (Raise e, s).

(** Read the tables as the open transaction sees them. *)
Definition execute {A} (q : Database → A) : Awaitable A :=
  λ s, (Return (q (pending s)), s).

(** Run a statement that changes the tables of the open transaction. *)
Definition execute_update (f : Database → Database) : Awaitable unit :=
  λ s, (Return (), {| committed := committed s; pending := f (pending s); drawn := drawn s |}).

(** Draw the next server generated identifier. *)
Definition server_uuid (env : Env) : Awaitable uuid :=
  λ s, (Return (gen_random_uuid env (drawn s)),
        {| committed := committed s; pending := pending s; drawn := S (drawn s) |}).

(** [session.commit()] *)
Definition commit : Awaitable unit :=
  λ s, (Return (), {| committed := pending s; pending := pending s; drawn := drawn s |}).

(** [async with SessionLocal() as session]: a request opens a session on the
    committed database, runs the use case, and closes the session; what was
    not committed is lost. *)
Definition open_session (srv : Server) : AsyncSession :=
  {| committed := database srv; pending := database srv; drawn := uuids_drawn srv |}.

Definition close_session (s : AsyncSession) : Server :=
  {| database := committed s; uuids_drawn := drawn s |}.

Definition request {A} (op : Awaitable A) (srv : Server) : Result A * Server :=
  let '(r, s) := op (open_session srv) in (r, close_session s).

(** *** Query helpers *)

(** [result.scalar_one_or_none()] *)
Definition scalar_one_or_none {A} (rows : list A) : Awaitable (option A) :=
  match rows with
  | [] => mret None
  | [x] => mret (Some x)
  | _ => raise MultipleResultsFound
  end.

(** [ORDER BY key ASC]; rows with equal keys keep their table order. *)
Fixpoint insert_by {A} (key : A → Z) (x : A) (l : list A) : list A :=
  match l with
  | [] => [x]
  | y :: l' => if decide (key x ≤ key y) then x :: l else y :: insert_by key x l'
  end.

Fixpoint order_by {A} (key : A → Z) (l : list A) : list A :=
  match l with
  | [] => []
  | x :: l' => insert_by key x (order_by key l')
  end.

(** [desc(column)] *)
Definition desc {A} (key : A → Z) : A → Z := λ x, - key x.

(** [func.max(column)]: NULL on the empty set. *)
Definition func_max (l : list Z) : option Z :=
  match l with
  | [] => None
  | x :: l' => Some (foldl Z.max x l')
  end.

(** [func.coalesce(x, d)] *)
Definition func_coalesce (o : option Z) (d : Z) : Z := default d o.

(** ** repositories/contracts_repository.py *)

Module repo.

(** Identifiers are compared as texts here and in the queries below; for a
    canonical [contract_id] the rows selected are the rows the database
    selects by uuid value (see the conventions). *)
Definition get_contract (contract_id : uuid) (include_deleted : bool)
  : Awaitable (option Contract.t) :=
  rows ← execute (λ db,
    let query := filter (λ c, Contract.id c = contract_id) (contracts db) in
    if include_deleted then query
    else filter (λ c, Contract.deleted_at c = None) query);
  scalar_one_or_none rows.

Definition create_contract (env : Env) (title contract_type template_id owner_user_id : string)
    (metadata : dict) : Awaitable Contract.t :=
  new_id ← server_uuid env;
  let contract := {|
    Contract.id := new_id;
    Contract.title := title;
    Contract.contract_type := contract_type;
    Contract.template_id := template_id;
    Contract.owner_user_id := owner_user_id;
    Contract.status := "DRAFT";
    Contract.metadata := metadata;
    Contract.created_at := now env;
    Contract.updated_at := now env;
    Contract.signed_at := None;
    Contract.deleted_at := None |} in
  execute_update (λ db, {|
    contracts := contracts db ++ [contract];
    contract_versions := contract_versions db;
    contract_parties := contract_parties db;
    activity_logs := activity_logs db |});;
  mret contract.

(** One [column = value] pair of an UPDATE statement on the contracts table. *)
Inductive Assignment :=
| set_title (v : string)
| set_status (v : string)
| set_signed_at (v : option datetime).

Definition assign (c : Contract.t) (a : Assignment) : Contract.t :=
  {| Contract.id := Contract.id c;
     Contract.title := match a with set_title v => v | _ => Contract.title c end;
     Contract.contract_type := Contract.contract_type c;
     Contract.template_id := Contract.template_id c;
     Contract.owner_user_id := Contract.owner_user_id c;
     Contract.status := match a with set_status v => v | _ => Contract.status c end;
     Contract.metadata := Contract.metadata c;
     Contract.created_at := Contract.created_at c;
     Contract.updated_at := Contract.updated_at c;
     Contract.signed_at := match a with set_signed_at v => v | _ => Contract.signed_at c end;
     Contract.deleted_at := Contract.deleted_at c |}.

(** The assignments of the [fields] dictionary applied to one row. *)
Definition values (fields : list Assignment) (c : Contract.t) : Contract.t :=
  foldl assign c fields.

Definition update_contract_fields (contract_id : uuid) (fields : list Assignment)
  : Awaitable unit :=
  match fields with
  | [] => mret ()
  | _ =>
    execute_update (λ db, {|
      contracts :=
        (λ c, if decide (Contract.id c = contract_id) then values fields c else c)
          <$> contracts db;
      contract_versions := contract_versions db;
      contract_parties := contract_parties db;
      activity_logs := activity_logs db |})
  end.

(** The number is stored as given; that it fits the 32-bit column is a
    premise ([int32]) of the properties that assert the insert. *)
Definition add_version (env : Env) (contract_id : uuid) (version : Z)
    (content source created_by : string) : Awaitable ContractVersion.t :=
  new_id ← server_uuid env;
  let contract_version := {|
    ContractVersion.id := new_id;
    ContractVersion.contract_id := contract_id;
    ContractVersion.version := version;
    ContractVersion.content := content;
    ContractVersion.source := source;
    ContractVersion.created_by := created_by;
    ContractVersion.created_at := now env |} in
  execute_update (λ db, {|
    contracts := contracts db;
    contract_versions := contract_versions db ++ [contract_version];
    contract_parties := contract_parties db;
    activity_logs := activity_logs db |});;
  mret contract_version.

Definition get_latest_version (contract_id : uuid) : Awaitable (option ContractVersion.t) :=
  rows ← execute (λ db,
    take 1 (order_by (desc ContractVersion.version)
      (filter (λ v, ContractVersion.contract_id v = contract_id) (contract_versions db))));
  scalar_one_or_none rows.

Definition list_versions (contract_id : uuid) : Awaitable (list ContractVersion.t) :=
  execute (λ db,
    order_by (desc ContractVersion.version)
      (filter (λ v, ContractVersion.contract_id v = contract_id) (contract_versions db))).

(** Parties with equal signing orders come in table order, one of the
    orders the database may return them in. *)
Definition list_parties (contract_id : uuid) : Awaitable (list ContractParty.t) :=
  execute (λ db,
    order_by ContractParty.signing_order
      (filter (λ p, ContractParty.contract_id p = contract_id) (contract_parties db))).

(** The signing order is stored as given; that it fits the 32-bit column is
    a premise ([int32]) of the properties that assert the insert. *)
Definition add_party (env : Env) (contract_id : uuid) (role name email : string)
    (signing_order : Z) : Awaitable ContractParty.t :=
  new_id ← server_uuid env;
  let party := {|
    ContractParty.id := new_id;
    ContractParty.contract_id := contract_id;
    ContractParty.role := role;
    ContractParty.name := name;
    ContractParty.email := email;
    ContractParty.signature_status := "PENDING";
    ContractParty.signed_at := None;
    ContractParty.signing_order := signing_order;
    ContractParty.created_at := now env |} in
  execute_update (λ db, {|
    contracts := contracts db;
    contract_versions := contract_versions db;
    contract_parties := contract_parties db ++ [party];
    activity_logs := activity_logs db |});;
  mret party.

(** The rows the DELETE statement of [remove_party] matches, for canonical
    identifiers. *)
Definition party_matches (contract_id party_id : uuid) (p : ContractParty.t) : Prop :=
  ContractParty.contract_id p = contract_id ∧ ContractParty.id p = party_id.

#[global] Instance party_matches_dec contract_id party_id p :
  Decision (party_matches contract_id party_id p).
Proof. unfold party_matches. apply _. Defined.

Definition remove_party (contract_id party_id : uuid) : Awaitable Z :=
  rowcount ← execute (λ db,
    Z.of_nat (length (filter (party_matches contract_id party_id) (contract_parties db))));
  execute_update (λ db, {|
    contracts := contracts db;
    contract_versions := contract_versions db;
    contract_parties :=
      filter (λ p, ¬ party_matches contract_id party_id p) (contract_parties db);
    activity_logs := activity_logs db |});;
  mret rowcount.

Definition get_next_version_number (contract_id : uuid) : Awaitable Z :=
  current_max ← execute (λ db,
    func_coalesce
      (func_max (ContractVersion.version <$>
        filter (λ v, ContractVersion.contract_id v = contract_id) (contract_versions db)))
      0);
  mret (current_max + 1).

Definition log_activity (env : Env) (contract_id : uuid) (action : ActivityAction.t)
    (user_id user_name : string) (details : dict) : Awaitable ActivityLog.t :=
  new_id ← server_uuid env;
  let log := {|
    ActivityLog.id := new_id;
    ActivityLog.contract_id := contract_id;
    ActivityLog.action := ActivityAction.value action;
    ActivityLog.user_id := user_id;
    ActivityLog.user_name := user_name;
    ActivityLog.details := details;
    ActivityLog.timestamp := now env |} in
  execute_update (λ db, {|
    contracts := contracts db;
    contract_versions := contract_versions db;
    contract_parties := contract_parties db;
    activity_logs := activity_logs db ++ [log] |});;
  mret log.

(** The query has no [ORDER BY]: the rows come in table order, one of the
    orders the database may return them in.  Membership in the id list is
    membership by uuid value for canonical ids. *)
Definition list_contracts_by_ids (owner_user_id : string) (contract_ids : list uuid)
  : Awaitable (list Contract.t) :=
  execute (λ db,
    filter (λ c, Contract.id c ∈ contract_ids)
      (filter (λ c, Contract.deleted_at c = None)
        (filter (λ c, Contract.owner_user_id c = owner_user_id) (contracts db)))).

Definition all_parties_signed (contract_id : uuid) : Awaitable bool :=
  unsigned_count ← execute (λ db,
    Z.of_nat (length
      (filter (λ p, ContractParty.signature_status p ≠ "SIGNED")
        (filter (λ p, ContractParty.contract_id p = contract_id) (contract_parties db)))));
  mret (bool_decide (unsigned_count = 0)).

Definition soft_delete_contract (env : Env) (contract_id : uuid) : Awaitable unit :=
  execute_update (λ db, {|
    contracts :=
      (λ c, if decide (Contract.id c = contract_id)
            then {| Contract.id := Contract.id c;
                    Contract.title := Contract.title c;
                    Contract.contract_type := Contract.contract_type c;
                    Contract.template_id := Contract.template_id c;
                    Contract.owner_user_id := Contract.owner_user_id c;
                    Contract.status := Contract.status c;
                    Contract.metadata := Contract.metadata c;
                    Contract.created_at := Contract.created_at c;
                    Contract.updated_at := Contract.updated_at c;
                    Contract.signed_at := Contract.signed_at c;
                    Contract.deleted_at := Some (utcnow env) |}
            else c) <$> contracts db;
    contract_versions := contract_versions db;
    contract_parties := contract_parties db;
    activity_logs := activity_logs db |}).

Definition list_activity_logs (contract_id : uuid) : Awaitable (list ActivityLog.t) :=
  execute (λ db,
    order_by (desc ActivityLog.timestamp)
      (filter (λ l, ActivityLog.contract_id l = contract_id) (activity_logs db))).

Definition list_recent_contracts (owner_user_id : string) : Awaitable (list Contract.t) :=
  execute (λ db,
    take 10
      (order_by (desc Contract.created_at)
        (filter (λ c, Contract.deleted_at c = None)
          (filter (λ c, Contract.owner_user_id c = owner_user_id) (contracts db))))).

(** The correlated EXISTS subquery of the pending queries: the contract has
    a party that has not signed. *)
Definition unsigned_party_exists (db : Database) (c : Contract.t) : Prop :=
  filter (λ p, ContractParty.signature_status p ≠ "SIGNED")
    (filter (λ p, ContractParty.contract_id p = Contract.id c) (contract_parties db)) ≠ [].

#[global] Instance unsigned_party_exists_dec db c : Decision (unsigned_party_exists db c).
Proof. unfold unsigned_party_exists. apply _. Defined.

Definition list_pending_contracts (owner_user_id : string) : Awaitable (list Contract.t) :=
  execute (λ db,
    order_by (desc Contract.updated_at)
      (filter (unsigned_party_exists db)
        (filter (λ c, Contract.status c = "SIGNING")
          (filter (λ c, Contract.deleted_at c = None)
            (filter (λ c, Contract.owner_user_id c = owner_user_id) (contracts db)))))).

Definition count_pending_signatures (owner_user_id : string) : Awaitable Z :=
  execute (λ db,
    Z.of_nat (length
      (filter (unsigned_party_exists db)
        (filter (λ c, Contract.status c = "SIGNING")
          (filter (λ c, Contract.deleted_at c = None)
            (filter (λ c, Contract.owner_user_id c = owner_user_id) (contracts db))))))).

(** [GROUP BY status] with a row count: one row per distinct status, then
    the dictionary built from the rows. *)
Definition contract_status_counts (owner_user_id : string) : Awaitable (gmap string Z) :=
  execute (λ db,
    let statuses :=
      Contract.status <$>
        filter (λ c, Contract.deleted_at c = None)
          (filter (λ c, Contract.owner_user_id c = owner_user_id) (contracts db)) in
    let rows :=
      (λ st, (st, Z.of_nat (length (filter (λ x, x = st) statuses))))
        <$> remove_dups statuses in
    list_to_map rows).

(** [Contract.signed_at >= since]; a NULL [signed_at] never satisfies the
    comparison. *)
Definition signed_since (since : datetime) (c : Contract.t) : Prop :=
  match Contract.signed_at c with
  | Some t => since ≤ t
  | None => False
  end.

#[global] Instance signed_since_dec since c : Decision (signed_since since c).
Proof. unfold signed_since. destruct (Contract.signed_at c); apply _. Defined.

(** [date_trunc] is the calendar function of the database, taken as a
    parameter. *)
Definition count_signed_this_month (env : Env) (date_trunc : string → datetime → datetime)
    (owner_user_id : string) : Awaitable Z :=
  execute (λ db,
    Z.of_nat (length
      (filter (signed_since (date_trunc "month" (now env)))
        (filter (λ c, Contract.status c = "SIGNED")
          (filter (λ c, Contract.deleted_at c = None)
            (filter (λ c, Contract.owner_user_id c = owner_user_id) (contracts db))))))).

Definition max_signing_order (contract_id : uuid) : Awaitable Z :=
  execute (λ db,
    func_coalesce
      (func_max (ContractParty.signing_order <$>
        filter (λ p, ContractParty.contract_id p = contract_id) (contract_parties db)))
      0).

End repo.

(** ** schemas: validation of rows into response objects *)

(** [ContractOut.model_validate(contract)]: the stored status has to be a
    member of [ContractStatus]. *)
Definition ContractOut_model_validate (c : option Contract.t) : Awaitable ContractOut.t :=
  match c with
  | None => raise ValidationError
  | Some c =>
    match ContractStatus.of_value (Contract.status c) with
    | None => raise ValidationError
    | Some st =>
      mret {|
        ContractOut.id := Contract.id c;
        ContractOut.title := Contract.title c;
        ContractOut.status := st;
        ContractOut.template_id := Contract.template_id c;
        ContractOut.contract_type := Contract.contract_type c;
        ContractOut.owner_user_id := Contract.owner_user_id c;
        ContractOut.created_at := Contract.created_at c;
        ContractOut.updated_at := Contract.updated_at c;
        ContractOut.signed_at := Contract.signed_at c |}
    end
  end.

(** [ContractPartyOut.model_validate(party)] *)
Definition ContractPartyOut_model_validate (p : ContractParty.t)
  : Awaitable ContractPartyOut.t :=
  match PartyRole.of_value (ContractParty.role p),
        SignatureStatus.of_value (ContractParty.signature_status p) with
  | Some r, Some st =>
    mret {|
      ContractPartyOut.id := ContractParty.id p;
      ContractPartyOut.role := r;
      ContractPartyOut.name := ContractParty.name p;
      ContractPartyOut.email := ContractParty.email p;
      ContractPartyOut.signature_status := st;
      ContractPartyOut.signed_at := ContractParty.signed_at p;
      ContractPartyOut.order := ContractParty.signing_order p |}
  | _, _ => raise ValidationError
  end.

(** [ContractVersionOut.model_validate(version)]: the stored source has to be
    one of the two literals. *)
Definition ContractVersionOut_model_validate (v : ContractVersion.t)
  : Awaitable ContractVersionOut.t :=
  match
    (if decide (ContractVersion.source v = "AI") then Some Source.AI
     else if decide (ContractVersion.source v = "USER") then Some Source.USER
     else None)
  with
  | Some src =>
    mret {|
      ContractVersionOut.version := ContractVersion.version v;
      ContractVersionOut.content := ContractVersion.content v;
      ContractVersionOut.source := src;
      ContractVersionOut.created_at := ContractVersion.created_at v;
      ContractVersionOut.created_by := ContractVersion.created_by v |}
  | None => raise ValidationError
  end.

(** ** services/contracts_service.py *)

Module service.

Record UserContext := {
  user_id : string;
  user_email : string;
  user_role : option string;
}.

Definition user_name (u : UserContext) : string := user_email u.

(** [d.get(k, default)] on a dictionary literal. *)
Fixpoint dict_get {V} (d : list (string * V)) (k : string) (default : V) : V :=
  match d with
  | [] => default
  | (k', v) :: d' => if decide (k' = k) then v else dict_get d' k default
  end.

Definition ALLOWED_TRANSITIONS : list (string * list string) := [
  ("DRAFT", ["GENERATED"; "CANCELLED"; "EXPIRED"]);
  ("GENERATED", ["SIGNING"; "CANCELLED"; "EXPIRED"]);
  ("SIGNING", ["SIGNED"; "CANCELLED"; "EXPIRED"]);
  ("SIGNED", []);
  ("CANCELLED", []);
  ("EXPIRED", [])
].

Definition STATUS_ACTION : list (string * ActivityAction.t) := [
  ("GENERATED", ActivityAction.GENERATED);
  ("SIGNING", ActivityAction.SENT);
  ("SIGNED", ActivityAction.SIGNED);
  ("CANCELLED", ActivityAction.CANCELLED);
  ("EXPIRED", ActivityAction.UPDATED);
  ("DRAFT", ActivityAction.UPDATED)
].

(** Truth value of an optional string: [None] and the empty string are false. *)
Definition truthy (o : option string) : bool :=
  match o with
  | None => false
  | Some s => bool_decide (s ≠ "")
  end.

(** [if cond: raise e] *)
Definition raise_if (cond : bool) (e : Exception) : Awaitable unit :=
  if cond then raise e else mret ().

(** [for x in xs: await body(x)] *)
Fixpoint for_each {A B} (xs : list A) (body : A → Awaitable B) : Awaitable unit :=
  match xs with
  | [] => mret ()
  | x :: xs' => body x;; for_each xs' body
  end.

(** [if not x: raise e], after which [x] is known to be present. *)
Definition raise_if_none {A} (x : option A) (e : Exception) : Awaitable A :=
  match x with
  | None => raise e
  | Some a => mret a
  end.

Definition update_contract (env : Env) (user : UserContext) (contract_id : uuid)
    (payload : UpdateContractRequest.t) : Awaitable ContractOut.t :=
  contract ← repo.get_contract contract_id false;
  contract ← raise_if_none contract (ServiceError 404 "Contrato no encontrado.");
  raise_if (bool_decide (Contract.owner_user_id contract ≠ user_id user))
    (ServiceError 403 "No tienes acceso a este contrato.");;
  let update_fields :=
    match UpdateContractRequest.title payload with
    | Some title => [repo.set_title title]
    | None => []
    end in
  let details : dict :=
    match UpdateContractRequest.title payload with
    | Some title => [("title", JStr title)]
    | None => []
    end in
  repo.update_contract_fields contract_id update_fields;;
  match update_fields with
  | [] => mret ()
  | _ =>
    repo.log_activity env contract_id ActivityAction.UPDATED (user_id user) (user_name user)
      [("changedFields", JObj details)];;
    mret ()
  end;;
  commit;;
  updated ← repo.get_contract contract_id false;
  ContractOut_model_validate updated.

Definition duplicate_contract (env : Env) (user : UserContext) (contract_id : uuid)
  : Awaitable ContractOut.t :=
  contract ← repo.get_contract contract_id false;
  contract ← raise_if_none contract (ServiceError 404 "Contrato no encontrado.");
  raise_if (bool_decide (Contract.owner_user_id contract ≠ user_id user))
    (ServiceError 403 "No tienes acceso a este contrato.");;
  new_contract ← repo.create_contract env
    (Contract.title contract)
    (Contract.contract_type contract)
    (Contract.template_id contract)
    (user_id user)
    (match Contract.metadata contract with [] => [] | m => m end);
  latest_version ← repo.get_latest_version contract_id;
  match latest_version with
  | Some latest_version =>
    repo.add_version env (Contract.id new_contract) 1
      (ContractVersion.content latest_version) "USER" (user_id user);;
    mret ()
  | None => mret ()
  end;;
  parties ← repo.list_parties contract_id;
  for_each parties (λ party,
    repo.add_party env (Contract.id new_contract)
      (ContractParty.role party)
      (ContractParty.name party)
      (ContractParty.email party)
      (ContractParty.signing_order party));;
  repo.log_activity env (Contract.id new_contract) ActivityAction.CREATED
    (user_id user) (user_name user) [("duplicatedFrom", JStr contract_id)];;
  commit;;
  ContractOut_model_validate (Some new_contract).

Definition update_content (env : Env) (user : UserContext) (contract_id : uuid)
    (payload : UpdateContractContentRequest.t) : Awaitable unit :=
  contract ← repo.get_contract contract_id false;
  contract ← raise_if_none contract (ServiceError 404 "Contrato no encontrado.");
  raise_if (bool_decide (Contract.owner_user_id contract ≠ user_id user))
    (ServiceError 403 "No tienes acceso a este contrato.");;
  next_version ← repo.get_next_version_number contract_id;
  repo.add_version env contract_id next_version
    (UpdateContractContentRequest.content payload)
    (Source.value (UpdateContractContentRequest.source payload))
    (user_id user);;
  let action :=
    if decide (Source.value (UpdateContractContentRequest.source payload) = "AI")
    then ActivityAction.GENERATED else ActivityAction.UPDATED in
  repo.log_activity env contract_id action (user_id user) (user_name user)
    [("version", JInt next_version);
     ("source", JStr (Source.value (UpdateContractContentRequest.source payload)))];;
  commit.

Definition update_status (env : Env) (user : UserContext) (contract_id : uuid)
    (payload : UpdateContractStatusRequest.t) : Awaitable unit :=
  contract ← repo.get_contract contract_id false;
  contract ← raise_if_none contract (ServiceError 404 "Contrato no encontrado.");
  raise_if (bool_decide (Contract.owner_user_id contract ≠ user_id user))
    (ServiceError 403 "No tienes acceso a este contrato.");;
  let current_status := Contract.status contract in
  let new_status := ContractStatus.value (UpdateContractStatusRequest.status payload) in
  raise_if (bool_decide (new_status = current_status))
    (ServiceError 400 "El contrato ya tiene ese estado.");;
  raise_if (bool_decide (new_status ∉ dict_get ALLOWED_TRANSITIONS current_status []))
    (ServiceError 400 "Transición de estado no permitida.");;
  raise_if (bool_decide (new_status = "CANCELLED")
            && negb (truthy (UpdateContractStatusRequest.reason payload)))
    (ServiceError 400 "El estado CANCELLED requiere reason.");;
  (if decide (new_status = "SIGNED") then
     parties ← repo.list_parties contract_id;
     raise_if (bool_decide (parties = []))
       (ServiceError 409 "No hay partes firmantes registradas.");;
     signed ← repo.all_parties_signed contract_id;
     raise_if (negb signed)
       (ServiceError 409 "Todas las partes deben estar SIGNED.")
   else mret ());;
  let update_fields := [
    repo.set_status new_status;
    repo.set_signed_at (if decide (new_status = "SIGNED") then Some (utcnow env) else None)
  ] in
  repo.update_contract_fields contract_id update_fields;;
  repo.log_activity env contract_id (dict_get STATUS_ACTION new_status ActivityAction.UPDATED)
    (user_id user) (user_name user)
    [("previousStatus", JStr current_status);
     ("newStatus", JStr new_status);
     ("reason", json_of_optional_str (UpdateContractStatusRequest.reason payload))];;
  commit.

Definition remove_party (env : Env) (user : UserContext) (contract_id party_id : uuid)
  : Awaitable unit :=
  contract ← repo.get_contract contract_id false;
  contract ← raise_if_none contract (ServiceError 404 "Contrato no encontrado.");
  raise_if (bool_decide (Contract.owner_user_id contract ≠ user_id user))
    (ServiceError 403 "No tienes acceso a este contrato.");;
  raise_if (bool_decide (Contract.status contract = "SIGNED"))
    (ServiceError 409 "No se puede remover una parte de un contrato firmado.");;
  deleted ← repo.remove_party contract_id party_id;
  raise_if (bool_decide (deleted = 0))
    (ServiceError 404 "Parte no encontrada.");;
  repo.log_activity env contract_id ActivityAction.UPDATED (user_id user) (user_name user)
    [("partyRemoved", JStr party_id)];;
  commit.

(** The archive under construction: the entries written so far, each a file
    name and its text.  [writestr] appends an entry. *)
Definition ZipFile := list (string * string).

Definition writestr (zip_file : ZipFile) (filename data : string) : ZipFile :=
  zip_file ++ [(filename, data)].

(** The first loop of [bulk_download]: the latest content of every resolved
    contract, keyed by contract id. *)
Fixpoint collect_contents (contracts : list Contract.t) (content_map : gmap string string)
  : Awaitable (gmap string string) :=
  match contracts with
  | [] => mret content_map
  | contract :: rest =>
    latest_version ← repo.get_latest_version (Contract.id contract);
    collect_contents rest
      (<[Contract.id contract :=
           match latest_version with
           | Some v => ContractVersion.content v
           | None => ""
           end]> content_map)
  end.

Definition bulk_download (user : UserContext) (contract_ids : list uuid) : Awaitable ZipFile :=
  contracts ← repo.list_contracts_by_ids (user_id user) contract_ids;
  raise_if (bool_decide (length contracts ≠ size (list_to_set contract_ids : gset string)))
    (ServiceError 404 "Uno o más contratos no fueron encontrados.");;
  content_map ← collect_contents contracts ∅;
  mret (foldl (λ zip_file contract,
          let filename := "contract_" +:+ Contract.id contract +:+ ".html" in
          writestr zip_file filename (default "" (content_map !! Contract.id contract)))
        [] contracts).

Definition public_view (contract_id : uuid) (token : string)
  : Awaitable PublicContractViewOut.t :=
  contract ← repo.get_contract contract_id false;
  contract ← raise_if_none contract (ServiceError 404 "Contrato no encontrado.");
  latest_version ← repo.get_latest_version contract_id;
  parties ← repo.list_parties contract_id;
  match parties with
  | [] => raise (ServiceError 404 "No hay partes registradas para este contrato.")
  | first_party :: _ =>
    let selected_party :=
      default first_party
        (head (filter (λ p, ContractParty.signature_status p ≠ "SIGNED") parties)) in
    party ← ContractPartyOut_model_validate selected_party;
    mret {|
      PublicContractViewOut.id := Contract.id contract;
      PublicContractViewOut.title := Contract.title contract;
      PublicContractViewOut.content :=
        match latest_version with
        | Some v => ContractVersion.content v
        | None => ""
        end;
      PublicContractViewOut.party := party;
      PublicContractViewOut.document_url := None |}
  end.

(** The payload is the dump of a validated [CreateContractRequest], so its
    three keys are always present. *)
Definition create_contract (env : Env) (user : UserContext)
    (payload : CreateContractRequest.t) : Awaitable ContractOut.t :=
  contract ← repo.create_contract env
    (CreateContractRequest.title payload)
    (CreateContractRequest.contract_type payload)
    (CreateContractRequest.template_id payload)
    (user_id user)
    [];
  repo.log_activity env (Contract.id contract) ActivityAction.CREATED
    (user_id user) (user_name user) [];;
  commit;;
  ContractOut_model_validate (Some contract).

Definition get_contract_detail (user : UserContext) (contract_id : uuid)
  : Awaitable ContractDetailOut.t :=
  contract ← repo.get_contract contract_id false;
  contract ← raise_if_none contract (ServiceError 404 "Contrato no encontrado.");
  raise_if (bool_decide (Contract.owner_user_id contract ≠ user_id user))
    (ServiceError 403 "No tienes acceso a este contrato.");;
  latest_version ← repo.get_latest_version contract_id;
  parties ← repo.list_parties contract_id;
  let content :=
    match latest_version with
    | Some v => ContractVersion.content v
    | None => ""
    end in
  base ← ContractOut_model_validate (Some contract);
  parties ← mapM ContractPartyOut_model_validate parties;
  mret {|
    ContractDetailOut.base := base;
    ContractDetailOut.content := content;
    ContractDetailOut.parties := parties;
    ContractDetailOut.signatures := [];
    ContractDetailOut.document_url := None;
    ContractDetailOut.document_hash := None |}.

Definition delete_contract (env : Env) (user : UserContext) (contract_id : uuid)
  : Awaitable unit :=
  contract ← repo.get_contract contract_id false;
  contract ← raise_if_none contract (ServiceError 404 "Contrato no encontrado.");
  raise_if (bool_decide (Contract.owner_user_id contract ≠ user_id user))
    (ServiceError 403 "No tienes acceso a este contrato.");;
  raise_if (bool_decide (Contract.status contract = "SIGNED"))
    (ServiceError 409 "No se puede eliminar un contrato firmado.");;
  repo.soft_delete_contract env contract_id;;
  repo.log_activity env contract_id ActivityAction.UPDATED (user_id user) (user_name user)
    [("softDelete", JBool true)];;
  commit.

Definition list_versions (user : UserContext) (contract_id : uuid)
  : Awaitable (list ContractVersionOut.t) :=
  contract ← repo.get_contract contract_id false;
  contract ← raise_if_none contract (ServiceError 404 "Contrato no encontrado.");
  raise_if (bool_decide (Contract.owner_user_id contract ≠ user_id user))
    (ServiceError 403 "No tienes acceso a este contrato.");;
  versions ← repo.list_versions contract_id;
  mapM ContractVersionOut_model_validate versions.

(** The dictionary [get_transitions] returns. *)
Record Transitions := {
  currentStatus : string;
  allowedTransitions : list string;
}.

Definition get_transitions (user : UserContext) (contract_id : uuid)
  : Awaitable Transitions :=
  contract ← repo.get_contract contract_id false;
  contract ← raise_if_none contract (ServiceError 404 "Contrato no encontrado.");
  raise_if (bool_decide (Contract.owner_user_id contract ≠ user_id user))
    (ServiceError 403 "No tienes acceso a este contrato.");;
  mret {|
    currentStatus := Contract.status contract;
    allowedTransitions := dict_get ALLOWED_TRANSITIONS (Contract.status contract) [] |}.

Definition list_activity (user : UserContext) (contract_id : uuid)
  : Awaitable (list ActivityLog.t) :=
  contract ← repo.get_contract contract_id false;
  contract ← raise_if_none contract (ServiceError 404 "Contrato no encontrado.");
  raise_if (bool_decide (Contract.owner_user_id contract ≠ user_id user))
    (ServiceError 403 "No tienes acceso a este contrato.");;
  logs ← repo.list_activity_logs contract_id;
  mret logs.

Definition list_parties (user : UserContext) (contract_id : uuid)
  : Awaitable (list ContractPartyOut.t) :=
  contract ← repo.get_contract contract_id false;
  contract ← raise_if_none contract (ServiceError 404 "Contrato no encontrado.");
  raise_if (bool_decide (Contract.owner_user_id contract ≠ user_id user))
    (ServiceError 403 "No tienes acceso a este contrato.");;
  parties ← repo.list_parties contract_id;
  mapM ContractPartyOut_model_validate parties.

Definition add_party (env : Env) (user : UserContext) (contract_id : uuid)
    (payload : AddPartyRequest.t) : Awaitable unit :=
  contract ← repo.get_contract contract_id false;
  contract ← raise_if_none contract (ServiceError 404 "Contrato no encontrado.");
  raise_if (bool_decide (Contract.owner_user_id contract ≠ user_id user))
    (ServiceError 403 "No tienes acceso a este contrato.");;
  raise_if (bool_decide (Contract.status contract = "SIGNED"))
    (ServiceError 409 "No se pueden agregar partes a un contrato firmado.");;
  signing_order ←
    match AddPartyRequest.order payload with
    | Some signing_order => mret signing_order
    | None => max_order ← repo.max_signing_order contract_id; mret (max_order + 1)
    end;
  repo.add_party env contract_id
    (PartyRole.value (AddPartyRequest.role payload))
    (AddPartyRequest.name payload)
    (AddPartyRequest.email payload)
    signing_order;;
  repo.log_activity env contract_id ActivityAction.UPDATED (user_id user) (user_name user)
    [("partyAdded", JStr (AddPartyRequest.email payload))];;
  commit.

Definition list_recent_contracts (user : UserContext) : Awaitable (list ContractOut.t) :=
  contracts ← repo.list_recent_contracts (user_id user);
  mapM (λ contract, ContractOut_model_validate (Some contract)) contracts.

Definition list_pending_contracts (user : UserContext) : Awaitable (list ContractOut.t) :=
  contracts ← repo.list_pending_contracts (user_id user);
  mapM (λ contract, ContractOut_model_validate (Some contract)) contracts.

(** [sum(d.values())] *)
Definition sum_values (d : gmap string Z) : Z :=
  foldr Z.add 0 ((map_to_list d).*2).

Definition stats (env : Env) (date_trunc : string → datetime → datetime)
    (user : UserContext) : Awaitable ContractStatsOut.t :=
  status_counts ← repo.contract_status_counts (user_id user);
  let total := sum_values status_counts in
  pending_signatures ← repo.count_pending_signatures (user_id user);
  signed_this_month ← repo.count_signed_this_month env date_trunc (user_id user);
  mret {|
    ContractStatsOut.total := total;
    ContractStatsOut.by_status := status_counts;
    ContractStatsOut.pending_signatures := pending_signatures;
    ContractStatsOut.signed_this_month := signed_this_month |}.

End service.

(** ** Vocabulary of the specification *)

Import service.

(** The party rows and the version rows of a contract, in table order. *)
Definition parties_of (db : Database) (contract_id : uuid) : list ContractParty.t :=
  filter (λ p, ContractParty.contract_id p = contract_id) (contract_parties db).

Definition versions_of (db : Database) (contract_id : uuid) : list ContractVersion.t :=
  filter (λ v, ContractVersion.contract_id v = contract_id) (contract_versions db).

Definition all_signed (parties : list ContractParty.t) : Prop :=
  Forall (λ p, ContractParty.signature_status p = "SIGNED") parties.

(** The row [get_latest_version] selects, and the current content the use
    cases derive from it ([latest_version.content if latest_version else ""]). *)
Definition latest_version_of (db : Database) (contract_id : uuid) : option ContractVersion.t :=
  head (order_by (desc ContractVersion.version) (versions_of db contract_id)).

Definition current_content (db : Database) (contract_id : uuid) : string :=
  match latest_version_of db contract_id with
  | Some v => ContractVersion.content v
  | None => ""
  end.

(** The allowed edges as the specification lists them. *)
Definition allowed_edges (st : ContractStatus.t) : list ContractStatus.t :=
  match st with
  | ContractStatus.DRAFT =>
    [ContractStatus.GENERATED; ContractStatus.CANCELLED; ContractStatus.EXPIRED]
  | ContractStatus.GENERATED =>
    [ContractStatus.SIGNING; ContractStatus.CANCELLED; ContractStatus.EXPIRED]
  | ContractStatus.SIGNING =>
    [ContractStatus.SIGNED; ContractStatus.CANCELLED; ContractStatus.EXPIRED]
  | ContractStatus.SIGNED | ContractStatus.CANCELLED | ContractStatus.EXPIRED => []
  end.

(** The audit action of a transition as the specification lists it. *)
Definition audit_action (target : ContractStatus.t) : ActivityAction.t :=
  match target with
  | ContractStatus.GENERATED => ActivityAction.GENERATED
  | ContractStatus.SIGNING => ActivityAction.SENT
  | ContractStatus.SIGNED => ActivityAction.SIGNED
  | ContractStatus.CANCELLED => ActivityAction.CANCELLED
  | ContractStatus.EXPIRED => ActivityAction.UPDATED
  | ContractStatus.DRAFT => ActivityAction.UPDATED
  end.

(** A contract row after a transition to [new_status] at client time [t]. *)
Definition transitioned (t : datetime) (new_status : string) (c : Contract.t) : Contract.t :=
  {| Contract.id := Contract.id c;
     Contract.title := Contract.title c;
     Contract.contract_type := Contract.contract_type c;
     Contract.template_id := Contract.template_id c;
     Contract.owner_user_id := Contract.owner_user_id c;
     Contract.status := new_status;
     Contract.metadata := Contract.metadata c;
     Contract.created_at := Contract.created_at c;
     Contract.updated_at := Contract.updated_at c;
     Contract.signed_at := if decide (new_status = "SIGNED") then Some t else None;
     Contract.deleted_at := Contract.deleted_at c |}.

(** The audit row of a transition, the [n]-th identifier being drawn for it. *)
Definition status_entry (env : Env) (user : UserContext) (contract_id : uuid)
    (previous : string) (payload : UpdateContractStatusRequest.t) (n : nat) : ActivityLog.t :=
  let new_status := ContractStatus.value (UpdateContractStatusRequest.status payload) in
  {| ActivityLog.id := gen_random_uuid env n;
     ActivityLog.contract_id := contract_id;
     ActivityLog.action :=
       ActivityAction.value (dict_get STATUS_ACTION new_status ActivityAction.UPDATED);
     ActivityLog.user_id := user_id user;
     ActivityLog.user_name := user_email user;
     ActivityLog.details :=
       [("previousStatus", JStr previous);
        ("newStatus", JStr new_status);
        ("reason", json_of_optional_str (UpdateContractStatusRequest.reason payload))];
     ActivityLog.timestamp := now env |}.

(** The session a successful [update_status] leaves behind. *)
Definition after_transition (env : Env) (user : UserContext) (contract_id : uuid)
    (previous : string) (payload : UpdateContractStatusRequest.t) (s : AsyncSession)
  : AsyncSession :=
  let new_status := ContractStatus.value (UpdateContractStatusRequest.status payload) in
  let db := {|
    contracts :=
      (λ c, if decide (Contract.id c = contract_id)
            then transitioned (utcnow env) new_status c else c) <$> contracts (pending s);
    contract_versions := contract_versions (pending s);
    contract_parties := contract_parties (pending s);
    activity_logs :=
      activity_logs (pending s) ++ [status_entry env user contract_id previous payload (drawn s)]
  |} in
  {| committed := db; pending := db; drawn := S (drawn s) |}.

(** Every contract has its versions numbered 1, 2, ... in insertion order. *)
Definition versions_numbered (db : Database) : Prop :=
  ∀ contract_id, ∃ m : nat,
    ContractVersion.version <$> versions_of db contract_id = seqZ 1 (Z.of_nat m).

(** Requests served one at a time, each in a session of its own. *)
Fixpoint serve {A} (ops : list (Awaitable A)) (srv : Server) : list (Result A) * Server :=
  match ops with
  | [] => ([], srv)
  | op :: ops' =>
    let '(r, srv') := request op srv in
    let '(rs, srv'') := serve ops' srv' in
    (r :: rs, srv'')
  end.

(** [q] is the copy of party [p] that [duplicate_contract] writes for the
    contract [new_id]: same role, name, email and signing order, signature
    state reset. *)
Definition is_copy (new_id : uuid) (p q : ContractParty.t) : Prop :=
  ContractParty.contract_id q = new_id
  ∧ ContractParty.role q = ContractParty.role p
  ∧ ContractParty.name q = ContractParty.name p
  ∧ ContractParty.email q = ContractParty.email p
  ∧ ContractParty.signing_order q = ContractParty.signing_order p
  ∧ ContractParty.signature_status q = "PENDING"
  ∧ ContractParty.signed_at q = None.

(** The contract row [duplicate_contract] creates from [c] for [user]. *)
Definition duplicate_of (env : Env) (user : UserContext) (new_id : uuid) (c : Contract.t)
  : Contract.t :=
  {| Contract.id := new_id;
     Contract.title := Contract.title c;
     Contract.contract_type := Contract.contract_type c;
     Contract.template_id := Contract.template_id c;
     Contract.owner_user_id := user_id user;
     Contract.status := "DRAFT";
     Contract.metadata := Contract.metadata c;
     Contract.created_at := now env;
     Contract.updated_at := now env;
     Contract.signed_at := None;
     Contract.deleted_at := None |}.

(** A contract row with a new title. *)
Definition retitled (title : string) (c : Contract.t) : Contract.t :=
  {| Contract.id := Contract.id c;
     Contract.title := title;
     Contract.contract_type := Contract.contract_type c;
     Contract.template_id := Contract.template_id c;
     Contract.owner_user_id := Contract.owner_user_id c;
     Contract.status := Contract.status c;
     Contract.metadata := Contract.metadata c;
     Contract.created_at := Contract.created_at c;
     Contract.updated_at := Contract.updated_at c;
     Contract.signed_at := Contract.signed_at c;
     Contract.deleted_at := Contract.deleted_at c |}.

(** The archive entry of a contract: a file name made from its id and its
    current content. *)
Definition archive_entry (db : Database) (c : Contract.t) : string * string :=
  ("contract_" +:+ Contract.id c +:+ ".html", current_content db (Contract.id c)).

(** The version rows [duplicate_contract] writes for the new contract: one
    row numbered 1 with the content of the latest version of the source, or
    none when the source has no version. *)
Definition duplicate_versions (env : Env) (user : UserContext) (new_id : uuid)
    (latest : option ContractVersion.t) (n : nat) : list ContractVersion.t :=
  match latest with
  | Some v =>
    [ {| ContractVersion.id := gen_random_uuid env n;
         ContractVersion.contract_id := new_id;
         ContractVersion.version := 1;
         ContractVersion.content := ContractVersion.content v;
         ContractVersion.source := "USER";
         ContractVersion.created_by := user_id user;
         ContractVersion.created_at := now env |} ]
  | None => []
  end.

(** No row of the database refers to the identifier [x]. *)
Definition unused_uuid (db : Database) (x : uuid) : Prop :=
  filter (λ c, Contract.id c = x) (contracts db) = []
  ∧ versions_of db x = []
  ∧ parties_of db x = [].

(** ** Sample data *)

Definition sample_env : Env :=
  {| gen_random_uuid := λ n, "uuid-" +:+ pretty n; now := 1000; utcnow := 2000 |}.

Definition alice : UserContext :=
  {| user_id := "alice"; user_email := "alice@example.org"; user_role := None |}.

Definition sample_contract (id status : string) : Contract.t :=
  {| Contract.id := id;
     Contract.title := "Lease";
     Contract.contract_type := "RENTAL";
     Contract.template_id := "tpl-1";
     Contract.owner_user_id := "alice";
     Contract.status := status;
     Contract.metadata := [("city", JStr "Cali")];
     Contract.created_at := 10;
     Contract.updated_at := 10;
     Contract.signed_at := None;
     Contract.deleted_at := None |}.

Definition sample_party (id contract_id signature_status : string) (order : Z)
  : ContractParty.t :=
  {| ContractParty.id := id;
     ContractParty.contract_id := contract_id;
     ContractParty.role := "HOST";
     ContractParty.name := "Ana";
     ContractParty.email := "ana@example.org";
     ContractParty.signature_status := signature_status;
     ContractParty.signed_at := None;
     ContractParty.signing_order := order;
     ContractParty.created_at := 10 |}.

Definition sample_version (id contract_id : string) (version : Z) (content : string)
  : ContractVersion.t :=
  {| ContractVersion.id := id;
     ContractVersion.contract_id := contract_id;
     ContractVersion.version := version;
     ContractVersion.content := content;
     ContractVersion.source := "USER";
     ContractVersion.created_by := "alice";
     ContractVersion.created_at := 10 |}.

(** A draft with one signed party and one version, a contract in SIGNING
    with one signed party, a signed contract with one party, and an empty
    draft. *)
Definition sample_db : Database :=
  {| contracts :=
       [sample_contract "c-draft" "DRAFT";
        sample_contract "c-signing" "SIGNING";
        sample_contract "c-signed" "SIGNED";
        sample_contract "c-empty" "DRAFT"];
     contract_versions := [sample_version "v-1" "c-draft" 1 "<p>first</p>"];
     contract_parties :=
       [sample_party "p-1" "c-draft" "SIGNED" 1;
        sample_party "p-2" "c-signing" "SIGNED" 1;
        sample_party "p-3" "c-signed" "SIGNED" 1];
     activity_logs := [] |}.

Definition sample_server : Server := {| database := sample_db; uuids_drawn := 0 |}.

Definition sample_session : AsyncSession := open_session sample_server.

(** ** Vocabulary for the use cases as a whole *)

(** The rows [get_contract] selects: the live rows with the given id. *)
Definition live_rows (db : Database) (contract_id : uuid) : list Contract.t :=
  filter (λ c, Contract.deleted_at c = None)
    (filter (λ c, Contract.id c = contract_id) (contracts db)).

(** The use cases that act on one contract on behalf of its owner. *)
Inductive OwnedUseCase :=
| UpdateContract (payload : UpdateContractRequest.t)
| DeleteContract
| DuplicateContract
| UpdateContent (payload : UpdateContractContentRequest.t)
| UpdateStatus (payload : UpdateContractStatusRequest.t)
| AddParty (payload : AddPartyRequest.t)
| RemoveParty (party_id : uuid)
| GetContractDetail
| ListVersions
| GetTransitions
| ListActivity
| ListParties.

(** Run a use case for its effect and outcome, dropping the value returned. *)
Definition discard {A} (m : Awaitable A) : Awaitable unit := m;; mret ().

Definition perform (env : Env) (user : UserContext) (contract_id : uuid)
    (uc : OwnedUseCase) : Awaitable unit :=
  match uc with
  | UpdateContract payload => discard (update_contract env user contract_id payload)
  | DeleteContract => discard (delete_contract env user contract_id)
  | DuplicateContract => discard (duplicate_contract env user contract_id)
  | UpdateContent payload => discard (update_content env user contract_id payload)
  | UpdateStatus payload => discard (update_status env user contract_id payload)
  | AddParty payload => discard (add_party env user contract_id payload)
  | RemoveParty party_id => discard (remove_party env user contract_id party_id)
  | GetContractDetail => discard (get_contract_detail user contract_id)
  | ListVersions => discard (list_versions user contract_id)
  | GetTransitions => discard (get_transitions user contract_id)
  | ListActivity => discard (list_activity user contract_id)
  | ListParties => discard (list_parties user contract_id)
  end.

(** Every use case of the service that is modelled. *)
Inductive UseCase :=
| Owned (contract_id : uuid) (uc : OwnedUseCase)
| CreateContract (payload : CreateContractRequest.t)
| ListRecentContracts
| ListPendingContracts
| Stats
| BulkDownload (contract_ids : list uuid)
| PublicView (contract_id : uuid) (token : string).

Definition perform_any (env : Env) (date_trunc : string → datetime → datetime)
    (user : UserContext) (uc : UseCase) : Awaitable unit :=
  match uc with
  | Owned contract_id uc => perform env user contract_id uc
  | CreateContract payload => discard (create_contract env user payload)
  | ListRecentContracts => discard (list_recent_contracts user)
  | ListPendingContracts => discard (list_pending_contracts user)
  | Stats => discard (stats env date_trunc user)
  | BulkDownload contract_ids => discard (bulk_download user contract_ids)
  | PublicView contract_id token => discard (public_view contract_id token)
  end.

(** The use cases that only read. *)
Definition reads (uc : UseCase) : bool :=
  match uc with
  | Owned _ (GetContractDetail | ListVersions | GetTransitions | ListActivity | ListParties)
  | ListRecentContracts | ListPendingContracts | Stats | BulkDownload _ | PublicView _ _ => true
  | _ => false
  end.

Definition bob : UserContext :=
  {| user_id := "bob"; user_email := "bob@example.org"; user_role := None |}.

Definition is_service_error {A} (r : Result A) : Prop :=
  ∃ code message, r = Raise (ServiceError code message).

(** A contract row after a soft delete at client time [t]. *)
Definition soft_deleted (t : datetime) (c : Contract.t) : Contract.t :=
  {| Contract.id := Contract.id c;
     Contract.title := Contract.title c;
     Contract.contract_type := Contract.contract_type c;
     Contract.template_id := Contract.template_id c;
     Contract.owner_user_id := Contract.owner_user_id c;
     Contract.status := Contract.status c;
     Contract.metadata := Contract.metadata c;
     Contract.created_at := Contract.created_at c;
     Contract.updated_at := Contract.updated_at c;
     Contract.signed_at := Contract.signed_at c;
     Contract.deleted_at := Some t |}.

(** An audit row written by [user] with the [n]-th identifier. *)
Definition audit_entry (env : Env) (user : UserContext) (contract_id : uuid)
    (action : ActivityAction.t) (details : dict) (n : nat) : ActivityLog.t :=
  {| ActivityLog.id := gen_random_uuid env n;
     ActivityLog.contract_id := contract_id;
     ActivityLog.action := ActivityAction.value action;
     ActivityLog.user_id := user_id user;
     ActivityLog.user_name := user_email user;
     ActivityLog.details := details;
     ActivityLog.timestamp := now env |}.

(** The session a successful [delete_contract] leaves behind. *)
Definition after_delete (env : Env) (user : UserContext) (contract_id : uuid)
    (s : AsyncSession) : AsyncSession :=
  let db := {|
    contracts :=
      (λ c, if decide (Contract.id c = contract_id)
            then soft_deleted (utcnow env) c else c) <$> contracts (pending s);
    contract_versions := contract_versions (pending s);
    contract_parties := contract_parties (pending s);
    activity_logs :=
      activity_logs (pending s)
      ++ [audit_entry env user contract_id ActivityAction.UPDATED
            [("softDelete", JBool true)] (drawn s)] |} in
  {| committed := db; pending := db; drawn := S (drawn s) |}.

(** The signing order [add_party] gives the new party, and the row it
    writes with the [n]-th identifier. *)
Definition assigned_order (db : Database) (contract_id : uuid) (payload : AddPartyRequest.t)
  : Z :=
  match AddPartyRequest.order payload with
  | Some signing_order => signing_order
  | None =>
    func_coalesce
      (func_max (ContractParty.signing_order <$> parties_of db contract_id)) 0 + 1
  end.

Definition added_party (env : Env) (db : Database) (contract_id : uuid)
    (payload : AddPartyRequest.t) (n : nat) : ContractParty.t :=
  {| ContractParty.id := gen_random_uuid env n;
     ContractParty.contract_id := contract_id;
     ContractParty.role := PartyRole.value (AddPartyRequest.role payload);
     ContractParty.name := AddPartyRequest.name payload;
     ContractParty.email := AddPartyRequest.email payload;
     ContractParty.signature_status := "PENDING";
     ContractParty.signed_at := None;
     ContractParty.signing_order := assigned_order db contract_id payload;
     ContractParty.created_at := now env |}.

(** The session a successful [add_party] leaves behind. *)
Definition after_add_party (env : Env) (user : UserContext) (contract_id : uuid)
    (payload : AddPartyRequest.t) (s : AsyncSession) : AsyncSession :=
  let db := {|
    contracts := contracts (pending s);
    contract_versions := contract_versions (pending s);
    contract_parties :=
      contract_parties (pending s)
      ++ [added_party env (pending s) contract_id payload (drawn s)];
    activity_logs :=
      activity_logs (pending s)
      ++ [audit_entry env user contract_id ActivityAction.UPDATED
            [("partyAdded", JStr (AddPartyRequest.email payload))] (S (drawn s))] |} in
  {| committed := db; pending := db; drawn := S (S (drawn s)) |}.

(** The session a successful [remove_party] leaves behind. *)
Definition after_remove_party (env : Env) (user : UserContext) (contract_id party_id : uuid)
    (s : AsyncSession) : AsyncSession :=
  let db := {|
    contracts := contracts (pending s);
    contract_versions := contract_versions (pending s);
    contract_parties :=
      filter (λ p, ¬ repo.party_matches contract_id party_id p) (contract_parties (pending s));
    activity_logs :=
      activity_logs (pending s)
      ++ [audit_entry env user contract_id ActivityAction.UPDATED
            [("partyRemoved", JStr party_id)] (drawn s)] |} in
  {| committed := db; pending := db; drawn := S (drawn s) |}.

(** What every use case respects: version rows, audit rows and contract ids
    already in the transaction stay where they are, a commit publishes the
    whole transaction, and a [ServiceError] is raised with the session
    untouched. *)
Definition orderly {A} (s : AsyncSession) (out : Result A * AsyncSession) : Prop :=
  contract_versions (pending s) `prefix_of` contract_versions (pending out.2)
  ∧ activity_logs (pending s) `prefix_of` activity_logs (pending out.2)
  ∧ (Contract.id <$> contracts (pending s))
      `prefix_of` (Contract.id <$> contracts (pending out.2))
  ∧ (committed out.2 = committed s ∨ committed out.2 = pending out.2)
  ∧ (is_service_error out.1 → out.2 = s).

(** A computation that leaves the session as it found it, whatever it
    returns or raises. *)
Definition reading {A} (m : Awaitable A) : Prop := ∀ s, (m s).2 = s.

(** The session [update_contract] leaves behind: with a title the row is
    retitled and one audit row is added; without one only the commit
    happens. *)
Definition after_update_contract (env : Env) (user : UserContext) (contract_id : uuid)
    (payload : UpdateContractRequest.t) (s : AsyncSession) : AsyncSession :=
  match UpdateContractRequest.title payload with
  | Some title =>
    let db := {|
      contracts :=
        (λ c, if decide (Contract.id c = contract_id) then retitled title c else c)
          <$> contracts (pending s);
      contract_versions := contract_versions (pending s);
      contract_parties := contract_parties (pending s);
      activity_logs :=
        activity_logs (pending s)
        ++ [audit_entry env user contract_id ActivityAction.UPDATED
              [("changedFields", JObj [("title", JStr title)])] (drawn s)] |} in
    {| committed := db; pending := db; drawn := S (drawn s) |}
  | None => {| committed := pending s; pending := pending s; drawn := drawn s |}
  end.

(** How far a stored status is along the lifecycle: the terminal statuses,
    and any string that is not a status, are at the end. *)
Definition status_rank (st : string) : nat :=
  if decide (st = "DRAFT") then 0
  else if decide (st = "GENERATED") then 1
  else if decide (st = "SIGNING") then 2
  else 3.

Definition succeeded {A} (r : Result A) : bool :=
  match r with
  | Return _ => true
  | Raise _ => false
  end.

(** The contracts a user sees: the rows they own that are not soft deleted,
    in table order; and those among them with a given status. *)
Definition owned_contracts (db : Database) (owner_user_id : string) : list Contract.t :=
  filter (λ c, Contract.deleted_at c = None)
    (filter (λ c, Contract.owner_user_id c = owner_user_id) (contracts db)).

Definition owned_with_status (db : Database) (owner_user_id st : string) : list Contract.t :=
  filter (λ c, Contract.status c = st) (owned_contracts db owner_user_id).

(** A response object shows a row: every column is carried over, the
    enumerated ones by their value. *)
Definition contract_view (c : Contract.t) (out : ContractOut.t) : Prop :=
  ContractOut.id out = Contract.id c
  ∧ ContractOut.title out = Contract.title c
  ∧ ContractStatus.value (ContractOut.status out) = Contract.status c
  ∧ ContractOut.template_id out = Contract.template_id c
  ∧ ContractOut.contract_type out = Contract.contract_type c
  ∧ ContractOut.owner_user_id out = Contract.owner_user_id c
  ∧ ContractOut.created_at out = Contract.created_at c
  ∧ ContractOut.updated_at out = Contract.updated_at c
  ∧ ContractOut.signed_at out = Contract.signed_at c.

Definition party_view (p : ContractParty.t) (out : ContractPartyOut.t) : Prop :=
  ContractPartyOut.id out = ContractParty.id p
  ∧ PartyRole.value (ContractPartyOut.role out) = ContractParty.role p
  ∧ ContractPartyOut.name out = ContractParty.name p
  ∧ ContractPartyOut.email out = ContractParty.email p
  ∧ SignatureStatus.value (ContractPartyOut.signature_status out)
    = ContractParty.signature_status p
  ∧ ContractPartyOut.signed_at out = ContractParty.signed_at p
  ∧ ContractPartyOut.order out = ContractParty.signing_order p.

Definition version_view (v : ContractVersion.t) (out : ContractVersionOut.t) : Prop :=
  ContractVersionOut.version out = ContractVersion.version v
  ∧ ContractVersionOut.content out = ContractVersion.content v
  ∧ Source.value (ContractVersionOut.source out) = ContractVersion.source v
  ∧ ContractVersionOut.created_at out = ContractVersion.created_at v
  ∧ ContractVersionOut.created_by out = ContractVersion.created_by v.

(** The rows the pending queries select for a user. *)
Definition pending_contracts (db : Database) (owner_user_id : string) : list Contract.t :=
  filter (repo.unsigned_party_exists db) (owned_with_status db owner_user_id "SIGNING").

(** A session in which the SIGNING contract of the sample data has a second
    party, who has not signed. *)
Definition sample_pending_session : AsyncSession :=
  let db := {|
    contracts := contracts sample_db;
    contract_versions := contract_versions sample_db;
    contract_parties :=
      contract_parties sample_db ++ [sample_party "p-4" "c-signing" "PENDING" 2];
    activity_logs := activity_logs sample_db |} in
  {| committed := db; pending := db; drawn := 0 |}.

(** The contract a use case is addressed to, if any. *)
Definition target (uc : UseCase) : option uuid :=
  match uc with
  | Owned contract_id _ => Some contract_id
  | _ => None
  end.

Definition logs_of (db : Database) (contract_id : uuid) : list ActivityLog.t :=
  filter (λ l, ActivityLog.contract_id l = contract_id) (activity_logs db).

(** Nothing that belongs to contract [x] differs between [db] and [db']:
    neither its rows in the contracts table, nor its versions, its parties
    or its audit rows. *)
Definition untouched (x : uuid) (db db' : Database) : Prop :=
  filter (λ c, Contract.id c = x) (contracts db')
    = filter (λ c, Contract.id c = x) (contracts db)
  ∧ versions_of db' x = versions_of db x
  ∧ parties_of db' x = parties_of db x
  ∧ logs_of db' x = logs_of db x.

(** Contract [x] is live and SIGNED in [db], signed at the time and owned by
    the user recorded in [c], with [parties] as its parties. *)
Definition signed_as (c : Contract.t) (parties : list ContractParty.t) (x : uuid)
    (db : Database) : Prop :=
  ∃ c',
    live_rows db x = [c']
    ∧ Contract.status c' = "SIGNED"
    ∧ Contract.signed_at c' = Contract.signed_at c
    ∧ Contract.owner_user_id c' = Contract.owner_user_id c
    ∧ parties_of db x = parties.

(** The use cases that change something of the contract they are addressed
    to: [update_contract] when it carries a title, and the five other
    writes.  [duplicate_contract] writes to the duplicate only. *)
Definition audited (uc : OwnedUseCase) : bool :=
  match uc with
  | UpdateContract payload =>
    match UpdateContractRequest.title payload with
    | Some _ => true
    | None => false
    end
  | DeleteContract | UpdateContent _ | UpdateStatus _ | AddParty _ | RemoveParty _ => true
  | _ => false
  end.

(** An audit row filed under [contract_id] in the name of [user], stamped
    with the time of the database. *)
Definition filed_by (env : Env) (user : UserContext) (contract_id : uuid)
    (entry : ActivityLog.t) : Prop :=
  ActivityLog.contract_id entry = contract_id
  ∧ ActivityLog.user_id entry = user_id user
  ∧ ActivityLog.user_name entry = user_email user
  ∧ ActivityLog.timestamp entry = now env.

(** ** Database values behind the texts *)

(** The range of an [Integer] column. *)
Definition int32 (z : Z) : Prop := -2147483648 ≤ z ≤ 2147483647.

(** The canonical text of a uuid, in which the database returns it: 32
    lower-case hexadecimal digits in groups of 8, 4, 4, 4 and 12, separated
    by hyphens. *)
Definition hex_digit (a : Ascii.ascii) : bool :=
  bool_decide (a ∈ String.list_ascii_of_string "0123456789abcdef").

Definition uuid_char (i : nat) (a : Ascii.ascii) : bool :=
  if bool_decide (i ∈ [8; 13; 18; 23]%nat)
  then bool_decide (a ∈ String.list_ascii_of_string "-")
  else hex_digit a.

Definition is_canonical_uuid (s : string) : bool :=
  let l := String.list_ascii_of_string s in
  bool_decide (length l = 36%nat) && forallb (λ p, uuid_char p.1 p.2) (imap pair l).

Definition canonical_uuid (s : string) : Prop := is_canonical_uuid s = true.

(** *** Sample data with canonical identifiers *)

Definition draft_id : uuid := "c0000000-0000-4000-8000-000000000001".
Definition signing_id : uuid := "c0000000-0000-4000-8000-000000000002".
Definition signed_id : uuid := "c0000000-0000-4000-8000-000000000003".
Definition empty_id : uuid := "c0000000-0000-4000-8000-000000000004".
Definition unknown_id : uuid := "c0000000-0000-4000-8000-0000000000ff".
Definition party_1 : uuid := "a0000000-0000-4000-8000-000000000001".
Definition party_2 : uuid := "a0000000-0000-4000-8000-000000000002".
Definition party_3 : uuid := "a0000000-0000-4000-8000-000000000003".

Fixpoint zeros (n : nat) : string :=
  match n with
  | O => ""
  | S n => "0" +:+ zeros n
  end.

(** An environment whose generator yields canonical identifiers (for the
    first 10^12 draws). *)
Definition canonical_env : Env :=
  {| gen_random_uuid := λ n,
       "f0000000-0000-4000-8000-"
       +:+ zeros (12 - String.length (pretty n)) +:+ pretty n;
     now := 1000;
     utcnow := 2000 |}.

(** The sample database under canonical identifiers. *)
Definition canonical_db : Database :=
  {| contracts :=
       [sample_contract draft_id "DRAFT";
        sample_contract signing_id "SIGNING";
        sample_contract signed_id "SIGNED";
        sample_contract empty_id "DRAFT"];
     contract_versions :=
       [sample_version "e0000000-0000-4000-8000-000000000001" draft_id 1 "<p>first</p>"];
     contract_parties :=
       [sample_party party_1 draft_id "SIGNED" 1;
        sample_party party_2 signing_id "SIGNED" 1;
        sample_party party_3 signed_id "SIGNED" 1];
     activity_logs := [] |}.

Definition canonical_server : Server := {| database := canonical_db; uuids_drawn := 0 |}.

Definition canonical_session : AsyncSession := open_session canonical_server.

(** ** Running awaited computations *)

Lemma bind_run {A B} (m : Awaitable A) (k : A → Awaitable B) s :
  (m ≫= k) s =
  match m s with
  | (Return a, s') => k a s'
  | (Raise e, s') => (Raise e, s')
  end.
Proof. reflexivity. Qed.

Lemma bind_Return {A B} (m : Awaitable A) (k : A → Awaitable B) s a s' :
  m s = (Return a, s') → (m ≫= k) s = k a s'.
Proof. intros H. rewrite bind_run, H. reflexivity. Qed.

Lemma raise_if_bind {A} (b : bool) e (k : unit → Awaitable A) s :
  (raise_if b e ≫= k) s = if b then (Raise e, s) else k () s.
Proof. destruct b; reflexivity. Qed.

Lemma scalar_one_or_none_inv {A} (rows : list A) s x s' :
  scalar_one_or_none rows s = (Return (Some x), s') → rows = [x] ∧ s' = s.
Proof.
  destruct rows as [|y [|z rows]]; cbn; intros H; inversion H; auto.
Qed.

Lemma get_contract_live contract_id s c s' :
  repo.get_contract contract_id false s = (Return (Some c), s') →
  filter (λ c, Contract.deleted_at c = None)
    (filter (λ c, Contract.id c = contract_id) (contracts (pending s))) = [c].
Proof.
  unfold repo.get_contract. rewrite bind_run. cbn.
  intros H. by apply scalar_one_or_none_inv in H as [-> _].
Qed.

Lemma raise_if_none_bind {A B} (a : A) e (k : A → Awaitable B) s :
  (raise_if_none (Some a) e ≫= k) s = k a s.
Proof. reflexivity. Qed.

(** Step over the first lines of a use case: the contract is found and the
    requester owns it. *)
Ltac enter_owned Hget Hown :=
  rewrite (bind_Return _ _ _ _ _ Hget); cbv beta;
  rewrite raise_if_none_bind, raise_if_bind,
    bool_decide_eq_false_2 by (let Hneq := fresh in intros Hneq; exact (Hneq Hown)).

(** ** Sorting *)

Lemma insert_by_perm {A} (key : A → Z) x l : insert_by key x l ≡ₚ x :: l.
Proof.
  induction l as [|y l IH]; cbn; [done|].
  case_decide; [done|]. rewrite IH. apply Permutation_swap.
Qed.

Lemma order_by_perm {A} (key : A → Z) l : order_by key l ≡ₚ l.
Proof.
  induction l as [|x l IH]; cbn; [done|].
  by rewrite insert_by_perm, IH.
Qed.

Lemma order_by_nil_iff {A} (key : A → Z) l : order_by key l = [] ↔ l = [].
Proof.
  split; [|by intros ->].
  intros H. apply Permutation_nil_r. rewrite <- H. symmetry. apply order_by_perm.
Qed.

Lemma insert_by_sorted {A} (key : A → Z) x l :
  StronglySorted (λ a b, key a ≤ key b) l →
  StronglySorted (λ a b, key a ≤ key b) (insert_by key x l).
Proof.
  induction 1 as [|y l Hl IH Hy]; cbn.
  - repeat constructor.
  - case_decide as Hxy.
    + constructor; [by constructor|]. constructor; [done|].
      eapply Forall_impl; [exact Hy|]. cbn. lia.
    + constructor; [done|]. rewrite insert_by_perm. constructor; [lia|done].
Qed.

Lemma order_by_sorted {A} (key : A → Z) l :
  StronglySorted (λ a b, key a ≤ key b) (order_by key l).
Proof.
  induction l as [|x l IH]; cbn; [constructor|]. by apply insert_by_sorted.
Qed.

Lemma insert_by_least {A} (key : A → Z) x l :
  Forall (λ y, key x ≤ key y) l → insert_by key x l = x :: l.
Proof.
  destruct 1 as [|y l Hy _]; cbn; [done|]. by rewrite decide_True.
Qed.

(** Sorting rows that are already in order changes nothing. *)
Lemma order_by_sorted_id {A} (key : A → Z) l :
  StronglySorted (λ a b, key a ≤ key b) l → order_by key l = l.
Proof.
  induction 1 as [|x l Hl IH Hx]; cbn; [done|].
  rewrite IH. by apply insert_by_least.
Qed.

(** The first row of a sorted result carries the least key. *)
Lemma order_by_head {A} (key : A → Z) l x :
  head (order_by key l) = Some x → x ∈ l ∧ ∀ y, y ∈ l → key x ≤ key y.
Proof.
  intros Hhead. pose proof (order_by_sorted key l) as Hsorted.
  pose proof (order_by_perm key l) as Hperm.
  destruct (order_by key l) as [|x' rest]; [done|]. cbn in Hhead. simplify_eq.
  split.
  - rewrite <- Hperm. constructor.
  - intros y Hy. rewrite <- Hperm in Hy.
    apply StronglySorted_inv in Hsorted as [_ Hall].
    apply elem_of_cons in Hy as [->|Hy]; [lia|].
    by apply (proj1 (Forall_forall _ _) Hall).
Qed.

(** ** The party ledger *)

Lemma all_parties_signed_run contract_id s :
  repo.all_parties_signed contract_id s =
  (Return (bool_decide (all_signed (parties_of (pending s) contract_id))), s).
Proof.
  unfold repo.all_parties_signed. rewrite bind_run. cbn.
  fold (parties_of (pending s) contract_id).
  unfold mret, Awaitable_ret. f_equal. f_equal. apply bool_decide_ext.
  unfold all_signed. induction (parties_of (pending s) contract_id) as [|p l IH].
  - cbn. split; [constructor|done].
  - rewrite filter_cons, Forall_cons. case_decide as Hp.
    + cbn. split; [lia|]. by intros [? _].
    + rewrite IH. split; [by intros ?|by intros [_ ?]].
Qed.

Lemma list_parties_run contract_id s :
  repo.list_parties contract_id s =
  (Return (order_by ContractParty.signing_order (parties_of (pending s) contract_id)), s).
Proof. reflexivity. Qed.

(** ** The status transition engine *)

(** [update_status] on an owned contract, as one decision tree. *)
Lemma update_status_run env user contract_id payload s c :
  repo.get_contract contract_id false s = (Return (Some c), s) →
  Contract.owner_user_id c = user_id user →
  let current_status := Contract.status c in
  let new_status := ContractStatus.value (UpdateContractStatusRequest.status payload) in
  let done := (Return (), after_transition env user contract_id current_status payload s) in
  update_status env user contract_id payload s =
    if decide (new_status = current_status) then
      (Raise (ServiceError 400 "El contrato ya tiene ese estado."), s)
    else if decide (new_status ∈ dict_get ALLOWED_TRANSITIONS current_status []) then
      if decide (new_status = "CANCELLED"
                 ∧ truthy (UpdateContractStatusRequest.reason payload) = false) then
        (Raise (ServiceError 400 "El estado CANCELLED requiere reason."), s)
      else if decide (new_status = "SIGNED") then
        if decide (parties_of (pending s) contract_id = []) then
          (Raise (ServiceError 409 "No hay partes firmantes registradas."), s)
        else if decide (all_signed (parties_of (pending s) contract_id)) then done
        else (Raise (ServiceError 409 "Todas las partes deben estar SIGNED."), s)
      else done
    else (Raise (ServiceError 400 "Transición de estado no permitida."), s).
Proof.
  intros Hget Hown current_status new_status done. unfold update_status.
  enter_owned Hget Hown.
  cbv zeta. fold current_status new_status.
  rewrite raise_if_bind.
  destruct (decide (new_status = current_status)) as [Heq|Hne].
  { by rewrite bool_decide_eq_true_2. }
  rewrite bool_decide_eq_false_2 by done.
  rewrite raise_if_bind.
  destruct (decide (new_status ∈ _)) as [Hin|Hnin].
  2:{ by rewrite bool_decide_eq_true_2. }
  rewrite bool_decide_eq_false_2 by (intros H; by apply H).
  rewrite raise_if_bind.
  destruct (decide (new_status = "CANCELLED" ∧ _)) as [[Hc Ht]|Hnc].
  { rewrite bool_decide_eq_true_2 by done. by rewrite Ht. }
  assert (bool_decide (new_status = "CANCELLED")
          && negb (truthy (UpdateContractStatusRequest.reason payload)) = false) as ->.
  { case_bool_decide; [|done].
    destruct (truthy _) eqn:Ht; [done|]. by destruct Hnc. }
  rewrite bind_run. subst done.
  unfold after_transition, status_entry, transitioned. fold new_status.
  destruct (decide (new_status = "SIGNED")) as [Hs|Hs].
  - rewrite bind_run, list_parties_run, raise_if_bind.
    destruct (decide (parties_of (pending s) contract_id = [])) as [He|He].
    { rewrite bool_decide_eq_true_2; [done|]. by rewrite He. }
    rewrite bool_decide_eq_false_2 by (by rewrite order_by_nil_iff).
    rewrite bind_run, all_parties_signed_run.
    destruct (decide (all_signed _)) as [Ha|Ha].
    + rewrite bool_decide_eq_true_2 by done. reflexivity.
    + rewrite bool_decide_eq_false_2 by done. reflexivity.
  - reflexivity.
Qed.

Lemma allowed_transitions_edges (current target : ContractStatus.t) :
  ContractStatus.value target
    ∈ dict_get ALLOWED_TRANSITIONS (ContractStatus.value current) []
  ↔ target ∈ allowed_edges current.
Proof.
  destruct current, target; split; intros H;
    first [ apply (bool_decide_unpack _); vm_compute; exact I
          | apply (bool_decide_pack _) in H; vm_compute in H; destruct H ].
Qed.

(** C1, as stated, fails on a contract that is not in SIGNING: a DRAFT owned
    by the requester whose only party has signed is refused with status code
    400 (the transition is not allowed), although it has a party and every
    party is SIGNED. *)
Lemma update_status_signed_draft_refused :
  let payload :=
    {| UpdateContractStatusRequest.status := ContractStatus.SIGNED;
       UpdateContractStatusRequest.reason := None |} in
  repo.get_contract "c-draft" false sample_session
    = (Return (Some (sample_contract "c-draft" "DRAFT")), sample_session)
  ∧ Contract.owner_user_id (sample_contract "c-draft" "DRAFT") = user_id alice
  ∧ parties_of (pending sample_session) "c-draft" ≠ []
  ∧ all_signed (parties_of (pending sample_session) "c-draft")
  ∧ update_status sample_env alice "c-draft" payload sample_session
    = (Raise (ServiceError 400 "Transición de estado no permitida."), sample_session).
Proof.
  cbv zeta. split_and!; try reflexivity.
  - vm_compute. discriminate.
  - apply (bool_decide_unpack _). vm_compute. exact I.
Qed.

(** C1 (amended): for a contract in SIGNING owned by the requester,
    [update_status] to SIGNED succeeds if and only if the contract has at
    least one party and every party has signature status SIGNED; otherwise it
    raises a [ServiceError] with status code 409 (the code of
    PreconditionFailed) and the session, hence the status of the contract, is
    left as it was. *)
Theorem update_status_signed_iff_parties_signed env user contract_id reason s c :
  repo.get_contract contract_id false s = (Return (Some c), s) →
  Contract.owner_user_id c = user_id user →
  Contract.status c = "SIGNING" →
  let payload :=
    {| UpdateContractStatusRequest.status := ContractStatus.SIGNED;
       UpdateContractStatusRequest.reason := reason |} in
  let parties := parties_of (pending s) contract_id in
  let outcome := update_status env user contract_id payload s in
  (outcome.1 = Return () ↔ parties ≠ [] ∧ all_signed parties)
  ∧ (outcome.1 = Return () →
       outcome.2 = after_transition env user contract_id "SIGNING" payload s)
  ∧ (outcome.1 ≠ Return () →
       (∃ message, outcome.1 = Raise (ServiceError 409 message)) ∧ outcome.2 = s).
Proof.
  intros Hget Hown Hst payload parties outcome. subst outcome.
  rewrite (update_status_run _ _ _ _ _ _ Hget Hown). cbv zeta.
  rewrite Hst. cbn [payload UpdateContractStatusRequest.status ContractStatus.value
                    UpdateContractStatusRequest.reason].
  rewrite decide_False by discriminate.
  rewrite decide_True by (cbn; repeat constructor).
  rewrite decide_False by (intros [? _]; discriminate).
  rewrite decide_True by reflexivity.
  fold parties.
  destruct (decide (parties = [])) as [He|He]; [|destruct (decide (all_signed parties)) as [Ha|Ha]];
    cbn; (split_and!; [split| |]); try done; try (by intros [? ?]); eauto.
Qed.

Lemma update_status_signed_iff_parties_signed_witness :
  let payload :=
    {| UpdateContractStatusRequest.status := ContractStatus.SIGNED;
       UpdateContractStatusRequest.reason := None |} in
  let outcome := update_status sample_env alice "c-signing" payload sample_session in
  (outcome.1 = Return ()
   ↔ parties_of (pending sample_session) "c-signing" ≠ []
     ∧ all_signed (parties_of (pending sample_session) "c-signing"))
  ∧ (outcome.1 = Return () →
       outcome.2 = after_transition sample_env alice "c-signing" "SIGNING" payload sample_session)
  ∧ (outcome.1 ≠ Return () →
       (∃ message, outcome.1 = Raise (ServiceError 409 message)) ∧ outcome.2 = sample_session).
Proof.
  apply (update_status_signed_iff_parties_signed sample_env alice "c-signing" None
           sample_session (sample_contract "c-signing" "SIGNING"));
    reflexivity.
Defined.

(** C2: on a contract owned by the requester, [update_status] raises a
    [ServiceError] with status code 400 (InvalidTransition) exactly when the
    target equals the current status, or the target is not among the allowed
    transitions of the current status, or the target is CANCELLED and the
    reason is absent or empty.  The three checks fire in that order, each with
    its own message and with the session untouched, and the allowed
    transitions of the six statuses are the edges the specification lists. *)
Theorem update_status_invalid_transition env user contract_id payload s c :
  repo.get_contract contract_id false s = (Return (Some c), s) →
  Contract.owner_user_id c = user_id user →
  let current_status := Contract.status c in
  let target := UpdateContractStatusRequest.status payload in
  let new_status := ContractStatus.value target in
  let allowed := dict_get ALLOWED_TRANSITIONS current_status [] in
  let no_reason := truthy (UpdateContractStatusRequest.reason payload) = false in
  let outcome := update_status env user contract_id payload s in
  ((∃ message, outcome.1 = Raise (ServiceError 400 message))
   ↔ new_status = current_status
     ∨ new_status ∉ allowed
     ∨ (new_status = "CANCELLED" ∧ no_reason))
  ∧ (new_status = current_status →
       outcome = (Raise (ServiceError 400 "El contrato ya tiene ese estado."), s))
  ∧ (new_status ≠ current_status → new_status ∉ allowed →
       outcome = (Raise (ServiceError 400 "Transición de estado no permitida."), s))
  ∧ (new_status ≠ current_status → new_status ∈ allowed →
     new_status = "CANCELLED" → no_reason →
       outcome = (Raise (ServiceError 400 "El estado CANCELLED requiere reason."), s))
  ∧ (∀ current : ContractStatus.t,
       current_status = ContractStatus.value current →
       (new_status ∈ allowed ↔ target ∈ allowed_edges current)).
Proof.
  intros Hget Hown current_status target new_status allowed no_reason outcome.
  subst outcome. rewrite (update_status_run _ _ _ _ _ _ Hget Hown). cbv zeta.
  fold current_status target new_status allowed no_reason.
  split_and!.
  - destruct (decide (new_status = current_status)) as [Heq|Hne]; cbn [fst].
    { split; eauto. }
    destruct (decide (new_status ∈ allowed)) as [Hin|Hnin]; cbn [fst].
    2:{ split; eauto. }
    destruct (decide (new_status = "CANCELLED" ∧ no_reason)) as [Hc|Hc]; cbn [fst].
    { split; eauto. }
    assert (¬ (new_status = current_status ∨ new_status ∉ allowed
               ∨ new_status = "CANCELLED" ∧ no_reason)) as Hnone by tauto.
    split; [|tauto]. intros [message Hm]. exfalso. clear Hnone.
    repeat (case_decide; cbn [fst] in Hm); discriminate.
  - intros Heq. by rewrite decide_True.
  - intros Hne Hnin. by rewrite decide_False, decide_False.
  - intros Hne Hin Hc Hr. by rewrite decide_False, decide_True, decide_True.
  - intros current Hcur. subst allowed new_status. rewrite Hcur.
    apply allowed_transitions_edges.
Qed.

Lemma update_status_invalid_transition_witness :
  let payload :=
    {| UpdateContractStatusRequest.status := ContractStatus.CANCELLED;
       UpdateContractStatusRequest.reason := Some "" |} in
  update_status sample_env alice "c-draft" payload sample_session
    = (Raise (ServiceError 400 "El estado CANCELLED requiere reason."), sample_session).
Proof.
  pose proof (update_status_invalid_transition sample_env alice "c-draft"
    {| UpdateContractStatusRequest.status := ContractStatus.CANCELLED;
       UpdateContractStatusRequest.reason := Some "" |}
    sample_session (sample_contract "c-draft" "DRAFT") eq_refl eq_refl)
    as (_ & _ & _ & Hreason & _).
  apply Hreason; [discriminate| |reflexivity|reflexivity].
  apply (bool_decide_unpack _). vm_compute. exact I.
Defined.

(** An UPDATE that keeps the columns a WHERE clause reads commutes with it. *)
Lemma filter_fmap_stable {A} (P : A → Prop) `{!∀ x, Decision (P x)} (f : A → A)
    (l : list A) :
  (∀ x, P (f x) ↔ P x) → filter P (f <$> l) = f <$> filter P l.
Proof.
  intros HP. induction l as [|x l IH]; [done|].
  rewrite fmap_cons, !filter_cons. destruct (decide (P x)) as [Hx|Hx].
  - rewrite decide_True by (by apply HP). by rewrite fmap_cons, IH.
  - rewrite decide_False by (by rewrite HP). done.
Qed.

(** The contract found before an UPDATE that keeps [id] and [deleted_at] is
    found, updated, after it. *)
Lemma get_contract_after_update contract_id (g : Contract.t → Contract.t) s s' c :
  (∀ x, Contract.id (g x) = Contract.id x) →
  (∀ x, Contract.deleted_at (g x) = Contract.deleted_at x) →
  contracts (pending s') =
    (λ x, if decide (Contract.id x = contract_id) then g x else x) <$> contracts (pending s) →
  repo.get_contract contract_id false s = (Return (Some c), s) →
  repo.get_contract contract_id false s' = (Return (Some (g c)), s').
Proof.
  intros Hid Hdel Hs' Hget. apply get_contract_live in Hget.
  unfold repo.get_contract. rewrite bind_run. cbn. rewrite Hs'.
  rewrite !filter_fmap_stable, Hget.
  - cbn. rewrite decide_True; [done|].
    assert (c ∈ [c]) as Hc by constructor. rewrite <- Hget in Hc.
    by apply list_elem_of_filter in Hc as [_ [? _]%list_elem_of_filter].
  - intros x. cbn beta. case_decide; [by rewrite Hdel|done].
  - intros x. cbn beta. case_decide; [by rewrite Hid|done].
Qed.

Lemma status_action_audit (target : ContractStatus.t) :
  dict_get STATUS_ACTION (ContractStatus.value target) ActivityAction.UPDATED
  = audit_action target.
Proof. by destruct target. Qed.

(** C3: when [update_status] on a contract owned by the requester succeeds,
    the contract is found afterwards with the target as status, with
    [signed_at] equal to the current time when the target is SIGNED and null
    for every other target, and with its other columns unchanged; the write
    is committed; exactly one audit row is appended, whose action follows the
    fixed mapping of the specification and whose details hold the previous
    status, the new status and the reason supplied: the very string of the
    request when one is given, JSON null when none is; versions and parties
    are untouched. *)
Theorem update_status_success env user contract_id payload s s' c :
  repo.get_contract contract_id false s = (Return (Some c), s) →
  Contract.owner_user_id c = user_id user →
  update_status env user contract_id payload s = (Return (), s') →
  let target := UpdateContractStatusRequest.status payload in
  repo.get_contract contract_id false s'
    = (Return (Some (transitioned (utcnow env) (ContractStatus.value target) c)), s')
  ∧ Contract.status (transitioned (utcnow env) (ContractStatus.value target) c)
    = ContractStatus.value target
  ∧ Contract.signed_at (transitioned (utcnow env) (ContractStatus.value target) c)
    = (if decide (target = ContractStatus.SIGNED) then Some (utcnow env) else None)
  ∧ committed s' = pending s'
  ∧ (∃ entry,
       activity_logs (pending s') = activity_logs (pending s) ++ [entry]
       ∧ ActivityLog.contract_id entry = contract_id
       ∧ ActivityLog.action entry = ActivityAction.value (audit_action target)
       ∧ ActivityLog.user_id entry = user_id user
       ∧ ActivityLog.details entry =
           [("previousStatus", JStr (Contract.status c));
            ("newStatus", JStr (ContractStatus.value target));
            ("reason",
             match UpdateContractStatusRequest.reason payload with
             | Some reason => JStr reason
             | None => JNull
             end)])
  ∧ contract_versions (pending s') = contract_versions (pending s)
  ∧ contract_parties (pending s') = contract_parties (pending s).
Proof.
  intros Hget Hown Hrun target.
  assert (s' = after_transition env user contract_id (Contract.status c) payload s) as ->.
  { rewrite (update_status_run _ _ _ _ _ _ Hget Hown) in Hrun. cbv zeta in Hrun.
    repeat case_decide; by inversion Hrun. }
  split_and!; try reflexivity.
  - eapply (get_contract_after_update _ (transitioned _ _)); [done|done| |exact Hget].
    reflexivity.
  - cbn. by destruct target.
  - eexists. split; [reflexivity|]. split_and!; try reflexivity.
    cbn [status_entry ActivityLog.action]. fold target.
    by rewrite status_action_audit.
Qed.

Lemma update_status_success_witness :
  let payload :=
    {| UpdateContractStatusRequest.status := ContractStatus.SIGNED;
       UpdateContractStatusRequest.reason := Some "all parties signed" |} in
  let s' := after_transition sample_env alice "c-signing" "SIGNING" payload sample_session in
  repo.get_contract "c-signing" false s'
    = (Return (Some (transitioned 2000 "SIGNED" (sample_contract "c-signing" "SIGNING"))), s')
  ∧ ∃ entry,
      activity_logs (pending s') = [entry]
      ∧ ActivityLog.action entry = "SIGNED"
      ∧ ActivityLog.details entry =
          [("previousStatus", JStr "SIGNING");
           ("newStatus", JStr "SIGNED");
           ("reason", JStr "all parties signed")].
Proof.
  destruct (update_status_success sample_env alice "c-signing"
    {| UpdateContractStatusRequest.status := ContractStatus.SIGNED;
       UpdateContractStatusRequest.reason := Some "all parties signed" |}
    sample_session
    (after_transition sample_env alice "c-signing" "SIGNING"
       {| UpdateContractStatusRequest.status := ContractStatus.SIGNED;
          UpdateContractStatusRequest.reason := Some "all parties signed" |}
       sample_session)
    (sample_contract "c-signing" "SIGNING") eq_refl eq_refl eq_refl)
    as (Hfound & _ & _ & _ & (entry & Hlogs & _ & Haction & _ & Hdetails) & _).
  split; [exact Hfound|]. exists entry.
  split; [exact Hlogs|]. split; [exact Haction|exact Hdetails].
Defined.

(** ** The versioning engine *)

Lemma get_latest_version_run contract_id s :
  repo.get_latest_version contract_id s
  = (Return (latest_version_of (pending s) contract_id), s).
Proof.
  unfold repo.get_latest_version, latest_version_of. rewrite bind_run. cbn.
  fold (versions_of (pending s) contract_id).
  by destruct (order_by _ _) as [|v [|w rest]].
Qed.

(** The selected row belongs to the contract and no row of the contract has
    a greater version number; no row is selected only when there is none. *)
Lemma latest_version_of_max db contract_id :
  match latest_version_of db contract_id with
  | None => versions_of db contract_id = []
  | Some v =>
    v ∈ versions_of db contract_id
    ∧ ∀ w, w ∈ versions_of db contract_id →
        ContractVersion.version w ≤ ContractVersion.version v
  end.
Proof.
  unfold latest_version_of.
  destruct (head _) as [v|] eqn:Hhead.
  - apply order_by_head in Hhead as [Hin Hleast]. split; [done|].
    intros w Hw. specialize (Hleast w Hw). unfold desc in Hleast. lia.
  - apply head_None in Hhead. by apply order_by_nil_iff in Hhead.
Qed.

Lemma foldl_max_spec (x : Z) (l : list Z) :
  foldl Z.max x l ∈ x :: l ∧ Forall (λ y, y ≤ foldl Z.max x l) (x :: l).
Proof.
  revert x. induction l as [|y l IH]; intros x; cbn.
  - split; [constructor|]. by repeat constructor.
  - destruct (IH (x `max` y)) as [Hin Hall]. split.
    + apply elem_of_cons in Hin as [->|Hin].
      * destruct (Z.max_spec x y) as [[_ ->]|[_ ->]]; [right|]; constructor.
      * by do 2 right.
    + apply Forall_cons in Hall as [Hmax Hall].
      repeat constructor; [lia|lia|done].
Qed.

(** [max(version)] over the rows 1..m is m, and NULL (coalesced to 0) when
    there are none. *)
Lemma max_of_seqZ (m : nat) :
  func_coalesce (func_max (seqZ 1 (Z.of_nat m))) 0 = Z.of_nat m.
Proof.
  destruct (seqZ 1 (Z.of_nat m)) as [|x l] eqn:Hseq; cbn.
  - apply (f_equal length) in Hseq. rewrite length_seqZ in Hseq. cbn in Hseq. lia.
  - destruct (foldl_max_spec x l) as [Hin Hall]. rewrite <- Hseq in Hin, Hall.
    apply elem_of_seqZ in Hin. rewrite Forall_forall in Hall.
    assert (Z.of_nat m ∈ seqZ 1 (Z.of_nat m)) as Hm.
    { apply elem_of_seqZ. lia. }
    specialize (Hall _ Hm). lia.
Qed.

Lemma get_next_version_number_run contract_id s :
  repo.get_next_version_number contract_id s
  = (Return
       (func_coalesce
          (func_max (ContractVersion.version <$> versions_of (pending s) contract_id)) 0 + 1),
     s).
Proof. reflexivity. Qed.

(** The version row and the audit row written by [update_content]. *)
Lemma update_content_run env user contract_id payload s c :
  repo.get_contract contract_id false s = (Return (Some c), s) →
  Contract.owner_user_id c = user_id user →
  ∃ row entry,
    update_content env user contract_id payload s =
      (Return (),
       let db := {|
         contracts := contracts (pending s);
         contract_versions := contract_versions (pending s) ++ [row];
         contract_parties := contract_parties (pending s);
         activity_logs := activity_logs (pending s) ++ [entry] |} in
       {| committed := db; pending := db; drawn := S (S (drawn s)) |})
    ∧ ContractVersion.contract_id row = contract_id
    ∧ ContractVersion.version row =
        func_coalesce
          (func_max (ContractVersion.version <$> versions_of (pending s) contract_id)) 0 + 1
    ∧ ContractVersion.content row = UpdateContractContentRequest.content payload.
Proof.
  intros Hget Hown. unfold update_content.
  enter_owned Hget Hown.
  rewrite bind_run, get_next_version_number_run.
  eexists _, _. split; [reflexivity|]. by split_and!.
Qed.

Lemma get_contract_ext contract_id include_deleted s1 s2 found :
  contracts (pending s1) = contracts (pending s2) →
  repo.get_contract contract_id include_deleted s1 = (Return found, s1) →
  repo.get_contract contract_id include_deleted s2 = (Return found, s2).
Proof.
  unfold repo.get_contract. rewrite !bind_run. cbn. intros ->.
  destruct (if include_deleted then _ else _) as [|x [|y rows]]; cbn;
    intros H; by inversion H.
Qed.

(** One [update_content] request after another on a contract whose versions
    are numbered 1..m. *)
Lemma serve_update_content env user contract_id c payloads : ∀ srv (m : nat),
  repo.get_contract contract_id false (open_session srv)
    = (Return (Some c), open_session srv) →
  Contract.owner_user_id c = user_id user →
  ContractVersion.version <$> versions_of (database srv) contract_id
    = seqZ 1 (Z.of_nat m) →
  let outcome := serve (update_content env user contract_id <$> payloads) srv in
  let versions := versions_of (database outcome.2) contract_id in
  outcome.1 = replicate (length payloads) (Return ())
  ∧ ContractVersion.version <$> versions = seqZ 1 (Z.of_nat (m + length payloads))
  ∧ ContractVersion.content <$> versions =
      (ContractVersion.content <$> versions_of (database srv) contract_id)
      ++ (UpdateContractContentRequest.content <$> payloads).
Proof.
  induction payloads as [|payload payloads IH]; intros srv m Hget Hown Hnum.
  - cbn. rewrite Nat.add_0_r, app_nil_r. done.
  - destruct (update_content_run env user contract_id payload _ c Hget Hown)
      as (row & entry & Hrun & Hcid & Hver & Hcontent).
    rewrite fmap_cons. cbn [serve]. unfold request. rewrite Hrun. cbv zeta.
    set (srv1 := close_session _).
    assert (versions_of (database srv1) contract_id
            = versions_of (database srv) contract_id ++ [row]) as Hversions.
    { unfold versions_of. cbn. rewrite filter_app. f_equal.
      by rewrite filter_cons_True. }
    specialize (IH srv1 (S m)). cbv zeta in IH.
    destruct (serve _ srv1) as [results srv2]. cbn [fst snd] in *.
    destruct IH as (Hresults & Hnumbers & Hcontents).
    + eapply get_contract_ext; [|exact Hget]. reflexivity.
    + exact Hown.
    + rewrite Hversions, fmap_app, Hnum, seqZ_S. cbn. f_equal. f_equal.
      rewrite Hver. change (pending (open_session srv)) with (database srv).
      rewrite Hnum, max_of_seqZ. lia.
    + split_and!.
      * by rewrite Hresults.
      * rewrite Hnumbers. f_equal. cbn [length]. lia.
      * rewrite Hcontents, Hversions, fmap_app, <- app_assoc. cbn. by rewrite Hcontent.
Qed.

(** C4: [update_content] requests served one at a time on a contract owned
    by the requester, whose versions so far are numbered 1..m (m = 0 for a
    contract without versions), all succeed and leave the contract with the
    version numbers 1, 2, ..., m + n in insertion order, the new rows holding
    the submitted contents in order; each number is the greatest existing
    version number, or 0, plus 1.  The row [get_latest_version] returns is a
    row of the contract with the greatest version number, its content is the
    current content, and the current content is the empty string exactly
    when no row is returned, which happens only when the contract has no
    version. *)
Theorem update_content_version_numbers env user contract_id c payloads srv (m : nat) :
  repo.get_contract contract_id false (open_session srv)
    = (Return (Some c), open_session srv) →
  Contract.owner_user_id c = user_id user →
  ContractVersion.version <$> versions_of (database srv) contract_id
    = seqZ 1 (Z.of_nat m) →
  let outcome := serve (update_content env user contract_id <$> payloads) srv in
  let versions := versions_of (database outcome.2) contract_id in
  outcome.1 = replicate (length payloads) (Return ())
  ∧ ContractVersion.version <$> versions = seqZ 1 (Z.of_nat (m + length payloads))
  ∧ ContractVersion.content <$> versions =
      (ContractVersion.content <$> versions_of (database srv) contract_id)
      ++ (UpdateContractContentRequest.content <$> payloads)
  ∧ (∀ s, repo.get_next_version_number contract_id s =
          (Return
             (func_coalesce
                (func_max (ContractVersion.version <$> versions_of (pending s) contract_id))
                0 + 1), s))
  ∧ (∃ latest,
       repo.get_latest_version contract_id (open_session outcome.2)
         = (Return latest, open_session outcome.2)
       ∧ match latest with
         | None =>
           versions = [] ∧ current_content (database outcome.2) contract_id = ""
         | Some v =>
           v ∈ versions
           ∧ (∀ w, w ∈ versions → ContractVersion.version w ≤ ContractVersion.version v)
           ∧ current_content (database outcome.2) contract_id = ContractVersion.content v
         end).
Proof.
  intros Hget Hown Hnum outcome versions.
  destruct (serve_update_content env user contract_id c payloads srv m Hget Hown Hnum)
    as (Hresults & Hnumbers & Hcontents).
  split_and!; try done.
  exists (latest_version_of (database outcome.2) contract_id).
  split; [apply get_latest_version_run|].
  pose proof (latest_version_of_max (database outcome.2) contract_id) as Hmax.
  unfold current_content.
  destruct (latest_version_of _ _) as [v|]; [|done].
  destruct Hmax. done.
Qed.

Lemma update_content_version_numbers_witness :
  let payloads :=
    [ {| UpdateContractContentRequest.content := "<p>draft</p>";
         UpdateContractContentRequest.source := Source.AI |};
      {| UpdateContractContentRequest.content := "<p>final</p>";
         UpdateContractContentRequest.source := Source.USER |} ] in
  let outcome := serve (update_content sample_env alice "c-empty" <$> payloads) sample_server in
  outcome.1 = [Return (); Return ()]
  ∧ ContractVersion.version <$> versions_of (database outcome.2) "c-empty" = [1; 2]
  ∧ ContractVersion.content <$> versions_of (database outcome.2) "c-empty"
    = ["<p>draft</p>"; "<p>final</p>"].
Proof.
  destruct (update_content_version_numbers sample_env alice "c-empty"
    (sample_contract "c-empty" "DRAFT")
    [ {| UpdateContractContentRequest.content := "<p>draft</p>";
         UpdateContractContentRequest.source := Source.AI |};
      {| UpdateContractContentRequest.content := "<p>final</p>";
         UpdateContractContentRequest.source := Source.USER |} ]
    sample_server 0%nat eq_refl eq_refl eq_refl)
    as (Hresults & Hnumbers & Hcontents & _).
  split_and!; [exact Hresults|exact Hnumbers|exact Hcontents].
Defined.

(** C5, as stated, fails: [add_version] holds no check against the existing
    version numbers.  The sample draft already has version 1; appending
    number 1 again is accepted and leaves two rows numbered 1. *)
Lemma add_version_accepts_duplicate_number :
  let outcome :=
    repo.add_version sample_env "c-draft" 1 "<p>again</p>" "USER" "alice" sample_session in
  ¬ (∀ w, w ∈ versions_of (pending sample_session) "c-draft" → ContractVersion.version w < 1)
  ∧ (∀ message, outcome.1 ≠ Raise (ServiceError 409 message))
  ∧ ContractVersion.version <$> versions_of (pending outcome.2) "c-draft" = [1; 1].
Proof.
  cbv zeta. split_and!.
  - intros H. specialize (H (sample_version "v-1" "c-draft" 1 "<p>first</p>")).
    assert (sample_version "v-1" "c-draft" 1 "<p>first</p>"
            ∈ versions_of (pending sample_session) "c-draft") as Hin by (vm_compute; constructor).
    specialize (H Hin). cbn in H. lia.
  - intros message. vm_compute. discriminate.
  - reflexivity.
Qed.

(** C5 (amended): [add_version] makes no comparison with the existing
    version numbers of the contract and, whatever the number, never fails
    with Conflict (409).  For a contract that exists and a number that fits
    the 32-bit column it succeeds, whatever the existing numbers: it returns
    the new row, which carries the given contract id, number, content,
    source and author, and appends exactly that row to the versions table of
    the open transaction; nothing else changes and nothing is committed. *)
Theorem add_version_inserts env contract_id version content source created_by s :
  (∀ message,
     (repo.add_version env contract_id version content source created_by s).1
     ≠ Raise (ServiceError 409 message))
  ∧ (int32 version →
     filter (λ c, Contract.id c = contract_id) (contracts (pending s)) ≠ [] →
     ∃ row,
       repo.add_version env contract_id version content source created_by s =
         (Return row,
          {| committed := committed s;
             pending := {|
               contracts := contracts (pending s);
               contract_versions := contract_versions (pending s) ++ [row];
               contract_parties := contract_parties (pending s);
               activity_logs := activity_logs (pending s) |};
             drawn := S (drawn s) |})
       ∧ ContractVersion.contract_id row = contract_id
       ∧ ContractVersion.version row = version
       ∧ ContractVersion.content row = content
       ∧ ContractVersion.source row = source
       ∧ ContractVersion.created_by row = created_by).
Proof.
  split; [done|]. intros _ _.
  exists {|
    ContractVersion.id := gen_random_uuid env (drawn s);
    ContractVersion.contract_id := contract_id;
    ContractVersion.version := version;
    ContractVersion.content := content;
    ContractVersion.source := source;
    ContractVersion.created_by := created_by;
    ContractVersion.created_at := now env |}.
  by split_and!.
Qed.

Lemma add_version_inserts_witness :
  ∃ row,
    (repo.add_version canonical_env draft_id 1 "<p>again</p>" "USER" "alice"
       canonical_session).1 = Return row
    ∧ ContractVersion.version row = 1
    ∧ ContractVersion.version <$> versions_of canonical_db draft_id = [1].
Proof.
  destruct (proj2 (add_version_inserts canonical_env draft_id 1 "<p>again</p>" "USER"
                     "alice" canonical_session))
    as (row & Hrun & _ & Hversion & _).
  - unfold int32. lia.
  - vm_compute. discriminate.
  - exists row. rewrite Hrun. split; [reflexivity|]. split; [exact Hversion|reflexivity].
Defined.

(** ** Duplication *)

Lemma session_eta s :
  {| committed := committed s;
     pending := {|
       contracts := contracts (pending s);
       contract_versions := contract_versions (pending s);
       contract_parties := contract_parties (pending s);
       activity_logs := activity_logs (pending s) |};
     drawn := drawn s |} = s.
Proof. by destruct s as [? [] ?]. Qed.

Lemma add_party_run env contract_id role name email signing_order s :
  repo.add_party env contract_id role name email signing_order s =
  let party := {|
    ContractParty.id := gen_random_uuid env (drawn s);
    ContractParty.contract_id := contract_id;
    ContractParty.role := role;
    ContractParty.name := name;
    ContractParty.email := email;
    ContractParty.signature_status := "PENDING";
    ContractParty.signed_at := None;
    ContractParty.signing_order := signing_order;
    ContractParty.created_at := now env |} in
  (Return party,
   {| committed := committed s;
      pending := {|
        contracts := contracts (pending s);
        contract_versions := contract_versions (pending s);
        contract_parties := contract_parties (pending s) ++ [party];
        activity_logs := activity_logs (pending s) |};
      drawn := S (drawn s) |}).
Proof. reflexivity. Qed.

(** The loop of [duplicate_contract] over the parties of the source. *)
Lemma copy_parties_run env new_id parties : ∀ s,
  ∃ copies,
    for_each parties (λ party,
      repo.add_party env new_id
        (ContractParty.role party) (ContractParty.name party)
        (ContractParty.email party) (ContractParty.signing_order party)) s =
      (Return (),
       {| committed := committed s;
          pending := {|
            contracts := contracts (pending s);
            contract_versions := contract_versions (pending s);
            contract_parties := contract_parties (pending s) ++ copies;
            activity_logs := activity_logs (pending s) |};
          drawn := (length parties + drawn s)%nat |})
    ∧ Forall2 (is_copy new_id) parties copies.
Proof.
  induction parties as [|p parties IH]; intros s.
  - exists []. split; [|constructor]. cbn. by rewrite app_nil_r, session_eta.
  - cbn [for_each]. rewrite bind_run, add_party_run. cbv beta iota zeta.
    match goal with |- context [for_each parties _ ?s1] =>
      destruct (IH s1) as (copies & -> & Hcopies) end.
    eexists (_ :: copies). split.
    + cbn. rewrite <- app_assoc. cbn. do 3 f_equal. lia.
    + constructor; [|done]. by repeat split.
Qed.

Lemma sorted_by_key {A} (key : A → Z) (l : list A) :
  StronglySorted (λ a b, key a ≤ key b) l ↔ StronglySorted Z.le (key <$> l).
Proof.
  induction l as [|x l IH]; cbn.
  - split; constructor.
  - split; intros [Hl Hx]%StronglySorted_inv; (constructor; [by apply IH|]).
    + rewrite Forall_fmap. exact Hx.
    + rewrite Forall_fmap in Hx. exact Hx.
Qed.

(** The copies come back from [list_parties] in the order of the source. *)
Lemma copies_listed new_id (parties copies : list ContractParty.t) :
  Forall2 (is_copy new_id) parties copies →
  StronglySorted (λ a b, ContractParty.signing_order a ≤ ContractParty.signing_order b) parties →
  filter (λ p, ContractParty.contract_id p = new_id) copies = copies
  ∧ order_by ContractParty.signing_order copies = copies.
Proof.
  intros Hcopies Hsorted. split.
  - clear Hsorted. induction Hcopies as [|p q ps qs Hpq _ IH]; [done|].
    rewrite filter_cons_True by exact (proj1 Hpq). by rewrite IH.
  - apply order_by_sorted_id, sorted_by_key.
    apply sorted_by_key in Hsorted.
    replace (ContractParty.signing_order <$> copies)
      with (ContractParty.signing_order <$> parties); [done|].
    clear Hsorted. induction Hcopies as [|p q ps qs Hpq _ IH]; [done|].
    cbn. f_equal; [|done]. by destruct Hpq as (_ & _ & _ & _ & -> & _).
Qed.

Lemma create_contract_run env title contract_type template_id owner_user_id metadata s :
  repo.create_contract env title contract_type template_id owner_user_id metadata s =
  let contract := {|
    Contract.id := gen_random_uuid env (drawn s);
    Contract.title := title;
    Contract.contract_type := contract_type;
    Contract.template_id := template_id;
    Contract.owner_user_id := owner_user_id;
    Contract.status := "DRAFT";
    Contract.metadata := metadata;
    Contract.created_at := now env;
    Contract.updated_at := now env;
    Contract.signed_at := None;
    Contract.deleted_at := None |} in
  (Return contract,
   {| committed := committed s;
      pending := {|
        contracts := contracts (pending s) ++ [contract];
        contract_versions := contract_versions (pending s);
        contract_parties := contract_parties (pending s);
        activity_logs := activity_logs (pending s) |};
      drawn := S (drawn s) |}).
Proof. reflexivity. Qed.

Lemma or_empty_dict (metadata : dict) :
  match metadata with [] => [] | p :: l => p :: l end = metadata.
Proof. by destruct metadata. Qed.

(** [duplicate_contract] on an owned contract: the result and the session
    it leaves. *)
Lemma duplicate_contract_run env user contract_id s c :
  repo.get_contract contract_id false s = (Return (Some c), s) →
  Contract.owner_user_id c = user_id user →
  let new_id := gen_random_uuid env (drawn s) in
  let copy := duplicate_of env user new_id c in
  let version_rows :=
    duplicate_versions env user new_id (latest_version_of (pending s) contract_id)
      (S (drawn s)) in
  let parties := order_by ContractParty.signing_order (parties_of (pending s) contract_id) in
  ∃ out copies entry,
    Forall2 (is_copy new_id) parties copies
    ∧ ContractOut.id out = new_id
    ∧ ContractOut.status out = ContractStatus.DRAFT
    ∧ duplicate_contract env user contract_id s =
        (Return out,
         let db := {|
           contracts := contracts (pending s) ++ [copy];
           contract_versions := contract_versions (pending s) ++ version_rows;
           contract_parties := contract_parties (pending s) ++ copies;
           activity_logs := activity_logs (pending s) ++ [entry] |} in
         {| committed := db; pending := db;
            drawn := S (length parties + (length version_rows + S (drawn s))) |}).
Proof.
  intros Hget Hown new_id copy version_rows parties.
  unfold duplicate_contract.
  enter_owned Hget Hown.
  rewrite bind_run, or_empty_dict, create_contract_run. cbv beta iota zeta.
  fold new_id. fold (duplicate_of env user new_id c). fold copy.
  rewrite bind_run, get_latest_version_run. cbv beta iota.
  cbn [pending contract_versions].
  change (latest_version_of _ contract_id) with (latest_version_of (pending s) contract_id).
  match goal with |- context [(?m ≫= ?k) ?s1] =>
    assert (m s1 =
      (Return (),
       {| committed := committed s;
          pending := {|
            contracts := contracts (pending s) ++ [copy];
            contract_versions := contract_versions (pending s) ++ version_rows;
            contract_parties := contract_parties (pending s);
            activity_logs := activity_logs (pending s) |};
          drawn := (length version_rows + S (drawn s))%nat |})) as Hversion
  end.
  { subst version_rows. destruct (latest_version_of _ _) as [v|]; [reflexivity|].
    cbn. by rewrite app_nil_r. }
  rewrite (bind_Return _ _ _ _ _ Hversion). clear Hversion.
  rewrite bind_run, list_parties_run. cbv beta iota.
  change (parties_of _ contract_id) with (parties_of (pending s) contract_id).
  fold parties.
  match goal with |- context [(for_each _ _ ≫= _) ?s2] =>
    destruct (copy_parties_run env new_id parties s2) as (copies & Hloop & Hcopies)
  end.
  rewrite (bind_Return _ _ _ _ _ Hloop). clear Hloop.
  cbn [committed pending drawn contracts contract_versions contract_parties activity_logs].
  eexists _, copies, _. split_and!; [exact Hcopies| | |reflexivity]; reflexivity.
Qed.

(** C6, as stated, fails when the source has no version: the guard on
    [latest_version] skips [add_version], so the duplicate of the empty sample
    draft has no version row at all instead of one row numbered 1. *)
Lemma duplicate_without_version_has_no_version :
  let outcome := duplicate_contract sample_env alice "c-empty" sample_session in
  repo.get_contract "c-empty" false sample_session
    = (Return (Some (sample_contract "c-empty" "DRAFT")), sample_session)
  ∧ Contract.owner_user_id (sample_contract "c-empty" "DRAFT") = user_id alice
  ∧ ∃ out,
      outcome.1 = Return out
      ∧ ContractOut.id out = "uuid-0"
      ∧ repo.get_contract "uuid-0" false outcome.2
        = (Return (Some (duplicate_of sample_env alice "uuid-0"
                           (sample_contract "c-empty" "DRAFT"))), outcome.2)
      ∧ versions_of (pending outcome.2) "uuid-0" = [].
Proof.
  cbv zeta. split_and!; try reflexivity.
  eexists. split_and!; reflexivity.
Qed.

(** C6 (amended): for a contract [c] owned by the requester, whatever its
    status, and a fresh identifier, [duplicate_contract] succeeds, commits,
    and creates one contract row with status DRAFT whose title, type,
    template and metadata are those of [c] and whose owner is the requester.
    The new contract has exactly one version, numbered 1 and holding the
    current content of [c], when [c] has a version, and no version when [c]
    has none; in both cases its current content is that of [c].  Its parties,
    as [list_parties] returns them, are copies of the parties of [c] in
    signing order: same role, name, email and signing order, signature status
    PENDING. *)
Theorem duplicate_contract_copies env user contract_id s c :
  repo.get_contract contract_id false s = (Return (Some c), s) →
  Contract.owner_user_id c = user_id user →
  let new_id := gen_random_uuid env (drawn s) in
  unused_uuid (pending s) new_id →
  let copy := duplicate_of env user new_id c in
  ∃ out s',
    duplicate_contract env user contract_id s = (Return out, s')
    ∧ committed s' = pending s'
    ∧ contracts (pending s') = contracts (pending s) ++ [copy]
    ∧ repo.get_contract new_id false s' = (Return (Some copy), s')
    ∧ ContractOut.id out = new_id
    ∧ ContractOut.status out = ContractStatus.DRAFT
    ∧ Contract.status copy = "DRAFT"
    ∧ Contract.title copy = Contract.title c
    ∧ Contract.contract_type copy = Contract.contract_type c
    ∧ Contract.template_id copy = Contract.template_id c
    ∧ Contract.metadata copy = Contract.metadata c
    ∧ (λ v, (ContractVersion.version v, ContractVersion.content v))
        <$> versions_of (pending s') new_id
      = match latest_version_of (pending s) contract_id with
        | Some v => [(1, ContractVersion.content v)]
        | None => []
        end
    ∧ current_content (pending s') new_id = current_content (pending s) contract_id
    ∧ ∃ copies,
        repo.list_parties new_id s' = (Return copies, s')
        ∧ Forall2 (is_copy new_id)
            (order_by ContractParty.signing_order (parties_of (pending s) contract_id))
            copies.
Proof.
  intros Hget Hown new_id (Hc & Hv & Hp) copy.
  destruct (duplicate_contract_run env user contract_id s c Hget Hown)
    as (out & copies & entry & Hcopies & Hid & Hstatus & Hrun).
  cbv zeta in Hrun. fold new_id in Hrun, Hcopies, Hid. fold copy in Hrun.
  set (version_rows := duplicate_versions _ _ _ _ _) in Hrun.
  set (parties := order_by _ _) in *.
  eexists out, _. split; [exact Hrun|].
  cbn [committed pending drawn contracts contract_versions contract_parties activity_logs].
  assert (filter (λ v, ContractVersion.contract_id v = new_id)
            (contract_versions (pending s) ++ version_rows) = version_rows) as Hrows.
  { rewrite filter_app. fold (versions_of (pending s) new_id). rewrite Hv. cbn [app].
    subst version_rows. unfold duplicate_versions.
    destruct (latest_version_of _ _); [|done]. by rewrite filter_cons_True. }
  split_and!; try done.
  - unfold repo.get_contract. rewrite bind_run. cbn.
    rewrite filter_app, Hc. cbn [app].
    rewrite filter_cons_True by reflexivity. by rewrite filter_cons_True.
  - unfold versions_of. cbn [contract_versions]. rewrite Hrows.
    subst version_rows. unfold duplicate_versions. by destruct (latest_version_of _ _).
  - unfold current_content at 1. unfold latest_version_of at 1.
    unfold versions_of. cbn [contract_versions]. rewrite Hrows.
    unfold current_content. subst version_rows. unfold duplicate_versions.
    by destruct (latest_version_of _ _).
  - exists copies. split; [|done]. rewrite list_parties_run. do 2 f_equal.
    unfold parties_of. cbn [pending contract_parties]. rewrite filter_app.
    fold (parties_of (pending s) new_id). rewrite Hp. cbn [app].
    destruct (copies_listed new_id parties copies Hcopies) as [-> ->]; [|done].
    apply order_by_sorted.
Qed.

Lemma duplicate_contract_copies_witness :
  ∃ out s' copies,
    duplicate_contract sample_env alice "c-draft" sample_session = (Return out, s')
    ∧ ContractOut.status out = ContractStatus.DRAFT
    ∧ (λ v, (ContractVersion.version v, ContractVersion.content v))
        <$> versions_of (pending s') "uuid-0" = [(1, "<p>first</p>")]
    ∧ repo.list_parties "uuid-0" s' = (Return copies, s')
    ∧ Forall2 (is_copy "uuid-0") [sample_party "p-1" "c-draft" "SIGNED" 1] copies.
Proof.
  destruct (duplicate_contract_copies sample_env alice "c-draft" sample_session
    (sample_contract "c-draft" "DRAFT") eq_refl eq_refl
    (conj eq_refl (conj eq_refl eq_refl)))
    as (out & s' & Hrun & _ & _ & _ & _ & Hstatus & _ & _ & _ & _ & _
        & Hversions & _ & copies & Hlist & Hcopies).
  exists out, s', copies. split_and!; [exact Hrun|exact Hstatus|exact Hversions|exact Hlist|exact Hcopies].
Defined.

(** ** Version numbering as an invariant *)

(** The precondition of C4 is an invariant of the two use cases that write
    version rows: it holds of the empty database and is kept by
    [update_content] and by [duplicate_contract]. *)
Lemma versions_numbered_empty :
  versions_numbered
    {| contracts := []; contract_versions := []; contract_parties := [];
       activity_logs := [] |}.
Proof. intros contract_id. by exists 0%nat. Qed.

Lemma update_content_numbered env user contract_id payload s c :
  repo.get_contract contract_id false s = (Return (Some c), s) →
  Contract.owner_user_id c = user_id user →
  versions_numbered (pending s) →
  versions_numbered (pending (update_content env user contract_id payload s).2).
Proof.
  intros Hget Hown Hnum other.
  destruct (update_content_run env user contract_id payload s c Hget Hown)
    as (row & entry & -> & Hcid & Hver & _).
  destruct (Hnum other) as [m Hm]. cbn [snd pending].
  unfold versions_of in *. cbn [contract_versions]. rewrite filter_app, fmap_app, Hm.
  destruct (decide (other = contract_id)) as [->|Hne].
  - exists (S m). rewrite filter_cons_True by done. rewrite seqZ_S. cbn.
    do 2 f_equal. rewrite Hver. unfold versions_of. rewrite Hm, max_of_seqZ. lia.
  - exists m. rewrite filter_cons_False by congruence. by rewrite app_nil_r.
Qed.

Lemma duplicate_contract_numbered env user contract_id s c :
  repo.get_contract contract_id false s = (Return (Some c), s) →
  Contract.owner_user_id c = user_id user →
  unused_uuid (pending s) (gen_random_uuid env (drawn s)) →
  versions_numbered (pending s) →
  versions_numbered (pending (duplicate_contract env user contract_id s).2).
Proof.
  intros Hget Hown (_ & Hunused & _) Hnum other.
  destruct (duplicate_contract_run env user contract_id s c Hget Hown)
    as (out & copies & entry & _ & _ & _ & ->).
  cbn [snd pending]. unfold versions_of at 1. cbn [contract_versions].
  rewrite filter_app, fmap_app. fold (versions_of (pending s) other).
  unfold duplicate_versions.
  destruct (decide (other = gen_random_uuid env (drawn s))) as [->|Hne].
  - rewrite Hunused. cbn [fmap list_fmap app].
    destruct (latest_version_of _ _).
    + exists 1%nat. by rewrite filter_cons_True.
    + by exists 0%nat.
  - destruct (Hnum other) as [m ->]. exists m.
    destruct (latest_version_of _ _).
    + rewrite filter_cons_False by (cbn; congruence). by rewrite app_nil_r.
    + by rewrite app_nil_r.
Qed.

(** ** Removing a party *)

Lemma filter_complement_nil {A} (P : A → Prop) `{!∀ x, Decision (P x)} (l : list A) :
  filter P l = [] → filter (λ x, ¬ P x) l = l.
Proof.
  induction l as [|x l IH]; [done|]. rewrite !filter_cons.
  destruct (decide (P x)); [done|]. intros Hnil.
  rewrite decide_True by done. by rewrite IH.
Qed.


Lemma remove_party_run contract_id party_id s :
  repo.remove_party contract_id party_id s =
  (Return (Z.of_nat (length
     (filter (repo.party_matches contract_id party_id) (contract_parties (pending s))))),
   {| committed := committed s;
      pending := {|
        contracts := contracts (pending s);
        contract_versions := contract_versions (pending s);
        contract_parties :=
          filter (λ p, ¬ repo.party_matches contract_id party_id p)
            (contract_parties (pending s));
        activity_logs := activity_logs (pending s) |};
      drawn := drawn s |}).
Proof. reflexivity. Qed.



(** ** Bulk download *)

Lemma collect_contents_run contracts : ∀ content_map s,
  collect_contents contracts content_map s =
  (Return (foldl (λ m c, <[Contract.id c := current_content (pending s) (Contract.id c)]> m)
             content_map contracts), s).
Proof.
  induction contracts as [|c contracts IH]; intros content_map s; [done|].
  cbn [collect_contents foldl]. rewrite bind_run, get_latest_version_run.
  cbv beta iota. by rewrite IH.
Qed.



Lemma string_length_app (a b : string) :
  String.length (a +:+ b) = (String.length a + String.length b)%nat.
Proof.
  induction a as [|ch a IH]; [done|].
  change (S (String.length (a +:+ b)) = S (String.length a + String.length b)).
  by rewrite IH.
Qed.

Lemma string_app_inj_r (a b suffix : string) : a +:+ suffix = b +:+ suffix → a = b.
Proof.
  revert b. induction a as [|ch a IH]; intros [|ch' b] Heq.
  - done.
  - apply (f_equal String.length) in Heq.
    rewrite !string_length_app in Heq. cbn in Heq. lia.
  - apply (f_equal String.length) in Heq.
    rewrite !string_length_app in Heq. cbn in Heq. lia.
  - change (String ch (a +:+ suffix) = String ch' (b +:+ suffix)) in Heq.
    injection Heq as -> Heq. f_equal. by apply IH.
Qed.

(** The file name of an entry determines the contract id. *)
Lemma archive_entry_name_inj db c1 c2 :
  (archive_entry db c1).1 = (archive_entry db c2).1 → Contract.id c1 = Contract.id c2.
Proof.
  unfold archive_entry. cbn [fst]. intros Heq.
  apply (inj (String.append "contract_")) in Heq.
  by apply string_app_inj_r in Heq.
Qed.




(** ** Updating the title *)

Lemma log_activity_run env contract_id action user_id user_name details s :
  repo.log_activity env contract_id action user_id user_name details s =
  let log := {|
    ActivityLog.id := gen_random_uuid env (drawn s);
    ActivityLog.contract_id := contract_id;
    ActivityLog.action := ActivityAction.value action;
    ActivityLog.user_id := user_id;
    ActivityLog.user_name := user_name;
    ActivityLog.details := details;
    ActivityLog.timestamp := now env |} in
  (Return log,
   {| committed := committed s;
      pending := {|
        contracts := contracts (pending s);
        contract_versions := contract_versions (pending s);
        contract_parties := contract_parties (pending s);
        activity_logs := activity_logs (pending s) ++ [log] |};
      drawn := S (drawn s) |}).
Proof. reflexivity. Qed.

Lemma model_validate_session found s :
  ContractOut_model_validate found s = ((ContractOut_model_validate found s).1, s).
Proof.
  destruct found as [c|]; [|done]. cbn.
  by destruct (ContractStatus.of_value (Contract.status c)).
Qed.

Lemma model_validate_result found s1 s2 :
  (ContractOut_model_validate found s1).1 = (ContractOut_model_validate found s2).1.
Proof.
  destruct found as [c|]; [|done]. cbn.
  by destruct (ContractStatus.of_value (Contract.status c)).
Qed.

(** C9, as stated, fails: what [update_contract] tests is whether a title
    is supplied, not whether a field changes.  The sample draft is titled
    Lease; updating it with the title Lease changes no field, the contracts
    table is as before, and yet an audit row with action UPDATED is
    appended. *)
Lemma update_contract_same_title_is_logged :
  let payload := {| UpdateContractRequest.title := Some "Lease" |} in
  let outcome := update_contract canonical_env alice draft_id payload canonical_session in
  repo.get_contract draft_id false canonical_session
    = (Return (Some (sample_contract draft_id "DRAFT")), canonical_session)
  ∧ Contract.owner_user_id (sample_contract draft_id "DRAFT") = user_id alice
  ∧ Contract.title (sample_contract draft_id "DRAFT") = "Lease"
  ∧ contracts (pending outcome.2) = contracts (pending canonical_session)
  ∧ ActivityLog.action <$> activity_logs (pending canonical_session) = []
  ∧ ActivityLog.action <$> activity_logs (pending outcome.2) = ["UPDATED"].
Proof. cbv zeta. by split_and!. Qed.

(** C9 (amended): on a contract owned by the requester, [update_contract]
    without a title (no field supplied) writes nothing: the tables of the transaction
    are as before, no audit row is appended, no identifier is drawn, and the
    commit publishes the unchanged tables.  With a title it sets the title of
    the contract (also when the title is the one the contract already has),
    leaves its other columns and the other tables alone, appends exactly one
    audit row with action UPDATED whose details hold the title supplied as
    the changed fields, and commits.  In both cases the contract as stored
    afterwards is returned, provided its status is a member of
    [ContractStatus]. *)
Theorem update_contract_outcome env user contract_id payload s c :
  repo.get_contract contract_id false s = (Return (Some c), s) →
  Contract.owner_user_id c = user_id user →
  let outcome := update_contract env user contract_id payload s in
  match UpdateContractRequest.title payload with
  | None =>
    pending outcome.2 = pending s
    ∧ committed outcome.2 = pending s
    ∧ drawn outcome.2 = drawn s
    ∧ outcome.1 = (ContractOut_model_validate (Some c) s).1
  | Some title =>
    contracts (pending outcome.2) =
      (λ x, if decide (Contract.id x = contract_id) then retitled title x else x)
        <$> contracts (pending s)
    ∧ repo.get_contract contract_id false outcome.2
      = (Return (Some (retitled title c)), outcome.2)
    ∧ (∃ entry,
         activity_logs (pending outcome.2) = activity_logs (pending s) ++ [entry]
         ∧ ActivityLog.contract_id entry = contract_id
         ∧ ActivityLog.action entry = "UPDATED"
         ∧ ActivityLog.user_id entry = user_id user
         ∧ ActivityLog.details entry = [("changedFields", JObj [("title", JStr title)])])
    ∧ contract_versions (pending outcome.2) = contract_versions (pending s)
    ∧ contract_parties (pending outcome.2) = contract_parties (pending s)
    ∧ committed outcome.2 = pending outcome.2
    ∧ outcome.1 = (ContractOut_model_validate (Some (retitled title c)) s).1
  end.
Proof.
  intros Hget Hown outcome.
  destruct (UpdateContractRequest.title payload) as [title|] eqn:Htitle.
  - set (db := {|
      contracts :=
        (λ x, if decide (Contract.id x = contract_id) then retitled title x else x)
          <$> contracts (pending s);
      contract_versions := contract_versions (pending s);
      contract_parties := contract_parties (pending s);
      activity_logs := activity_logs (pending s) ++
        [ {| ActivityLog.id := gen_random_uuid env (drawn s);
             ActivityLog.contract_id := contract_id;
             ActivityLog.action := "UPDATED";
             ActivityLog.user_id := user_id user;
             ActivityLog.user_name := user_email user;
             ActivityLog.details := [("changedFields", JObj [("title", JStr title)])];
             ActivityLog.timestamp := now env |} ] |}).
    set (final := {| committed := db; pending := db; drawn := S (drawn s) |}).
    assert (repo.get_contract contract_id false final
            = (Return (Some (retitled title c)), final)) as Hfound.
    { eapply (get_contract_after_update _ (retitled title)); [done|done| |exact Hget].
      reflexivity. }
    assert (outcome = ((ContractOut_model_validate (Some (retitled title c)) s).1, final))
      as ->.
    { subst outcome. unfold update_contract.
      enter_owned Hget Hown. rewrite Htitle.
      transitivity ((repo.get_contract contract_id false
                       ≫= ContractOut_model_validate) final); [reflexivity|].
      rewrite (bind_Return _ _ _ _ _ Hfound), model_validate_session.
      f_equal. apply model_validate_result. }
    cbn [fst snd]. split_and!; try done.
    eexists. split; [reflexivity|]. by split_and!.
  - set (final := {| committed := pending s; pending := pending s; drawn := drawn s |}).
    assert (repo.get_contract contract_id false final = (Return (Some c), final)) as Hfound.
    { eapply get_contract_ext; [|exact Hget]. reflexivity. }
    assert (outcome = ((ContractOut_model_validate (Some c) s).1, final)) as ->.
    { subst outcome. unfold update_contract.
      enter_owned Hget Hown. rewrite Htitle.
      transitivity ((repo.get_contract contract_id false
                       ≫= ContractOut_model_validate) final); [reflexivity|].
      rewrite (bind_Return _ _ _ _ _ Hfound), model_validate_session.
      f_equal. apply model_validate_result. }
    done.
Qed.

Lemma update_contract_outcome_witness :
  let renamed := update_contract sample_env alice "c-draft"
                   {| UpdateContractRequest.title := Some "Sublease" |} sample_session in
  let untouched := update_contract sample_env alice "c-draft"
                     {| UpdateContractRequest.title := None |} sample_session in
  repo.get_contract "c-draft" false renamed.2
    = (Return (Some (retitled "Sublease" (sample_contract "c-draft" "DRAFT"))), renamed.2)
  ∧ pending untouched.2 = pending sample_session.
Proof.
  split.
  - apply (update_contract_outcome sample_env alice "c-draft"
             {| UpdateContractRequest.title := Some "Sublease" |} sample_session
             (sample_contract "c-draft" "DRAFT") eq_refl eq_refl).
  - apply (update_contract_outcome sample_env alice "c-draft"
             {| UpdateContractRequest.title := None |} sample_session
             (sample_contract "c-draft" "DRAFT") eq_refl eq_refl).
Defined.

(** ** Public view *)

(** C10: the token passed to [public_view] has no influence on its outcome:
    for every contract id, session and pair of tokens, the two calls return
    the same value or raise the same exception, and leave the same session. *)
Theorem public_view_token_irrelevant contract_id token1 token2 s :
  public_view contract_id token1 s = public_view contract_id token2 s.
Proof. reflexivity. Qed.

(** * Further properties of the service *)

(** ** The ownership gate *)

Lemma get_contract_cases contract_id s :
  repo.get_contract contract_id false s =
  (match live_rows (pending s) contract_id with
   | [] => Return None
   | [c] => Return (Some c)
   | _ => Raise MultipleResultsFound
   end, s).
Proof.
  unfold repo.get_contract. rewrite bind_run. cbn. fold (live_rows (pending s) contract_id).
  by destruct (live_rows _ _) as [|c [|c' rows]].
Qed.

Lemma get_contract_found contract_id s c :
  live_rows (pending s) contract_id = [c] →
  repo.get_contract contract_id false s = (Return (Some c), s).
Proof. intros H. by rewrite get_contract_cases, H. Qed.

(** The first lines of every owner-scoped use case, followed by the rest
    [k] of its body. *)
Lemma owned_preamble {A} (k : Contract.t → Awaitable A) user contract_id s :
  (contract ← repo.get_contract contract_id false;
   contract ← raise_if_none contract (ServiceError 404 "Contrato no encontrado.");
   raise_if (bool_decide (Contract.owner_user_id contract ≠ user_id user))
     (ServiceError 403 "No tienes acceso a este contrato.");;
   k contract) s
  = match live_rows (pending s) contract_id with
    | [] => (Raise (ServiceError 404 "Contrato no encontrado."), s)
    | [c] =>
      if decide (Contract.owner_user_id c = user_id user) then k c s
      else (Raise (ServiceError 403 "No tienes acceso a este contrato."), s)
    | _ => (Raise MultipleResultsFound, s)
    end.
Proof.
  rewrite bind_run, get_contract_cases.
  destruct (live_rows _ _) as [|c [|c' rows]]; try reflexivity.
  cbv beta iota. rewrite raise_if_none_bind, raise_if_bind.
  destruct (decide (Contract.owner_user_id c = user_id user)) as [Hown|Hown].
  - by rewrite bool_decide_eq_false_2 by (intros H; by apply H).
  - by rewrite bool_decide_eq_true_2.
Qed.

Lemma discard_run {A} (m : Awaitable A) s :
  discard m s =
  match m s with
  | (Return _, s') => (Return (), s')
  | (Raise e, s') => (Raise e, s')
  end.
Proof. reflexivity. Qed.

Ltac unfold_use_case :=
  unfold update_contract, delete_contract, duplicate_contract, update_content,
    update_status, add_party, remove_party, get_contract_detail, list_versions,
    get_transitions, list_activity, list_parties.

(** What an owner-scoped use case does before its own logic. *)
Lemma perform_gate env user contract_id uc s :
  match live_rows (pending s) contract_id with
  | [] =>
    perform env user contract_id uc s
    = (Raise (ServiceError 404 "Contrato no encontrado."), s)
  | [c] =>
    Contract.owner_user_id c ≠ user_id user →
    perform env user contract_id uc s
    = (Raise (ServiceError 403 "No tienes acceso a este contrato."), s)
  | _ => perform env user contract_id uc s = (Raise MultipleResultsFound, s)
  end.
Proof.
  destruct uc; unfold perform; rewrite discard_run; unfold_use_case;
    rewrite owned_preamble;
    destruct (live_rows _ _) as [|c [|c' rows]]; try reflexivity;
    intros Hown; by rewrite decide_False.
Qed.

(** X1: each of the twelve owner-scoped use cases first looks the contract
    up among the live rows and checks the owner: when no live row carries
    the id, a canonical uuid text, it raises status code 404, when the
    contract is found but owned by another user it raises 403, and in both
    cases nothing has been read further or written: the session is exactly
    as before. *)
Theorem owned_use_case_gate env user contract_id uc s found :
  repo.get_contract contract_id false s = (Return found, s) →
  (found = None → canonical_uuid contract_id) →
  (∀ c, found = Some c → Contract.owner_user_id c ≠ user_id user) →
  perform env user contract_id uc s =
    (Raise (match found with
            | None => ServiceError 404 "Contrato no encontrado."
            | Some _ => ServiceError 403 "No tienes acceso a este contrato."
            end), s).
Proof.
  intros Hget _ Hother. pose proof (perform_gate env user contract_id uc s) as Hgate.
  rewrite get_contract_cases in Hget.
  destruct (live_rows _ _) as [|c [|c' rows]]; simplify_eq; [done|].
  apply Hgate. by apply Hother.
Qed.

Lemma owned_use_case_gate_witness :
  perform canonical_env bob draft_id (UpdateStatus
    {| UpdateContractStatusRequest.status := ContractStatus.CANCELLED;
       UpdateContractStatusRequest.reason := Some "not mine" |}) canonical_session
    = (Raise (ServiceError 403 "No tienes acceso a este contrato."), canonical_session)
  ∧ perform canonical_env alice unknown_id DeleteContract canonical_session
    = (Raise (ServiceError 404 "Contrato no encontrado."), canonical_session).
Proof.
  split.
  - apply (owned_use_case_gate canonical_env bob draft_id _ canonical_session
             (Some (sample_contract draft_id "DRAFT")) eq_refl).
    + discriminate.
    + intros c [= <-]. discriminate.
  - apply (owned_use_case_gate canonical_env alice unknown_id _ canonical_session None
             eq_refl).
    + intros _. reflexivity.
    + intros c [=].
Defined.

(** ** The owner-scoped use cases, run to the end *)

Ltac enter_found Hrows Hown :=
  unfold_use_case; rewrite owned_preamble, Hrows, decide_True by exact Hown.

Lemma delete_contract_run env user contract_id s c :
  live_rows (pending s) contract_id = [c] →
  Contract.owner_user_id c = user_id user →
  delete_contract env user contract_id s =
    if decide (Contract.status c = "SIGNED")
    then (Raise (ServiceError 409 "No se puede eliminar un contrato firmado."), s)
    else (Return (), after_delete env user contract_id s).
Proof.
  intros Hrows Hown. enter_found Hrows Hown. rewrite raise_if_bind.
  destruct (decide (Contract.status c = "SIGNED")).
  - by rewrite bool_decide_eq_true_2.
  - by rewrite bool_decide_eq_false_2.
Qed.

Lemma add_party_service_run env user contract_id payload s c :
  live_rows (pending s) contract_id = [c] →
  Contract.owner_user_id c = user_id user →
  add_party env user contract_id payload s =
    if decide (Contract.status c = "SIGNED")
    then (Raise (ServiceError 409 "No se pueden agregar partes a un contrato firmado."), s)
    else (Return (), after_add_party env user contract_id payload s).
Proof.
  intros Hrows Hown. enter_found Hrows Hown. rewrite raise_if_bind.
  destruct (decide (Contract.status c = "SIGNED")).
  - by rewrite bool_decide_eq_true_2.
  - rewrite bool_decide_eq_false_2 by done.
    unfold after_add_party, added_party, assigned_order.
    by destruct (AddPartyRequest.order payload).
Qed.

Lemma remove_party_service_run env user contract_id party_id s c :
  live_rows (pending s) contract_id = [c] →
  Contract.owner_user_id c = user_id user →
  remove_party env user contract_id party_id s =
    if decide (Contract.status c = "SIGNED")
    then (Raise (ServiceError 409 "No se puede remover una parte de un contrato firmado."), s)
    else if decide (filter (repo.party_matches contract_id party_id)
                      (contract_parties (pending s)) = [])
    then (Raise (ServiceError 404 "Parte no encontrada."), s)
    else (Return (), after_remove_party env user contract_id party_id s).
Proof.
  intros Hrows Hown. enter_found Hrows Hown. rewrite raise_if_bind.
  destruct (decide (Contract.status c = "SIGNED")).
  { by rewrite bool_decide_eq_true_2. }
  rewrite bool_decide_eq_false_2 by done.
  rewrite bind_run, remove_party_run. cbv beta iota. rewrite raise_if_bind.
  destruct (decide (filter _ _ = [])) as [Hnone|Hsome].
  - rewrite Hnone. cbn [length]. rewrite bool_decide_eq_true_2 by done.
    rewrite (filter_complement_nil _ _ Hnone). by rewrite session_eta.
  - rewrite bool_decide_eq_false_2; [done|].
    destruct (filter _ _); [done|cbn; lia].
Qed.

(** ** Computations that only read *)

Create HintDb reading.

Lemma reading_mret {A} (a : A) : reading (mret a).
Proof. by intros s. Qed.

Lemma reading_raise {A} e : reading (@raise A e).
Proof. by intros s. Qed.

Lemma reading_execute {A} (q : Database → A) : reading (execute q).
Proof. by intros s. Qed.

Lemma reading_bind {A B} (m : Awaitable A) (k : A → Awaitable B) :
  reading m → (∀ a, reading (k a)) → reading (m ≫= k).
Proof.
  intros Hm Hk s. rewrite bind_run. specialize (Hm s).
  destruct (m s) as [[a|e] s1]; cbn in Hm; subst s1; [apply Hk|done].
Qed.

Lemma reading_raise_if b e : reading (raise_if b e).
Proof. by destruct b. Qed.

Lemma reading_raise_if_none {A} (x : option A) e : reading (raise_if_none x e).
Proof. by destruct x. Qed.

Lemma reading_scalar_one_or_none {A} (rows : list A) : reading (scalar_one_or_none rows).
Proof. by destruct rows as [|x [|y rows]]. Qed.

Lemma reading_mapM {A B} (f : A → Awaitable B) (l : list A) :
  (∀ x, reading (f x)) → reading (mapM f l).
Proof.
  intros Hf. induction l as [|x l IH]; cbn [mapM].
  - apply reading_mret.
  - apply reading_bind; [apply Hf|]. intros y.
    apply reading_bind; [apply IH|]. intros k. apply reading_mret.
Qed.

Lemma reading_ContractOut_model_validate found : reading (ContractOut_model_validate found).
Proof.
  intros s. destruct found as [c|]; [|done]. cbn.
  by destruct (ContractStatus.of_value _).
Qed.

Lemma reading_ContractPartyOut_model_validate p :
  reading (ContractPartyOut_model_validate p).
Proof.
  intros s. unfold ContractPartyOut_model_validate.
  by destruct (PartyRole.of_value (ContractParty.role p)),
    (SignatureStatus.of_value (ContractParty.signature_status p)).
Qed.

Lemma reading_ContractVersionOut_model_validate v :
  reading (ContractVersionOut_model_validate v).
Proof.
  intros s. unfold ContractVersionOut_model_validate. by repeat case_decide.
Qed.

Lemma reading_collect_contents contracts : ∀ content_map,
  reading (collect_contents contracts content_map).
Proof. intros content_map s. by rewrite collect_contents_run. Qed.

Lemma reading_discard {A} (m : Awaitable A) : reading m → reading (discard m).
Proof. intros Hm. apply reading_bind; [done|]. intros _. apply reading_mret. Qed.

#[local] Hint Resolve reading_mret reading_raise reading_execute reading_bind
  reading_raise_if reading_raise_if_none reading_scalar_one_or_none reading_mapM
  reading_ContractOut_model_validate reading_ContractPartyOut_model_validate
  reading_ContractVersionOut_model_validate reading_collect_contents reading_discard
  : reading.

#[local] Hint Extern 2 (reading (match ?x with _ => _ end)) => destruct x : reading.

Lemma reading_perform_any env date_trunc user uc :
  reads uc = true → reading (perform_any env date_trunc user uc).
Proof.
  destruct uc as [contract_id []| | | | | |]; try discriminate; intros _;
    unfold perform_any, perform; apply reading_discard;
    unfold get_contract_detail, list_versions, get_transitions, list_activity,
      list_parties, list_recent_contracts, list_pending_contracts, stats,
      bulk_download, public_view, repo.get_contract, repo.get_latest_version,
      repo.list_parties, repo.list_versions, repo.list_activity_logs,
      repo.list_recent_contracts, repo.list_pending_contracts,
      repo.contract_status_counts, repo.count_pending_signatures,
      repo.count_signed_this_month, repo.list_contracts_by_ids;
    eauto 20 with reading.
Qed.

(** X2: the use cases that only read (contract detail, versions, allowed
    transitions, activity, parties, recent and pending contracts, statistics,
    bulk download, public view) leave the session exactly as they found it,
    whatever they return or raise: no row is written, nothing is committed
    and no identifier is drawn. *)
Theorem read_use_cases_change_nothing env date_trunc user uc s :
  reads uc = true →
  (perform_any env date_trunc user uc s).2 = s.
Proof. intros Hreads. by apply reading_perform_any. Qed.

Lemma read_use_cases_change_nothing_witness :
  (perform_any sample_env (λ _ t, t) alice (BulkDownload ["c-draft"; "c-missing"])
     sample_session).2 = sample_session
  ∧ (perform_any sample_env (λ _ t, t) bob (PublicView "c-signing" "any-token")
       sample_session).2 = sample_session.
Proof.
  split.
  - apply (read_use_cases_change_nothing sample_env (λ _ t, t) alice
             (BulkDownload ["c-draft"; "c-missing"]) sample_session eq_refl).
  - apply (read_use_cases_change_nothing sample_env (λ _ t, t) bob
             (PublicView "c-signing" "any-token") sample_session eq_refl).
Defined.

(** ** Every use case is orderly *)

Lemma model_validate_no_service_error found s :
  ¬ is_service_error (ContractOut_model_validate found s).1.
Proof.
  intros (code & message & H). destruct found as [c|]; [|done]. cbn in H.
  by destruct (ContractStatus.of_value _).
Qed.

Lemma update_contract_run env user contract_id payload s c :
  live_rows (pending s) contract_id = [c] →
  Contract.owner_user_id c = user_id user →
  update_contract env user contract_id payload s =
    ((ContractOut_model_validate
        (Some (match UpdateContractRequest.title payload with
               | Some title => retitled title c
               | None => c
               end)) s).1,
     after_update_contract env user contract_id payload s).
Proof.
  intros Hrows Hown. pose proof (get_contract_found _ _ _ Hrows) as Hget.
  enter_found Hrows Hown. unfold after_update_contract.
  destruct (UpdateContractRequest.title payload) as [title|].
  - match goal with |- _ = (_, ?final) => set (final' := final) end.
    assert (repo.get_contract contract_id false final'
            = (Return (Some (retitled title c)), final')) as Hfound.
    { eapply (get_contract_after_update _ (retitled title)); [done|done| |exact Hget].
      reflexivity. }
    transitivity ((repo.get_contract contract_id false
                     ≫= ContractOut_model_validate) final'); [reflexivity|].
    rewrite (bind_Return _ _ _ _ _ Hfound), model_validate_session.
    f_equal. apply model_validate_result.
  - match goal with |- _ = (_, ?final) => set (final' := final) end.
    assert (repo.get_contract contract_id false final' = (Return (Some c), final'))
      as Hfound.
    { eapply get_contract_ext; [|exact Hget]. reflexivity. }
    transitivity ((repo.get_contract contract_id false
                     ≫= ContractOut_model_validate) final'); [reflexivity|].
    rewrite (bind_Return _ _ _ _ _ Hfound), model_validate_session.
    f_equal. apply model_validate_result.
Qed.

Lemma ids_fmap_stable (f : Contract.t → Contract.t) (rows : list Contract.t) :
  (∀ x, Contract.id (f x) = Contract.id x) →
  Contract.id <$> (f <$> rows) = Contract.id <$> rows.
Proof. intros Hf. rewrite <- list_fmap_compose. apply list_fmap_ext. intros ? x _. apply Hf. Qed.

Lemma orderly_same {A} (r : Result A) s : orderly s (r, s).
Proof. unfold orderly. cbn. split_and!; auto. Qed.

Lemma orderly_reading {A} (m : Awaitable A) s : reading m → orderly s (m s).
Proof.
  intros Hm. specialize (Hm s). destruct (m s) as [r s']. cbn in Hm. subst s'.
  apply orderly_same.
Qed.

Lemma orderly_commit {A} (r : Result A) s db n :
  contract_versions (pending s) `prefix_of` contract_versions db →
  activity_logs (pending s) `prefix_of` activity_logs db →
  (Contract.id <$> contracts (pending s)) `prefix_of` (Contract.id <$> contracts db) →
  ¬ is_service_error r →
  orderly s (r, {| committed := db; pending := db; drawn := n |}).
Proof. intros. unfold orderly. cbn. split_and!; auto. by intros ?. Qed.

Lemma orderly_discard {A} (m : Awaitable A) s : orderly s (m s) → orderly s (discard m s).
Proof.
  rewrite discard_run. destruct (m s) as [[a|e] s']; unfold orderly; cbn.
  - intros (? & ? & ? & ? & _). split_and!; auto. by intros (? & ? & ?).
  - intros (? & ? & ? & ? & Herr). split_and!; auto.
    intros (code & message & [= ->]). apply Herr. by eexists _, _.
Qed.

Lemma not_service_error_Return {A} (a : A) : ¬ is_service_error (Return a).
Proof. by intros (? & ? & ?). Qed.

Ltac solve_orderly :=
  first
    [ apply orderly_same
    | apply orderly_commit; cbn [contracts contract_versions activity_logs];
      [ try done; by apply prefix_app_r
      | try done; by apply prefix_app_r
      | first [ done | by apply prefix_app_r
              | rewrite ids_fmap_stable; [done|intros x; by case_decide]
              | rewrite fmap_app; by apply prefix_app_r ]
      | first [ apply not_service_error_Return | apply model_validate_no_service_error ] ] ].

Lemma perform_orderly env user contract_id uc s :
  orderly s (perform env user contract_id uc s).
Proof.
  pose proof (perform_gate env user contract_id uc s) as Hgate.
  destruct (live_rows (pending s) contract_id) as [|c [|c' rows]] eqn:Hrows;
    [rewrite Hgate; apply orderly_same| |rewrite Hgate; apply orderly_same].
  destruct (decide (Contract.owner_user_id c = user_id user)) as [Hown|Hother];
    [|rewrite Hgate by done; apply orderly_same].
  clear Hgate. pose proof (get_contract_found _ _ _ Hrows) as Hget.
  destruct (reads (Owned contract_id uc)) eqn:Hreads.
  { apply (orderly_reading (perform_any env (λ _ t, t) user (Owned contract_id uc))).
    by apply reading_perform_any. }
  destruct uc; try discriminate; unfold perform; apply orderly_discard.
  - rewrite (update_contract_run _ _ _ _ _ _ Hrows Hown). unfold after_update_contract.
    destruct (UpdateContractRequest.title payload); solve_orderly.
  - rewrite (delete_contract_run _ _ _ _ _ Hrows Hown).
    case_decide; unfold after_delete; solve_orderly.
  - destruct (duplicate_contract_run env user contract_id s c Hget Hown)
      as (out & copies & entry & _ & _ & _ & ->). solve_orderly.
  - destruct (update_content_run env user contract_id payload s c Hget Hown)
      as (row & entry & -> & _). solve_orderly.
  - rewrite (update_status_run _ _ _ _ _ _ Hget Hown). cbv zeta.
    repeat case_decide; unfold after_transition; solve_orderly.
  - rewrite (add_party_service_run _ _ _ _ _ _ Hrows Hown).
    case_decide; unfold after_add_party; solve_orderly.
  - rewrite (remove_party_service_run _ _ _ _ _ _ Hrows Hown).
    repeat case_decide; unfold after_remove_party; solve_orderly.
Qed.

Lemma create_contract_service_run env user payload s :
  let contract := {|
    Contract.id := gen_random_uuid env (drawn s);
    Contract.title := CreateContractRequest.title payload;
    Contract.contract_type := CreateContractRequest.contract_type payload;
    Contract.template_id := CreateContractRequest.template_id payload;
    Contract.owner_user_id := user_id user;
    Contract.status := "DRAFT";
    Contract.metadata := [];
    Contract.created_at := now env;
    Contract.updated_at := now env;
    Contract.signed_at := None;
    Contract.deleted_at := None |} in
  ∃ out,
    ContractOut.id out = Contract.id contract
    ∧ ContractOut.status out = ContractStatus.DRAFT
    ∧ ContractOut.owner_user_id out = user_id user
    ∧ create_contract env user payload s =
        (Return out,
         let db := {|
           contracts := contracts (pending s) ++ [contract];
           contract_versions := contract_versions (pending s);
           contract_parties := contract_parties (pending s);
           activity_logs :=
             activity_logs (pending s)
             ++ [audit_entry env user (Contract.id contract) ActivityAction.CREATED []
                   (S (drawn s))] |} in
         {| committed := db; pending := db; drawn := S (S (drawn s)) |}).
Proof. cbv zeta. eexists. split_and!; [| | |reflexivity]; reflexivity. Qed.

Lemma perform_any_orderly env date_trunc user uc s :
  orderly s (perform_any env date_trunc user uc s).
Proof.
  destruct (reads uc) eqn:Hreads.
  { apply orderly_reading. by apply reading_perform_any. }
  destruct uc as [contract_id uc|payload| | | | |]; try discriminate.
  - apply perform_orderly.
  - unfold perform_any. apply orderly_discard.
    destruct (create_contract_service_run env user payload s) as (out & _ & _ & _ & ->).
    solve_orderly.
Qed.

(** X3: whenever a use case raises a [ServiceError] (400, 403, 404 or 409),
    the session is exactly as it was before the call: every check that can
    refuse a request runs before the first write, so a refused request has
    written nothing, committed nothing and drawn no identifier. *)
Theorem service_error_writes_nothing env date_trunc user uc s code message s' :
  perform_any env date_trunc user uc s = (Raise (ServiceError code message), s') →
  s' = s.
Proof.
  intros Hrun. pose proof (perform_any_orderly env date_trunc user uc s) as Horderly.
  rewrite Hrun in Horderly. destruct Horderly as (_ & _ & _ & _ & Herr).
  apply Herr. by eexists _, _.
Qed.

Lemma service_error_writes_nothing_witness :
  perform_any sample_env (λ _ t, t) alice (Owned "c-draft" (RemoveParty "p-unknown"))
    sample_session
  = (Raise (ServiceError 404 "Parte no encontrada."), sample_session).
Proof.
  pose proof (service_error_writes_nothing sample_env (λ _ t, t) alice
    (Owned "c-draft" (RemoveParty "p-unknown")) sample_session 404 "Parte no encontrada."
    (perform_any sample_env (λ _ t, t) alice (Owned "c-draft" (RemoveParty "p-unknown"))
       sample_session).2 eq_refl) as Hsame.
  rewrite <- Hsame at 2. reflexivity.
Defined.

Lemma request_orderly env date_trunc user uc srv :
  let srv' := (request (perform_any env date_trunc user uc) srv).2 in
  contract_versions (database srv) `prefix_of` contract_versions (database srv')
  ∧ activity_logs (database srv) `prefix_of` activity_logs (database srv')
  ∧ (Contract.id <$> contracts (database srv))
      `prefix_of` (Contract.id <$> contracts (database srv')).
Proof.
  cbv zeta. unfold request.
  pose proof (perform_any_orderly env date_trunc user uc (open_session srv)) as Horderly.
  destruct (perform_any _ _ _ _ _) as [r s']. unfold orderly in Horderly.
  cbn [fst snd close_session database open_session pending committed] in *.
  destruct Horderly as (Hv & Hl & Hc & [Hsame|Hcommit] & _).
  - by rewrite Hsame.
  - by rewrite Hcommit.
Qed.

(** X4: whatever requests are served, by whatever users and in whatever
    order, the version rows and the audit rows of the database are never
    deleted, changed or reordered: the tables before are prefixes of the
    tables after.  The same holds of the list of contract ids: no contract
    row is ever removed. *)
Theorem history_is_append_only env date_trunc (requests : list (UserContext * UseCase)) :
  ∀ srv,
  let srv' := (serve ((λ r, perform_any env date_trunc r.1 r.2) <$> requests) srv).2 in
  contract_versions (database srv) `prefix_of` contract_versions (database srv')
  ∧ activity_logs (database srv) `prefix_of` activity_logs (database srv')
  ∧ (Contract.id <$> contracts (database srv))
      `prefix_of` (Contract.id <$> contracts (database srv')).
Proof.
  induction requests as [|[user uc] requests IH]; intros srv; [done|].
  rewrite fmap_cons. cbn [serve fst snd].
  pose proof (request_orderly env date_trunc user uc srv) as Hstep. cbv zeta in Hstep.
  destruct (request _ srv) as [r srv1]. cbn [snd] in Hstep.
  specialize (IH srv1). cbv zeta in IH.
  destruct (serve _ srv1) as [rs srv2]. cbn [snd] in *.
  destruct Hstep as (Hv & Hl & Hc), IH as (Hv' & Hl' & Hc').
  split_and!; by etrans.
Qed.

(** ** The lifecycle only moves forward *)

Lemma allowed_transition_rank (current : string) (target : ContractStatus.t) :
  ContractStatus.value target ∈ dict_get ALLOWED_TRANSITIONS current [] →
  current ∈ ["DRAFT"; "GENERATED"; "SIGNING"]
  ∧ ContractStatus.value target ≠ "DRAFT"
  ∧ (status_rank current < status_rank (ContractStatus.value target))%nat.
Proof.
  intros Hin. unfold ALLOWED_TRANSITIONS in Hin. cbn [dict_get] in Hin.
  repeat case_decide; subst; try (by apply elem_of_nil in Hin);
    destruct target;
    first
      [ apply (bool_decide_pack _) in Hin; vm_compute in Hin; by destruct Hin
      | split_and!;
        [ apply (bool_decide_unpack _); vm_compute; exact I
        | discriminate
        | vm_compute; lia ] ].
Qed.

(** A successful [update_status] found the contract, owned by the requester,
    took an allowed edge and left the session of [after_transition]. *)
Lemma update_status_success_inv env user contract_id payload s s' :
  update_status env user contract_id payload s = (Return (), s') →
  ∃ c,
    live_rows (pending s) contract_id = [c]
    ∧ Contract.owner_user_id c = user_id user
    ∧ ContractStatus.value (UpdateContractStatusRequest.status payload)
        ∈ dict_get ALLOWED_TRANSITIONS (Contract.status c) []
    ∧ s' = after_transition env user contract_id (Contract.status c) payload s.
Proof.
  intros Hrun.
  pose proof (perform_gate env user contract_id (UpdateStatus payload) s) as Hgate.
  unfold perform in Hgate. rewrite discard_run, Hrun in Hgate.
  destruct (live_rows (pending s) contract_id) as [|c [|c' rows]] eqn:Hrows; try done.
  destruct (decide (Contract.owner_user_id c = user_id user)) as [Hown|Hother];
    [|by specialize (Hgate Hother)].
  exists c. clear Hgate.
  rewrite (update_status_run _ _ _ _ _ _ (get_contract_found _ _ _ Hrows) Hown) in Hrun.
  cbv zeta in Hrun. repeat case_decide; simplify_eq; done.
Qed.

(** X5: [update_status] only ever succeeds along an edge that
    [get_transitions] advertises for the same contract and requester.  In
    particular it never succeeds on a contract whose status is SIGNED,
    CANCELLED or EXPIRED (or any string outside the lifecycle), and never
    with DRAFT as target. *)
Theorem update_status_follows_advertised_transitions env user contract_id payload s s' :
  update_status env user contract_id payload s = (Return (), s') →
  ∃ advertised,
    get_transitions user contract_id s = (Return advertised, s)
    ∧ ContractStatus.value (UpdateContractStatusRequest.status payload)
        ∈ allowedTransitions advertised
    ∧ currentStatus advertised ∈ ["DRAFT"; "GENERATED"; "SIGNING"]
    ∧ UpdateContractStatusRequest.status payload ≠ ContractStatus.DRAFT.
Proof.
  intros (c & Hrows & Hown & Hallowed & _)%update_status_success_inv.
  destruct (allowed_transition_rank _ _ Hallowed) as (Hcurrent & Htarget & _).
  eexists. split_and!.
  - unfold get_transitions. rewrite owned_preamble, Hrows, decide_True by done.
    reflexivity.
  - exact Hallowed.
  - exact Hcurrent.
  - intros Heq. by rewrite Heq in Htarget.
Qed.

Lemma update_status_follows_advertised_transitions_witness :
  ∃ advertised,
    get_transitions alice "c-draft" sample_session = (Return advertised, sample_session)
    ∧ "GENERATED" ∈ allowedTransitions advertised.
Proof.
  destruct (update_status_follows_advertised_transitions sample_env alice "c-draft"
    {| UpdateContractStatusRequest.status := ContractStatus.GENERATED;
       UpdateContractStatusRequest.reason := None |}
    sample_session
    (after_transition sample_env alice "c-draft" "DRAFT"
       {| UpdateContractStatusRequest.status := ContractStatus.GENERATED;
          UpdateContractStatusRequest.reason := None |} sample_session)
    eq_refl) as (advertised & Hget & Hin & _).
  exists advertised. split; [exact Hget|exact Hin].
Defined.

Lemma live_rows_after_transition env user contract_id previous payload s c :
  live_rows (pending s) contract_id = [c] →
  live_rows (pending (after_transition env user contract_id previous payload s)) contract_id
  = [transitioned (utcnow env)
       (ContractStatus.value (UpdateContractStatusRequest.status payload)) c].
Proof.
  intros Hrows. eapply get_contract_live.
  eapply (get_contract_after_update _ (transitioned _ _)); [done|done|reflexivity|].
  by apply get_contract_found.
Qed.

(** One [update_status] request: either it fails and the database is as
    before, or it succeeds and the status of the contract has moved strictly
    forward. *)
Lemma update_status_request_step env user contract_id payload srv :
  let outcome := request (update_status env user contract_id payload) srv in
  (succeeded outcome.1 = false ∧ database outcome.2 = database srv)
  ∨ (succeeded outcome.1 = true
     ∧ ∃ c c',
         live_rows (database srv) contract_id = [c]
         ∧ live_rows (database outcome.2) contract_id = [c']
         ∧ (status_rank (Contract.status c) < status_rank (Contract.status c'))%nat).
Proof.
  cbv zeta. unfold request.
  destruct (update_status env user contract_id payload (open_session srv))
    as [[[]|e] s'] eqn:Hrun; cbn [fst snd succeeded].
  - right. split; [done|].
    destruct (update_status_success_inv _ _ _ _ _ _ Hrun)
      as (c & Hrows & Hown & Hallowed & ->).
    destruct (allowed_transition_rank _ _ Hallowed) as (_ & _ & Hrank).
    eexists c, _. split_and!; [exact Hrows| |].
    + exact (live_rows_after_transition env user contract_id _ payload _ c Hrows).
    + exact Hrank.
  - left. split; [done|].
    pose proof (perform_orderly env user contract_id (UpdateStatus payload)
                  (open_session srv)) as Horderly.
    unfold perform in Horderly. rewrite discard_run, Hrun in Horderly.
    pose proof (perform_gate env user contract_id (UpdateStatus payload)
                  (open_session srv)) as Hgate.
    unfold perform in Hgate. rewrite discard_run, Hrun in Hgate.
    destruct (live_rows (pending (open_session srv)) contract_id)
      as [|c [|c' rows]] eqn:Hrows; try (by simplify_eq).
    destruct (decide (Contract.owner_user_id c = user_id user)) as [Hown|Hother];
      [|specialize (Hgate Hother); by simplify_eq].
    rewrite (update_status_run _ _ _ _ _ _ (get_contract_found _ _ _ Hrows) Hown) in Hrun.
    cbv zeta in Hrun. repeat case_decide; by simplify_eq.
Qed.

Lemma status_rank_bound st : (status_rank st ≤ 3)%nat.
Proof. unfold status_rank. repeat case_decide; lia. Qed.

Lemma serve_update_status_bound env contract_id
    (requests : list (UserContext * UpdateContractStatusRequest.t)) : ∀ srv,
  (length (filter succeeded
     (serve ((λ r, update_status env r.1 contract_id r.2) <$> requests) srv).1)
   ≤ match live_rows (database srv) contract_id with
     | [c] => 3 - status_rank (Contract.status c)
     | _ => 0
     end)%nat.
Proof.
  induction requests as [|[user payload] requests IH]; intros srv; [cbn; lia|].
  rewrite fmap_cons. cbn [serve fst snd].
  pose proof (update_status_request_step env user contract_id payload srv) as Hstep.
  cbv zeta in Hstep. destruct (request _ srv) as [r srv1]. cbn [fst snd] in Hstep.
  specialize (IH srv1). destruct (serve _ srv1) as [rs srv2]. cbn [fst snd] in *.
  rewrite filter_cons.
  destruct Hstep as [[Hfail Hsame]|(Hok & c & c' & Hrows & Hrows' & Hrank)].
  - rewrite Hfail, Hsame in *. by rewrite decide_False by (by intros ?).
  - rewrite Hok, Hrows, Hrows' in *. rewrite decide_True by done. cbn [length].
    pose proof (status_rank_bound (Contract.status c')). lia.
Qed.

(** X6: among any sequence of [update_status] requests on one contract, by
    whatever users and with whatever targets and reasons, at most three
    succeed: every success moves the status strictly forward along
    DRAFT, GENERATED, SIGNING, terminal. *)
Theorem at_most_three_status_changes env contract_id
    (requests : list (UserContext * UpdateContractStatusRequest.t)) srv :
  (length (filter succeeded
     (serve ((λ r, update_status env r.1 contract_id r.2) <$> requests) srv).1) ≤ 3)%nat.
Proof.
  pose proof (serve_update_status_bound env contract_id requests srv) as Hbound.
  destruct (live_rows _ _) as [|c [|c' rows]]; lia.
Qed.

(** ** Soft delete *)

(** After the UPDATE of [soft_delete_contract] no row with the given id is
    live. *)
Lemma soft_deleted_rows_not_live t contract_id (rows : list Contract.t) :
  Forall (λ x, Contract.id x = contract_id → Contract.deleted_at x ≠ None)
    ((λ c, if decide (Contract.id c = contract_id) then soft_deleted t c else c) <$> rows).
Proof.
  apply Forall_fmap, Forall_forall. intros x _. unfold compose.
  case_decide; [done|]. by intros ?.
Qed.

Lemma no_live_rows db contract_id :
  Forall (λ x, Contract.id x = contract_id → Contract.deleted_at x ≠ None) (contracts db) →
  live_rows db contract_id = [].
Proof.
  intros Hall. unfold live_rows. rewrite list_filter_filter.
  induction Hall as [|x rows Hx _ IH]; [done|].
  rewrite filter_cons_False; [done|]. intros [Hlive Hid]. by apply Hx.
Qed.

(** X7: [delete_contract] on a contract owned by the requester raises 409
    and changes nothing when the contract is SIGNED.  Otherwise it succeeds
    and commits: the row stays in the table with [deleted_at] set to the
    current time and its other columns unchanged, the lookup of live
    contracts no longer finds it, its versions and parties are all kept, and
    one audit row with action UPDATED and details softDelete is appended. *)
Theorem delete_contract_outcome env user contract_id s c :
  repo.get_contract contract_id false s = (Return (Some c), s) →
  Contract.owner_user_id c = user_id user →
  let outcome := delete_contract env user contract_id s in
  (Contract.status c = "SIGNED" →
     outcome = (Raise (ServiceError 409 "No se puede eliminar un contrato firmado."), s))
  ∧ (Contract.status c ≠ "SIGNED" →
     outcome.1 = Return ()
     ∧ committed outcome.2 = pending outcome.2
     ∧ repo.get_contract contract_id false outcome.2 = (Return None, outcome.2)
     ∧ soft_deleted (utcnow env) c ∈ contracts (pending outcome.2)
     ∧ length (contracts (pending outcome.2)) = length (contracts (pending s))
     ∧ contract_versions (pending outcome.2) = contract_versions (pending s)
     ∧ contract_parties (pending outcome.2) = contract_parties (pending s)
     ∧ activity_logs (pending outcome.2) =
         activity_logs (pending s)
         ++ [audit_entry env user contract_id ActivityAction.UPDATED
               [("softDelete", JBool true)] (drawn s)]).
Proof.
  intros Hget Hown outcome. pose proof (get_contract_live _ _ _ _ Hget) as Hrows.
  fold (live_rows (pending s) contract_id) in Hrows.
  subst outcome. rewrite (delete_contract_run _ _ _ _ _ Hrows Hown). split.
  - intros Hsigned. by rewrite decide_True.
  - intros Hstatus. rewrite decide_False by done. cbn [fst snd].
    split_and!; try reflexivity.
    + rewrite get_contract_cases, no_live_rows; [done|].
      apply soft_deleted_rows_not_live.
    + cbn. assert (c ∈ contracts (pending s)) as Hc.
      { assert (c ∈ live_rows (pending s) contract_id) as Hin by (rewrite Hrows; constructor).
        by apply list_elem_of_filter in Hin as [_ [_ ?]%list_elem_of_filter]. }
      assert (Contract.id c = contract_id) as Hid.
      { assert (c ∈ live_rows (pending s) contract_id) as Hin by (rewrite Hrows; constructor).
        by apply list_elem_of_filter in Hin as [_ [? _]%list_elem_of_filter]. }
      apply list_elem_of_fmap. exists c. by rewrite decide_True.
    + cbn. by rewrite length_fmap.
Qed.

Lemma delete_contract_outcome_witness :
  let outcome := delete_contract sample_env alice "c-draft" sample_session in
  delete_contract sample_env alice "c-signed" sample_session
    = (Raise (ServiceError 409 "No se puede eliminar un contrato firmado."), sample_session)
  ∧ outcome.1 = Return ()
  ∧ repo.get_contract "c-draft" false outcome.2 = (Return None, outcome.2)
  ∧ contract_versions (pending outcome.2) = contract_versions (pending sample_session).
Proof.
  split.
  - apply (delete_contract_outcome sample_env alice "c-signed" sample_session
             (sample_contract "c-signed" "SIGNED") eq_refl eq_refl).
    reflexivity.
  - destruct (delete_contract_outcome sample_env alice "c-draft" sample_session
                (sample_contract "c-draft" "DRAFT") eq_refl eq_refl) as [_ Hdeleted].
    destruct Hdeleted as (Hok & _ & Hgone & _ & _ & Hversions & _); [discriminate|].
    split_and!; [exact Hok|exact Hgone|exact Hversions].
Defined.

(** The rows a bulk download resolves have distinct ids when the table
    has. *)
Lemma resolved_ids (owner_user_id : string) (contract_ids : list uuid) (db : Database) :
  let resolved :=
    filter (λ c, Contract.id c ∈ contract_ids)
      (filter (λ c, Contract.deleted_at c = None)
        (filter (λ c, Contract.owner_user_id c = owner_user_id) (contracts db))) in
  NoDup (Contract.id <$> contracts db) →
  NoDup (Contract.id <$> resolved)
  ∧ ∀ x, x ∈ resolved →
      Contract.id x ∈ contract_ids ∧ Contract.deleted_at x = None ∧ x ∈ contracts db.
Proof.
  intros resolved Hnodup. split.
  - eapply sublist_NoDup; [exact Hnodup|]. apply fmap_sublist.
    subst resolved. do 2 (etrans; [apply sublist_filter|]). apply sublist_filter.
  - intros x Hx. subst resolved.
    apply list_elem_of_filter in Hx as [Hid Hx].
    apply list_elem_of_filter in Hx as [Hlive Hx].
    by apply list_elem_of_filter in Hx as [_ Hx].
Qed.

(** X8: once [delete_contract] has succeeded, the contract is out of reach
    of the service: every owner-scoped use case, for every user including
    the owner, and a second delete among them, raises 404, and so does the
    public view.  When contract ids are unique, a bulk download of
    canonical uuid texts that asks for the contract is refused with 404 as
    well. *)
Theorem deleted_contract_is_unreachable env user contract_id s c :
  repo.get_contract contract_id false s = (Return (Some c), s) →
  Contract.owner_user_id c = user_id user →
  Contract.status c ≠ "SIGNED" →
  let s' := (delete_contract env user contract_id s).2 in
  (∀ env' anyone uc,
     perform env' anyone contract_id uc s'
     = (Raise (ServiceError 404 "Contrato no encontrado."), s'))
  ∧ (∀ token,
       public_view contract_id token s'
       = (Raise (ServiceError 404 "Contrato no encontrado."), s'))
  ∧ (∀ anyone contract_ids,
       NoDup (Contract.id <$> contracts (pending s)) →
       Forall canonical_uuid contract_ids →
       contract_id ∈ contract_ids →
       bulk_download anyone contract_ids s'
       = (Raise (ServiceError 404 "Uno o más contratos no fueron encontrados."), s')).
Proof.
  intros Hget Hown Hstatus s'. pose proof (get_contract_live _ _ _ _ Hget) as Hrows.
  fold (live_rows (pending s) contract_id) in Hrows.
  subst s'. rewrite (delete_contract_run _ _ _ _ _ Hrows Hown), decide_False by done.
  cbn [snd]. set (s' := after_delete env user contract_id s).
  assert (Forall (λ x, Contract.id x = contract_id → Contract.deleted_at x ≠ None)
            (contracts (pending s'))) as Hdead by apply soft_deleted_rows_not_live.
  pose proof (no_live_rows _ _ Hdead) as Hnone.
  split_and!.
  - intros env' anyone uc. pose proof (perform_gate env' anyone contract_id uc s') as Hgate.
    by rewrite Hnone in Hgate.
  - intros token. unfold public_view.
    rewrite bind_run, get_contract_cases, Hnone. reflexivity.
  - intros anyone contract_ids Hnodup _ Hin. unfold bulk_download.
    rewrite bind_run. unfold repo.list_contracts_by_ids, execute. cbv beta iota.
    rewrite raise_if_bind, bool_decide_eq_true_2; [done|].
    destruct (resolved_ids (user_id anyone) contract_ids (pending s')) as [Hids Hres].
    { cbn. rewrite ids_fmap_stable; [done|]. intros x. by case_decide. }
    set (resolved := filter _ _) in *.
    rewrite <- (length_fmap Contract.id resolved), <- (size_list_to_set (C:=gset string)) by done.
    apply Nat.lt_neq, subset_size. split.
    + intros x [y [-> Hy]]%elem_of_list_to_set%list_elem_of_fmap.
      apply elem_of_list_to_set. by apply Hres.
    + intros Hsub. assert (contract_id ∈ (list_to_set contract_ids : gset string)) as Hcid
        by by apply elem_of_list_to_set.
      apply Hsub in Hcid.
      apply elem_of_list_to_set, list_elem_of_fmap in Hcid as [y [Hid Hy]].
      destruct (Hres y Hy) as (_ & Hlive & Hy').
      rewrite Forall_forall in Hdead. by apply (Hdead y Hy').
Qed.

Lemma deleted_contract_is_unreachable_witness :
  let s' := (delete_contract canonical_env alice draft_id canonical_session).2 in
  perform canonical_env alice draft_id DeleteContract s'
    = (Raise (ServiceError 404 "Contrato no encontrado."), s')
  ∧ public_view draft_id "token" s'
    = (Raise (ServiceError 404 "Contrato no encontrado."), s')
  ∧ bulk_download alice [empty_id; draft_id] s'
    = (Raise (ServiceError 404 "Uno o más contratos no fueron encontrados."), s').
Proof.
  destruct (deleted_contract_is_unreachable canonical_env alice draft_id canonical_session
    (sample_contract draft_id "DRAFT") eq_refl eq_refl) as (Howned & Hpublic & Hbulk).
  { discriminate. }
  split_and!; [apply Howned|apply Hpublic|].
  apply Hbulk.
  - apply (bool_decide_unpack _). vm_compute. exact I.
  - repeat constructor.
  - apply (bool_decide_unpack _). vm_compute. exact I.
Defined.

(** ** Adding a party *)

Lemma insert_by_snoc {A} (key : A → Z) a x (l : list A) :
  key a ≤ key x → insert_by key a (l ++ [x]) = insert_by key a l ++ [x].
Proof.
  intros Hle. induction l as [|y l IH]; cbn.
  - by rewrite decide_True.
  - case_decide; [done|]. by rewrite IH.
Qed.

(** A row appended to the table with a key no smaller than the others comes
    last in the sorted result. *)
Lemma order_by_snoc {A} (key : A → Z) x (l : list A) :
  Forall (λ y, key y ≤ key x) l → order_by key (l ++ [x]) = order_by key l ++ [x].
Proof.
  induction 1 as [|y l Hy _ IH]; [done|].
  cbn. rewrite IH. by apply insert_by_snoc.
Qed.

Lemma func_max_upper (l : list Z) d x : x ∈ l → x ≤ func_coalesce (func_max l) d.
Proof.
  destruct l as [|y l]; [by intros ?%elem_of_nil|]. intros Hx. cbn.
  destruct (foldl_max_spec y l) as [_ Hall]. rewrite Forall_forall in Hall. by apply Hall.
Qed.

Lemma live_rows_ext db1 db2 contract_id :
  contracts db1 = contracts db2 → live_rows db1 contract_id = live_rows db2 contract_id.
Proof. unfold live_rows. by intros ->. Qed.

(** X9: [add_party] on a contract owned by the requester raises 409 and
    changes nothing when the contract is SIGNED.  Otherwise, when the
    signing order of the new row fits the 32-bit column, it succeeds and
    commits one new party row with signature status PENDING and one audit
    row, the other tables unchanged.  With an explicit order the row carries
    it; with the order omitted it carries the greatest signing order of the
    contract plus one (1 for the first party), which is greater than every
    other one, so that [list_parties] returns the parties the contract had,
    in signing order, followed by the new party. *)
Theorem add_party_outcome env user contract_id payload s c :
  repo.get_contract contract_id false s = (Return (Some c), s) →
  Contract.owner_user_id c = user_id user →
  let party := added_party env (pending s) contract_id payload (drawn s) in
  let outcome := add_party env user contract_id payload s in
  (Contract.status c = "SIGNED" →
     outcome =
       (Raise (ServiceError 409 "No se pueden agregar partes a un contrato firmado."), s))
  ∧ (Contract.status c ≠ "SIGNED" →
     int32 (ContractParty.signing_order party) →
     outcome.1 = Return ()
     ∧ committed outcome.2 = pending outcome.2
     ∧ contract_parties (pending outcome.2) = contract_parties (pending s) ++ [party]
     ∧ ContractParty.signature_status party = "PENDING"
     ∧ contracts (pending outcome.2) = contracts (pending s)
     ∧ contract_versions (pending outcome.2) = contract_versions (pending s)
     ∧ activity_logs (pending outcome.2) =
         activity_logs (pending s)
         ++ [audit_entry env user contract_id ActivityAction.UPDATED
               [("partyAdded", JStr (AddPartyRequest.email payload))] (S (drawn s))]
     ∧ (∀ order, AddPartyRequest.order payload = Some order →
          ContractParty.signing_order party = order)
     ∧ (AddPartyRequest.order payload = None →
          (parties_of (pending s) contract_id = [] → ContractParty.signing_order party = 1)
          ∧ (∀ p, p ∈ parties_of (pending s) contract_id →
               ContractParty.signing_order p < ContractParty.signing_order party)
          ∧ ∃ before,
              repo.list_parties contract_id outcome.2
              = (Return (before ++ [party]), outcome.2)
              ∧ before ≡ₚ parties_of (pending s) contract_id
              ∧ StronglySorted
                  (λ a b, ContractParty.signing_order a ≤ ContractParty.signing_order b)
                  before)).
Proof.
  intros Hget Hown party outcome. pose proof (get_contract_live _ _ _ _ Hget) as Hrows.
  fold (live_rows (pending s) contract_id) in Hrows.
  subst outcome. rewrite (add_party_service_run _ _ _ _ _ _ Hrows Hown). split.
  { intros Hsigned. by rewrite decide_True. }
  intros Hstatus _. rewrite decide_False by done. cbn [fst snd].
  split_and!; try reflexivity.
  - intros order Horder. subst party. cbn. unfold assigned_order. by rewrite Horder.
  - intros Horder.
    assert (∀ p, p ∈ parties_of (pending s) contract_id →
              ContractParty.signing_order p < ContractParty.signing_order party) as Hlast.
    { intros p Hp. subst party. cbn. unfold assigned_order. rewrite Horder.
      assert (ContractParty.signing_order p
              ≤ func_coalesce
                  (func_max (ContractParty.signing_order
                               <$> parties_of (pending s) contract_id)) 0); [|lia].
      apply func_max_upper. by apply list_elem_of_fmap_2. }
    split_and!; [|exact Hlast|].
    + intros Hnone. subst party. cbn. unfold assigned_order. by rewrite Horder, Hnone.
    + exists (order_by ContractParty.signing_order (parties_of (pending s) contract_id)).
      split_and!; [|apply order_by_perm|apply order_by_sorted].
      rewrite list_parties_run. do 2 f_equal.
      unfold parties_of at 1. cbn [after_add_party pending contract_parties].
      rewrite filter_app, filter_cons_True by reflexivity.
      fold (parties_of (pending s) contract_id). cbn [filter list_filter].
      apply order_by_snoc, Forall_forall. intros p Hp. specialize (Hlast p Hp). lia.
Qed.

Lemma add_party_outcome_witness :
  let payload :=
    {| AddPartyRequest.role := PartyRole.GUEST;
       AddPartyRequest.name := "Luis";
       AddPartyRequest.email := "luis@example.org";
       AddPartyRequest.order := None |} in
  let outcome := add_party canonical_env alice draft_id payload canonical_session in
  outcome.1 = Return ()
  ∧ ContractParty.signing_order <$> contract_parties (pending outcome.2) = [1; 1; 1; 2]
  ∧ add_party canonical_env alice signed_id payload canonical_session
    = (Raise (ServiceError 409 "No se pueden agregar partes a un contrato firmado."),
       canonical_session).
Proof.
  cbv zeta.
  destruct (add_party_outcome canonical_env alice draft_id
    {| AddPartyRequest.role := PartyRole.GUEST;
       AddPartyRequest.name := "Luis";
       AddPartyRequest.email := "luis@example.org";
       AddPartyRequest.order := None |}
    canonical_session (sample_contract draft_id "DRAFT") eq_refl eq_refl) as [_ Hadded].
  destruct Hadded as (Hok & _ & Hparties & _);
    [discriminate|split; vm_compute; discriminate|].
  split_and!; [exact Hok|by rewrite Hparties|].
  apply (add_party_outcome canonical_env alice signed_id _ canonical_session
           (sample_contract signed_id "SIGNED") eq_refl eq_refl).
  reflexivity.
Defined.

(** X10: a party added to a contract in SIGNING holds the signature back:
    [add_party] with a signing order that fits the 32-bit column succeeds,
    and right after it [update_status] to SIGNED by the owner is refused
    with 409, whatever the other parties have signed, and changes nothing. *)
Theorem add_party_blocks_signing env env' user contract_id payload reason s c :
  repo.get_contract contract_id false s = (Return (Some c), s) →
  Contract.owner_user_id c = user_id user →
  Contract.status c = "SIGNING" →
  int32 (assigned_order (pending s) contract_id payload) →
  let added := add_party env user contract_id payload s in
  added.1 = Return ()
  ∧ update_status env' user contract_id
      {| UpdateContractStatusRequest.status := ContractStatus.SIGNED;
         UpdateContractStatusRequest.reason := reason |} added.2
    = (Raise (ServiceError 409 "Todas las partes deben estar SIGNED."), added.2).
Proof.
  intros Hget Hown Hstatus _ added. pose proof (get_contract_live _ _ _ _ Hget) as Hrows.
  fold (live_rows (pending s) contract_id) in Hrows.
  subst added. rewrite (add_party_service_run _ _ _ _ _ _ Hrows Hown).
  rewrite decide_False by (rewrite Hstatus; discriminate). cbn [fst snd].
  split; [reflexivity|].
  set (s' := after_add_party env user contract_id payload s).
  assert (live_rows (pending s') contract_id = [c]) as Hrows'.
  { rewrite <- Hrows. by apply live_rows_ext. }
  rewrite (update_status_run _ _ _ _ _ _ (get_contract_found _ _ _ Hrows') Hown).
  cbv zeta. rewrite Hstatus.
  cbn [UpdateContractStatusRequest.status ContractStatus.value
       UpdateContractStatusRequest.reason].
  rewrite decide_False by discriminate.
  rewrite decide_True by (cbn; repeat constructor).
  rewrite decide_False by (intros [? _]; discriminate).
  rewrite decide_True by reflexivity.
  assert (parties_of (pending s') contract_id
          = parties_of (pending s) contract_id
            ++ [added_party env (pending s) contract_id payload (drawn s)]) as Hparties.
  { unfold parties_of. cbn [s' after_add_party pending contract_parties].
    by rewrite filter_app, filter_cons_True. }
  rewrite Hparties.
  rewrite decide_False by (by destruct (parties_of (pending s) contract_id)).
  rewrite decide_False; [done|].
  unfold all_signed. rewrite Forall_app, Forall_singleton. by intros [_ ?].
Qed.

Lemma add_party_blocks_signing_witness :
  let payload :=
    {| AddPartyRequest.role := PartyRole.WITNESS;
       AddPartyRequest.name := "Eva";
       AddPartyRequest.email := "eva@example.org";
       AddPartyRequest.order := Some 5 |} in
  let added := add_party canonical_env alice signing_id payload canonical_session in
  added.1 = Return ()
  ∧ update_status canonical_env alice signing_id
      {| UpdateContractStatusRequest.status := ContractStatus.SIGNED;
         UpdateContractStatusRequest.reason := None |} added.2
    = (Raise (ServiceError 409 "Todas las partes deben estar SIGNED."), added.2).
Proof.
  apply (add_party_blocks_signing canonical_env canonical_env alice signing_id _ None
           canonical_session (sample_contract signing_id "SIGNING") eq_refl eq_refl eq_refl).
  split; vm_compute; discriminate.
Defined.

(** X11: removing the party that [add_party] has just added undoes the
    addition: [add_party] with a signing order that fits the 32-bit column
    succeeds, and when the identifier drawn for the new row, a canonical
    uuid text, is carried by no party of the contract already, [remove_party]
    with that identifier succeeds and the parties table is again what it was
    before the addition. *)
Theorem add_then_remove_party env env' user contract_id payload s c :
  repo.get_contract contract_id false s = (Return (Some c), s) →
  Contract.owner_user_id c = user_id user →
  Contract.status c ≠ "SIGNED" →
  int32 (assigned_order (pending s) contract_id payload) →
  let party_id := gen_random_uuid env (drawn s) in
  canonical_uuid party_id →
  filter (repo.party_matches contract_id party_id) (contract_parties (pending s)) = [] →
  let added := add_party env user contract_id payload s in
  let outcome := remove_party env' user contract_id party_id added.2 in
  added.1 = Return ()
  ∧ outcome.1 = Return ()
  ∧ contract_parties (pending outcome.2) = contract_parties (pending s)
  ∧ contract_parties (committed outcome.2) = contract_parties (pending s).
Proof.
  intros Hget Hown Hstatus _ party_id _ Hunused added outcome.
  pose proof (get_contract_live _ _ _ _ Hget) as Hrows.
  fold (live_rows (pending s) contract_id) in Hrows.
  subst outcome added. rewrite (add_party_service_run _ _ _ _ _ _ Hrows Hown).
  rewrite decide_False by done. cbn [fst snd].
  split; [reflexivity|].
  set (s' := after_add_party env user contract_id payload s).
  assert (live_rows (pending s') contract_id = [c]) as Hrows'.
  { rewrite <- Hrows. by apply live_rows_ext. }
  rewrite (remove_party_service_run _ _ _ _ _ _ Hrows' Hown).
  rewrite decide_False by done.
  unfold s', after_add_party. cbn [pending contract_parties].
  rewrite filter_app, Hunused, filter_cons_True by (by split).
  rewrite decide_False by done. cbn [fst snd].
  unfold after_remove_party. cbn [pending committed contract_parties].
  rewrite filter_app, (filter_complement_nil _ _ Hunused).
  rewrite filter_cons_False by (intros Hno; apply Hno; by split).
  by rewrite app_nil_r.
Qed.

Lemma add_then_remove_party_witness :
  let payload :=
    {| AddPartyRequest.role := PartyRole.GUEST;
       AddPartyRequest.name := "Luis";
       AddPartyRequest.email := "luis@example.org";
       AddPartyRequest.order := None |} in
  let added := add_party canonical_env alice draft_id payload canonical_session in
  let outcome :=
    remove_party canonical_env alice draft_id "f0000000-0000-4000-8000-000000000000"
      added.2 in
  added.1 = Return ()
  ∧ outcome.1 = Return ()
  ∧ contract_parties (pending outcome.2) = contract_parties (pending canonical_session)
  ∧ contract_parties (committed outcome.2) = contract_parties (pending canonical_session).
Proof.
  apply (add_then_remove_party canonical_env canonical_env alice draft_id _
           canonical_session (sample_contract draft_id "DRAFT") eq_refl eq_refl).
  - discriminate.
  - split; vm_compute; discriminate.
  - reflexivity.
  - reflexivity.
Defined.

(** ** Content round trips *)

(** A version row appended with a number above all others of the contract
    is the latest version. *)
Lemma latest_version_snoc db db' contract_id row :
  versions_of db' contract_id = versions_of db contract_id ++ [row] →
  (∀ v, v ∈ versions_of db contract_id →
     ContractVersion.version v < ContractVersion.version row) →
  latest_version_of db' contract_id = Some row.
Proof.
  intros Hrows Habove. unfold latest_version_of.
  destruct (head _) as [x|] eqn:Hhead.
  - apply order_by_head in Hhead as [Hin Hleast]. rewrite Hrows in Hin, Hleast.
    apply elem_of_app in Hin as [Hin|Hin%list_elem_of_singleton]; [|by subst].
    specialize (Habove x Hin).
    assert (row ∈ versions_of db contract_id ++ [row]) as Hrow
      by (apply elem_of_app; right; constructor).
    specialize (Hleast row Hrow). unfold desc in Hleast. lia.
  - apply head_None, order_by_nil_iff in Hhead. rewrite Hrows in Hhead.
    by destruct (versions_of db contract_id).
Qed.

(** What [get_contract_detail] returns when it returns. *)
Lemma get_contract_detail_inv user contract_id s detail s' :
  get_contract_detail user contract_id s = (Return detail, s') →
  ∃ c,
    live_rows (pending s) contract_id = [c]
    ∧ Contract.owner_user_id c = user_id user
    ∧ ContractDetailOut.content detail = current_content (pending s) contract_id
    ∧ (ContractOut_model_validate (Some c) s).1 = Return (ContractDetailOut.base detail)
    ∧ (mapM (M := Awaitable) ContractPartyOut_model_validate
         (order_by ContractParty.signing_order (parties_of (pending s) contract_id)) s).1
      = Return (ContractDetailOut.parties detail)
    ∧ ContractDetailOut.signatures detail = [].
Proof.
  unfold get_contract_detail. rewrite owned_preamble.
  destruct (live_rows (pending s) contract_id) as [|c [|c' rows]]; try done.
  case_decide as Hown; [|done]. intros Hrun. exists c.
  rewrite bind_run, get_latest_version_run in Hrun. cbv beta iota in Hrun.
  rewrite bind_run, list_parties_run in Hrun. cbv beta iota zeta in Hrun.
  rewrite bind_run, model_validate_session in Hrun.
  destruct (ContractOut_model_validate (Some c) s).1 as [base|e]; [|done].
  rewrite bind_run in Hrun.
  pose proof (reading_mapM ContractPartyOut_model_validate
                (order_by ContractParty.signing_order (parties_of (pending s) contract_id))
                reading_ContractPartyOut_model_validate s) as Hsame.
  destruct (mapM (M := Awaitable) _ _ s) as [[parties|e] s1]; [|done]. cbn in Hsame. subst s1.
  injection Hrun as <- <-. by split_and!.
Qed.

(** X12: after a successful [update_content] the submitted content is the
    current content of the contract, whatever versions it had and whatever
    its status (a SIGNED contract included): the new row carries a number
    above all others, [get_latest_version] selects it, and
    [get_contract_detail] returns its content.  The contracts table, and with
    it the status of the contract, is unchanged. *)
Theorem update_content_becomes_current env user contract_id payload s c :
  repo.get_contract contract_id false s = (Return (Some c), s) →
  Contract.owner_user_id c = user_id user →
  let outcome := update_content env user contract_id payload s in
  outcome.1 = Return ()
  ∧ contracts (pending outcome.2) = contracts (pending s)
  ∧ (∃ row,
       repo.get_latest_version contract_id outcome.2 = (Return (Some row), outcome.2)
       ∧ ContractVersion.content row = UpdateContractContentRequest.content payload
       ∧ ∀ v, v ∈ versions_of (pending s) contract_id →
           ContractVersion.version v < ContractVersion.version row)
  ∧ current_content (pending outcome.2) contract_id
    = UpdateContractContentRequest.content payload
  ∧ (∀ detail s',
       get_contract_detail user contract_id outcome.2 = (Return detail, s') →
       ContractDetailOut.content detail = UpdateContractContentRequest.content payload).
Proof.
  intros Hget Hown outcome. subst outcome.
  destruct (update_content_run env user contract_id payload s c Hget Hown)
    as (row & entry & -> & Hcid & Hver & Hcontent).
  cbn [fst snd]. set (s' := {| committed := _ |}).
  assert (∀ v, v ∈ versions_of (pending s) contract_id →
            ContractVersion.version v < ContractVersion.version row) as Habove.
  { intros v Hv. rewrite Hver.
    assert (ContractVersion.version v
            ≤ func_coalesce
                (func_max (ContractVersion.version <$> versions_of (pending s) contract_id))
                0); [|lia].
    apply func_max_upper. by apply list_elem_of_fmap_2. }
  assert (latest_version_of (pending s') contract_id = Some row) as Hlatest.
  { apply (latest_version_snoc (pending s)); [|exact Habove].
    unfold versions_of. cbn. by rewrite filter_app, filter_cons_True. }
  assert (current_content (pending s') contract_id
          = UpdateContractContentRequest.content payload) as Hcurrent.
  { unfold current_content. by rewrite Hlatest. }
  split_and!; try done.
  - exists row. rewrite get_latest_version_run, Hlatest. by split_and!.
  - intros detail s'' (c' & _ & _ & -> & _)%get_contract_detail_inv. exact Hcurrent.
Qed.

Lemma update_content_becomes_current_witness :
  let payload :=
    {| UpdateContractContentRequest.content := "<p>amended after signature</p>";
       UpdateContractContentRequest.source := Source.USER |} in
  let outcome := update_content sample_env alice "c-signed" payload sample_session in
  outcome.1 = Return ()
  ∧ current_content (pending outcome.2) "c-signed" = "<p>amended after signature</p>".
Proof.
  destruct (update_content_becomes_current sample_env alice "c-signed"
    {| UpdateContractContentRequest.content := "<p>amended after signature</p>";
       UpdateContractContentRequest.source := Source.USER |}
    sample_session (sample_contract "c-signed" "SIGNED") eq_refl eq_refl)
    as (Hok & _ & _ & Hcurrent & _).
  split; [exact Hok|exact Hcurrent].
Defined.

(** X13: a contract created by [create_contract] under an unused identifier
    is committed as a DRAFT owned by the requester with empty metadata, and
    reads back as such: [get_contract_detail] by its owner returns the
    contract with empty content, no party and no signature, and
    [get_transitions] advertises the three edges out of DRAFT. *)
Theorem create_contract_reads_back env user payload s :
  let new_id := gen_random_uuid env (drawn s) in
  unused_uuid (pending s) new_id →
  let outcome := create_contract env user payload s in
  ∃ out,
    outcome.1 = Return out
    ∧ committed outcome.2 = pending outcome.2
    ∧ ContractOut.id out = new_id
    ∧ ContractOut.title out = CreateContractRequest.title payload
    ∧ ContractOut.status out = ContractStatus.DRAFT
    ∧ ContractOut.owner_user_id out = user_id user
    ∧ (∃ c, repo.get_contract new_id false outcome.2 = (Return (Some c), outcome.2)
            ∧ Contract.metadata c = [] ∧ Contract.status c = "DRAFT")
    ∧ get_contract_detail user new_id outcome.2 =
        (Return {|
           ContractDetailOut.base := out;
           ContractDetailOut.content := "";
           ContractDetailOut.parties := [];
           ContractDetailOut.signatures := [];
           ContractDetailOut.document_url := None;
           ContractDetailOut.document_hash := None |}, outcome.2)
    ∧ get_transitions user new_id outcome.2 =
        (Return {| currentStatus := "DRAFT";
                   allowedTransitions := ["GENERATED"; "CANCELLED"; "EXPIRED"] |},
         outcome.2).
Proof.
  intros new_id (Hc & Hv & Hp) outcome. subst outcome.
  destruct (create_contract_service_run env user payload s)
    as (out & Hid & Hstatus & Howner & Hrun).
  cbv zeta in Hrun, Hid. rewrite Hrun. cbn [fst snd].
  match type of Hrun with _ = (_, ?final) => set (s' := final) in * end.
  set (c := {| Contract.id := gen_random_uuid env (drawn s) |}) in *.
  assert (live_rows (pending s') new_id = [c]) as Hrows.
  { unfold live_rows. cbn [s' pending contracts]. rewrite filter_app, Hc.
    cbn [app]. rewrite filter_cons_True by reflexivity. by rewrite filter_cons_True. }
  assert (out = {|
            ContractOut.id := new_id;
            ContractOut.title := CreateContractRequest.title payload;
            ContractOut.status := ContractStatus.DRAFT;
            ContractOut.template_id := CreateContractRequest.template_id payload;
            ContractOut.contract_type := CreateContractRequest.contract_type payload;
            ContractOut.owner_user_id := user_id user;
            ContractOut.created_at := now env;
            ContractOut.updated_at := now env;
            ContractOut.signed_at := None |}) as Hout.
  { clear -Hrun. by injection Hrun as <-. }
  exists out. split_and!; try done.
  - by rewrite Hout.
  - exists c. by rewrite get_contract_cases, Hrows.
  - unfold get_contract_detail. rewrite owned_preamble, Hrows, decide_True by done.
    rewrite bind_run, get_latest_version_run. cbv beta iota.
    rewrite bind_run, list_parties_run. cbv beta iota zeta.
    unfold latest_version_of, versions_of, parties_of.
    cbn [s' pending contract_versions contract_parties].
    fold (versions_of (pending s) new_id). fold (parties_of (pending s) new_id).
    rewrite Hv, Hp, Hout. reflexivity.
  - unfold get_transitions. rewrite owned_preamble, Hrows, decide_True by done.
    reflexivity.
Qed.

Lemma create_contract_reads_back_witness :
  let payload :=
    {| CreateContractRequest.title := "NDA";
       CreateContractRequest.template_id := "tpl-2";
       CreateContractRequest.contract_type := "NDA" |} in
  let outcome := create_contract sample_env alice payload sample_session in
  ∃ out,
    outcome.1 = Return out
    ∧ ContractOut.id out = "uuid-0"
    ∧ ContractOut.status out = ContractStatus.DRAFT.
Proof.
  destruct (create_contract_reads_back sample_env alice
    {| CreateContractRequest.title := "NDA";
       CreateContractRequest.template_id := "tpl-2";
       CreateContractRequest.contract_type := "NDA" |}
    sample_session (conj eq_refl (conj eq_refl eq_refl)))
    as (out & Hok & _ & Hid & _ & Hstatus & _).
  exists out. split_and!; [exact Hok|exact Hid|exact Hstatus].
Defined.

(** ** Dashboard figures *)

Lemma filter_length_split (k : string) (l : list string) :
  (length (filter (λ x, x = k) l) + length (filter (λ x, x ≠ k) l) = length l)%nat.
Proof.
  induction l as [|x l IH]; [done|].
  destruct (decide (x = k)) as [->|Hne].
  - rewrite filter_cons_True by done. rewrite filter_cons_False by (intros H; by apply H).
    cbn. lia.
  - rewrite filter_cons_False by done. rewrite filter_cons_True by done. cbn. lia.
Qed.

(** Counting the rows of each group of a [GROUP BY] counts every row once. *)
Lemma sum_group_counts (ks l : list string) :
  NoDup ks → (∀ x, x ∈ l → x ∈ ks) →
  foldr Z.add 0 ((λ k, Z.of_nat (length (filter (λ x, x = k) l))) <$> ks)
  = Z.of_nat (length l).
Proof.
  intros Hnodup. revert l. induction Hnodup as [|k ks Hk Hnodup IH]; intros l Hl.
  - destruct l as [|x l]; [done|]. specialize (Hl x). rewrite elem_of_nil in Hl.
    exfalso. apply Hl. constructor.
  - cbn [fmap list_fmap foldr].
    replace ((λ k0, Z.of_nat (length (filter (λ x, x = k0) l))) <$> ks)
      with ((λ k0, Z.of_nat (length (filter (λ x, x = k0) (filter (λ x, x ≠ k) l)))) <$> ks).
    + rewrite IH.
      * pose proof (filter_length_split k l) as Hlen. lia.
      * intros x [Hne Hx]%list_elem_of_filter. specialize (Hl x Hx).
        apply elem_of_cons in Hl as [->|Hl]; done.
    + apply list_fmap_ext. intros i k0 Hi. f_equal. f_equal.
      rewrite list_filter_filter. apply list_filter_iff. intros x. split.
      * by intros [? ?].
      * intros ->. split; [done|]. intros ->. apply Hk. by eapply list_elem_of_lookup_2.
Qed.

(** The counts of a [GROUP BY] dictionary add up to the number of rows. *)
Lemma sum_status_counts (statuses : list string) :
  sum_values (list_to_map
    ((λ st, (st, Z.of_nat (length (filter (λ x, x = st) statuses))))
       <$> remove_dups statuses))
  = Z.of_nat (length statuses).
Proof.
  set (rows := (λ st, (st, Z.of_nat (length (filter (λ x, x = st) statuses))))
                 <$> remove_dups statuses).
  assert (rows.*1 = remove_dups statuses) as Hkeys.
  { unfold rows. rewrite <- list_fmap_compose. apply list_fmap_id. }
  assert (NoDup rows.*1) as Hnodup by (rewrite Hkeys; apply NoDup_remove_dups).
  unfold sum_values.
  assert (Proper (Permutation ==> (=)) (foldr Z.add 0)) as Hproper.
  { apply (foldr_permutation_proper (=)); [apply _|intros; lia]. }
  trans (foldr Z.add 0 (rows.*2)).
  - apply Hproper, fmap_Permutation. by apply map_to_list_to_map.
  - unfold rows. rewrite <- list_fmap_compose.
    change (snd ∘ _) with (λ st : string, Z.of_nat (length (filter (λ x, x = st) statuses))).
    apply sum_group_counts.
    + apply NoDup_remove_dups.
    + intros x Hx. by apply elem_of_remove_dups.
Qed.

Lemma stats_run env date_trunc user s :
  stats env date_trunc user s =
  (Return {|
     ContractStatsOut.total :=
       sum_values (list_to_map
         ((λ st, (st, Z.of_nat (length (filter (λ x, x = st)
                    (Contract.status <$> owned_contracts (pending s) (user_id user))))))
          <$> remove_dups (Contract.status <$> owned_contracts (pending s) (user_id user))));
     ContractStatsOut.by_status :=
       list_to_map
         ((λ st, (st, Z.of_nat (length (filter (λ x, x = st)
                    (Contract.status <$> owned_contracts (pending s) (user_id user))))))
          <$> remove_dups (Contract.status <$> owned_contracts (pending s) (user_id user)));
     ContractStatsOut.pending_signatures :=
       Z.of_nat (length (filter (repo.unsigned_party_exists (pending s))
         (owned_with_status (pending s) (user_id user) "SIGNING")));
     ContractStatsOut.signed_this_month :=
       Z.of_nat (length (filter (repo.signed_since (date_trunc "month" (now env)))
         (owned_with_status (pending s) (user_id user) "SIGNED"))) |}, s).
Proof. reflexivity. Qed.

Lemma status_count_owned db owner st :
  length (filter (λ x, x = st) (Contract.status <$> owned_contracts db owner))
  = length (owned_with_status db owner st).
Proof.
  unfold owned_with_status.
  induction (owned_contracts db owner) as [|c l IH]; [done|]. rewrite fmap_cons.
  destruct (decide (Contract.status c = st)) as [Heq|Hne].
  - rewrite !filter_cons_True by done. cbn. by rewrite IH.
  - by rewrite !filter_cons_False by done.
Qed.

(** X14: [stats] never raises and changes nothing.  Its total is the number
    of contracts of the requester that are not soft deleted; the dictionary
    holds, for each status that at least one of them has, their number, and
    no entry (rather than a zero) for any other status; contracts of other
    users and soft deleted ones are not counted.  The pending signature
    count is at most the number of SIGNING contracts and the signed this
    month count at most the number of SIGNED ones. *)
Theorem stats_outcome env date_trunc user s :
  ∃ out,
    stats env date_trunc user s = (Return out, s)
    ∧ ContractStatsOut.total out
      = Z.of_nat (length (owned_contracts (pending s) (user_id user)))
    ∧ (∀ st,
         ContractStatsOut.by_status out !! st =
         match owned_with_status (pending s) (user_id user) st with
         | [] => None
         | rows => Some (Z.of_nat (length rows))
         end)
    ∧ 0 ≤ ContractStatsOut.pending_signatures out
        ≤ Z.of_nat (length (owned_with_status (pending s) (user_id user) "SIGNING"))
    ∧ 0 ≤ ContractStatsOut.signed_this_month out
        ≤ Z.of_nat (length (owned_with_status (pending s) (user_id user) "SIGNED")).
Proof.
  eexists. split; [apply stats_run|]. cbn [ContractStatsOut.total
    ContractStatsOut.by_status ContractStatsOut.pending_signatures
    ContractStatsOut.signed_this_month].
  set (statuses := Contract.status <$> owned_contracts (pending s) (user_id user)).
  set (rows := (λ st, (st, Z.of_nat (length (filter (λ x, x = st) statuses))))
                 <$> remove_dups statuses).
  assert (rows.*1 = remove_dups statuses) as Hkeys.
  { unfold rows. rewrite <- list_fmap_compose. apply list_fmap_id. }
  assert (NoDup rows.*1) as Hnodup by (rewrite Hkeys; apply NoDup_remove_dups).
  split_and!.
  - unfold rows. rewrite sum_status_counts. unfold statuses. by rewrite length_fmap.
  - intros st.
    pose proof (status_count_owned (pending s) (user_id user) st) as Hcount.
    fold statuses in Hcount.
    destruct (owned_with_status (pending s) (user_id user) st) as [|c rest] eqn:Hrows.
    + apply not_elem_of_list_to_map. rewrite Hkeys, elem_of_remove_dups.
      intros Hin. assert (st ∈ filter (λ x, x = st) statuses) as Hst
        by (by apply list_elem_of_filter).
      destruct (filter (λ x, x = st) statuses); [by apply elem_of_nil in Hst|done].
    + rewrite <- Hcount.
      apply elem_of_list_to_map; [done|].
      unfold rows. apply list_elem_of_fmap. exists st. split; [reflexivity|].
      apply elem_of_remove_dups.
      destruct (filter (λ x, x = st) statuses) as [|x xs] eqn:Hf; [done|].
      assert (x ∈ filter (λ x, x = st) statuses) as [-> Hin]%list_elem_of_filter
        by (rewrite Hf; constructor).
      done.
  - lia.
  - pose proof (length_filter (repo.unsigned_party_exists (pending s))
                  (owned_with_status (pending s) (user_id user) "SIGNING")). lia.
  - lia.
  - pose proof (length_filter (repo.signed_since (date_trunc "month" (now env)))
                  (owned_with_status (pending s) (user_id user) "SIGNED")). lia.
Qed.

(** ** Listings *)

Lemma mapM_Return_inv {A B} (f : A → Awaitable B) (l : list A) s outs s' :
  (∀ x, reading (f x)) →
  mapM f l s = (Return outs, s') →
  s' = s ∧ Forall2 (λ x y, (f x s).1 = Return y) l outs.
Proof.
  intros Hf. revert outs s'. induction l as [|x l IH]; intros outs s'; cbn [mapM].
  - intros [= <- <-]. by split.
  - rewrite bind_run. pose proof (Hf x s) as Hx.
    destruct (f x s) as [[y|e] s1] eqn:Hfx; [|done]. cbn in Hx. subst s1.
    rewrite bind_run.
    destruct (mapM f l s) as [[ys|e] s1] eqn:Hrest; [|done].
    destruct (IH ys s1 eq_refl) as [-> Hall].
    intros [= <- <-]. split; [done|]. constructor; [by rewrite Hfx|done].
Qed.

Lemma ContractStatus_of_value_inv st x :
  ContractStatus.of_value st = Some x → ContractStatus.value x = st.
Proof.
  unfold ContractStatus.of_value. intros Hhead.
  assert (x ∈ filter (λ x, ContractStatus.value x = st) ContractStatus.all) as Hin.
  { destruct (filter _ _) as [|y l]; [done|]. injection Hhead as ->. constructor. }
  by apply list_elem_of_filter in Hin as [? _].
Qed.

Lemma PartyRole_of_value_inv st x :
  PartyRole.of_value st = Some x → PartyRole.value x = st.
Proof.
  unfold PartyRole.of_value. intros Hhead.
  assert (x ∈ filter (λ x, PartyRole.value x = st) PartyRole.all) as Hin.
  { destruct (filter _ _) as [|y l]; [done|]. injection Hhead as ->. constructor. }
  by apply list_elem_of_filter in Hin as [? _].
Qed.

Lemma SignatureStatus_of_value_inv st x :
  SignatureStatus.of_value st = Some x → SignatureStatus.value x = st.
Proof.
  unfold SignatureStatus.of_value. intros Hhead.
  assert (x ∈ filter (λ x, SignatureStatus.value x = st) SignatureStatus.all) as Hin.
  { destruct (filter _ _) as [|y l]; [done|]. injection Hhead as ->. constructor. }
  by apply list_elem_of_filter in Hin as [? _].
Qed.

Lemma ContractOut_model_validate_view c s out :
  (ContractOut_model_validate (Some c) s).1 = Return out → contract_view c out.
Proof.
  cbn. destruct (ContractStatus.of_value (Contract.status c)) as [st|] eqn:Hst; [|done].
  intros [= <-]. apply ContractStatus_of_value_inv in Hst. by repeat split.
Qed.

Lemma ContractPartyOut_model_validate_view p s out :
  (ContractPartyOut_model_validate p s).1 = Return out → party_view p out.
Proof.
  unfold ContractPartyOut_model_validate.
  destruct (PartyRole.of_value (ContractParty.role p)) as [r|] eqn:Hr; [|done].
  destruct (SignatureStatus.of_value (ContractParty.signature_status p)) as [st|] eqn:Hst;
    [|done].
  intros [= <-]. apply PartyRole_of_value_inv in Hr.
  apply SignatureStatus_of_value_inv in Hst. by repeat split.
Qed.

Lemma ContractVersionOut_model_validate_view v s out :
  (ContractVersionOut_model_validate v s).1 = Return out → version_view v out.
Proof.
  unfold ContractVersionOut_model_validate.
  repeat case_decide; [| |done]; intros [= <-]; by repeat split.
Qed.

(** A list of validated contracts shows the rows it was made from. *)
Lemma mapM_contract_view rows s outs s' :
  mapM (M := Awaitable) (λ contract, ContractOut_model_validate (Some contract)) rows s
    = (Return outs, s') →
  s' = s ∧ Forall2 contract_view rows outs.
Proof.
  intros [-> Hall]%mapM_Return_inv.
  - split; [done|]. eapply Forall2_impl; [exact Hall|]. intros c out.
    apply ContractOut_model_validate_view.
  - intros c. apply reading_ContractOut_model_validate.
Qed.

Lemma Forall2_sorted_by {A B} (R : A → B → Prop) (ka : A → Z) (kb : B → Z) l k :
  (∀ x y, R x y → kb y = ka x) →
  Forall2 R l k →
  StronglySorted (λ a b, ka a ≤ ka b) l →
  StronglySorted (λ a b, kb a ≤ kb b) k.
Proof.
  intros Hkey Hall Hsorted. apply sorted_by_key. apply sorted_by_key in Hsorted.
  replace (kb <$> k) with (ka <$> l); [done|].
  clear Hsorted. induction Hall as [|x y l k Hxy _ IH]; [done|].
  cbn. by rewrite IH, (Hkey x y Hxy).
Qed.

Lemma StronglySorted_weaken {A} (R1 R2 : A → A → Prop) l :
  (∀ x y, R1 x y → R2 x y) → StronglySorted R1 l → StronglySorted R2 l.
Proof.
  intros HR. induction 1 as [|x l _ IH Hx]; constructor; [done|].
  eapply Forall_impl; [exact Hx|]. intros y. apply HR.
Qed.

(** Rows sorted by [desc] of a column are shown in descending order of it. *)
Lemma shown_descending {A B} (R : A → B → Prop) (ka : A → Z) (kb : B → Z) l k :
  (∀ x y, R x y → kb y = ka x) →
  Forall2 R (order_by (desc ka) l) k →
  StronglySorted (λ a b, kb b ≤ kb a) k.
Proof.
  intros Hkey Hall.
  apply (StronglySorted_weaken (λ a b, - kb a ≤ - kb b)); [intros; lia|].
  eapply (Forall2_sorted_by R (desc ka)); [|exact Hall|apply order_by_sorted].
  intros x y Hxy. unfold desc. by rewrite (Hkey x y Hxy).
Qed.

Lemma list_pending_contracts_run user s :
  list_pending_contracts user s =
  mapM (M := Awaitable) (λ contract, ContractOut_model_validate (Some contract))
    (order_by (desc Contract.updated_at) (pending_contracts (pending s) (user_id user))) s.
Proof. reflexivity. Qed.

(** X15: when [list_pending_contracts] returns, the session is unchanged and
    the list shows, most recently updated first, the SIGNING contracts of
    the requester that have a party who has not signed; its length is the
    number [count_pending_signatures] reports; and each listed contract is
    one that [update_status] refuses to move to SIGNED, with 409. *)
Theorem pending_contracts_await_signatures env user s outs s' :
  list_pending_contracts user s = (Return outs, s') →
  s' = s
  ∧ Forall2 contract_view
      (order_by (desc Contract.updated_at) (pending_contracts (pending s) (user_id user)))
      outs
  ∧ Forall (λ out, ContractOut.status out = ContractStatus.SIGNING
                   ∧ ContractOut.owner_user_id out = user_id user) outs
  ∧ StronglySorted (λ a b, ContractOut.updated_at b ≤ ContractOut.updated_at a) outs
  ∧ repo.count_pending_signatures (user_id user) s = (Return (Z.of_nat (length outs)), s)
  ∧ (∀ out c payload,
       out ∈ outs →
       live_rows (pending s) (ContractOut.id out) = [c] →
       UpdateContractStatusRequest.status payload = ContractStatus.SIGNED →
       update_status env user (ContractOut.id out) payload s =
         (Raise (ServiceError 409 "Todas las partes deben estar SIGNED."), s)).
Proof.
  rewrite list_pending_contracts_run. intros [-> Hviews]%mapM_contract_view.
  set (rows := order_by _ _) in *.
  assert (∀ c, c ∈ rows →
            c ∈ contracts (pending s) ∧ Contract.owner_user_id c = user_id user
            ∧ Contract.deleted_at c = None ∧ Contract.status c = "SIGNING"
            ∧ repo.unsigned_party_exists (pending s) c) as Hrows.
  { intros c Hc. unfold rows in Hc. rewrite order_by_perm in Hc.
    unfold pending_contracts, owned_with_status, owned_contracts in Hc.
    apply list_elem_of_filter in Hc as [Hunsigned Hc].
    apply list_elem_of_filter in Hc as [Hstatus Hc].
    apply list_elem_of_filter in Hc as [Hlive Hc].
    apply list_elem_of_filter in Hc as [Hown Hc]. done. }
  split_and!.
  - done.
  - exact Hviews.
  - apply Forall_forall. intros out Hout.
    destruct (proj1 (list_elem_of_lookup _ _) Hout) as [i Hi].
    destruct (Forall2_lookup_r _ _ _ _ _ Hviews Hi) as (c & Hc & Hview).
    apply list_elem_of_lookup_2, Hrows in Hc as (_ & Hown & _ & Hstatus & _).
    destruct Hview as (_ & _ & Hst & _ & _ & Howner & _). split; [|congruence].
    rewrite Hstatus in Hst. by destruct (ContractOut.status out).
  - eapply (shown_descending contract_view Contract.updated_at); [|exact Hviews].
    by intros c out (_ & _ & _ & _ & _ & _ & _ & Hup & _).
  - unfold repo.count_pending_signatures, execute. do 3 f_equal.
    apply Forall2_length in Hviews. rewrite <- Hviews. unfold rows.
    by rewrite order_by_perm.
  - intros out c payload Hout Hlive Htarget.
    destruct (proj1 (list_elem_of_lookup _ _) Hout) as [i Hi].
    destruct (Forall2_lookup_r _ _ _ _ _ Hviews Hi) as (c0 & Hc0 & Hview).
    apply list_elem_of_lookup_2, Hrows in Hc0
      as (Hin & Hown & Hdel & Hstatus & Hunsigned).
    destruct Hview as (Hid & _).
    assert (c0 ∈ live_rows (pending s) (ContractOut.id out)) as Hc0.
    { unfold live_rows. apply list_elem_of_filter. split; [done|].
      apply list_elem_of_filter. by split. }
    rewrite Hlive in Hc0. apply list_elem_of_singleton in Hc0 as ->.
    rewrite (update_status_run env user _ payload s c (get_contract_found _ _ _ Hlive) Hown).
    cbv zeta. rewrite Htarget, Hstatus. cbn [ContractStatus.value].
    unfold repo.unsigned_party_exists in Hunsigned. rewrite <- Hid in Hunsigned.
    fold (parties_of (pending s) (ContractOut.id out)) in Hunsigned.
    assert (¬ all_signed (parties_of (pending s) (ContractOut.id out))) as Hnot.
    { unfold all_signed. intros Hall. apply Hunsigned. clear -Hall.
      induction Hall as [|p l Hp _ IH]; [done|].
      by rewrite filter_cons_False by (intros H; by apply H). }
    assert (parties_of (pending s) (ContractOut.id out) ≠ []) as Hsome.
    { intros Hnil. rewrite Hnil in Hunsigned. by apply Hunsigned. }
    repeat case_decide; try done.
    + by destruct H1 as [[=] _].
    + exfalso. apply H0. cbn. constructor.
Qed.

Lemma pending_contracts_await_signatures_witness :
  ∃ outs,
    list_pending_contracts alice sample_pending_session = (Return outs, sample_pending_session)
    ∧ ContractOut.id <$> outs = ["c-signing"]
    ∧ repo.count_pending_signatures "alice" sample_pending_session
      = (Return 1, sample_pending_session).
Proof.
  eexists. split; [reflexivity|]. split; [reflexivity|].
  exact (proj1 (proj2 (proj2 (proj2 (proj2
    (pending_contracts_await_signatures sample_env alice sample_pending_session _ _
       eq_refl)))))).
Defined.

Lemma list_recent_contracts_run user s :
  list_recent_contracts user s =
  mapM (M := Awaitable) (λ contract, ContractOut_model_validate (Some contract))
    (take 10 (order_by (desc Contract.created_at)
       (owned_contracts (pending s) (user_id user)))) s.
Proof. reflexivity. Qed.

(** X16: when [list_recent_contracts] returns, the session is unchanged and
    the list shows at most ten contracts, all owned by the requester and not
    soft deleted, newest first: ten when the requester has at least ten, all
    of them otherwise; and no contract left out was created after a listed
    one. *)
Theorem recent_contracts_outcome user s outs s' :
  list_recent_contracts user s = (Return outs, s') →
  s' = s
  ∧ length outs = (length (owned_contracts (pending s) (user_id user)) `min` 10)%nat
  ∧ StronglySorted (λ a b, ContractOut.created_at b ≤ ContractOut.created_at a) outs
  ∧ ∃ rows rest,
      Forall2 contract_view rows outs
      ∧ rows ++ rest ≡ₚ owned_contracts (pending s) (user_id user)
      ∧ (∀ r c, r ∈ rows → c ∈ rest → Contract.created_at c ≤ Contract.created_at r).
Proof.
  rewrite list_recent_contracts_run. intros [-> Hviews]%mapM_contract_view.
  set (sorted := order_by (desc Contract.created_at)
                   (owned_contracts (pending s) (user_id user))) in *.
  pose proof (order_by_sorted (desc Contract.created_at)
                (owned_contracts (pending s) (user_id user))) as Hsorted.
  fold sorted in Hsorted. rewrite <- (take_drop 10 sorted) in Hsorted.
  apply StronglySorted_app in Hsorted as (Hcross & Htake & _).
  split_and!.
  - done.
  - apply Forall2_length in Hviews. rewrite <- Hviews, length_take. unfold sorted.
    rewrite order_by_perm. lia.
  - apply (StronglySorted_weaken
             (λ a b, - ContractOut.created_at a ≤ - ContractOut.created_at b));
      [intros; lia|].
    eapply (Forall2_sorted_by contract_view (desc Contract.created_at));
      [|exact Hviews|exact Htake].
    intros c out (_ & _ & _ & _ & _ & _ & Hcreated & _). unfold desc. by rewrite Hcreated.
  - exists (take 10 sorted), (drop 10 sorted). split_and!.
    + exact Hviews.
    + rewrite take_drop. apply order_by_perm.
    + intros r c Hr Hc. specialize (Hcross r c Hr Hc). unfold desc in Hcross. lia.
Qed.

Lemma recent_contracts_outcome_witness :
  ∃ outs,
    list_recent_contracts alice sample_session = (Return outs, sample_session)
    ∧ length outs = 4%nat.
Proof.
  eexists. split; [reflexivity|].
  exact (proj1 (proj2 (recent_contracts_outcome alice sample_session _ _ eq_refl))).
Defined.

(** ** The version history *)

Lemma reverse_seqZ_sorted (m : nat) :
  StronglySorted (λ a b, b ≤ a) (reverse (seqZ 1 (Z.of_nat m))).
Proof.
  induction m as [|m IH]; [constructor|].
  rewrite seqZ_S, reverse_snoc. constructor; [exact IH|].
  apply Forall_forall. intros y Hy. rewrite elem_of_reverse, elem_of_seqZ in Hy. lia.
Qed.

Lemma list_versions_inv user contract_id s outs s' :
  list_versions user contract_id s = (Return outs, s') →
  s' = s
  ∧ Forall2 version_view
      (order_by (desc ContractVersion.version) (versions_of (pending s) contract_id)) outs.
Proof.
  unfold list_versions. rewrite owned_preamble.
  destruct (live_rows (pending s) contract_id) as [|c [|c' rows]]; try done.
  case_decide as Hown; [|done]. rewrite bind_run.
  change (repo.list_versions contract_id s) with
    (Return (order_by (desc ContractVersion.version)
               (versions_of (pending s) contract_id)), s).
  cbv beta iota. intros [-> Hall]%mapM_Return_inv.
  - split; [done|]. eapply Forall2_impl; [exact Hall|]. intros v out.
    apply ContractVersionOut_model_validate_view.
  - apply reading_ContractVersionOut_model_validate.
Qed.

(** X17: when [list_versions] returns, the session is unchanged and the
    list shows every version row of the contract exactly once, the highest
    number first; its first element carries the current content of the
    contract (the content [get_contract_detail] and [bulk_download] use).
    When the versions of the contract are numbered 1, 2, ..., as
    [update_content] and [duplicate_contract] number them, the list carries
    the numbers n, n-1, ..., 1. *)
Theorem list_versions_outcome user contract_id s outs s' :
  list_versions user contract_id s = (Return outs, s') →
  s' = s
  ∧ (∃ rows, rows ≡ₚ versions_of (pending s) contract_id ∧ Forall2 version_view rows outs)
  ∧ StronglySorted (λ a b, ContractVersionOut.version b ≤ ContractVersionOut.version a) outs
  ∧ current_content (pending s) contract_id
    = match outs with
      | [] => ""
      | out :: _ => ContractVersionOut.content out
      end
  ∧ (versions_numbered (pending s) →
     ContractVersionOut.version <$> outs
     = reverse (seqZ 1 (Z.of_nat (length outs)))).
Proof.
  intros [-> Hviews]%list_versions_inv.
  assert (ContractVersionOut.version <$> outs
          = ContractVersion.version
              <$> order_by (desc ContractVersion.version)
                    (versions_of (pending s) contract_id)) as Hnumbers.
  { clear -Hviews. induction Hviews as [|v out vs outs Hview _ IH]; [done|].
    cbn. rewrite IH. by destruct Hview as (-> & _). }
  assert (StronglySorted (λ a b, ContractVersionOut.version b ≤ ContractVersionOut.version a)
            outs) as Hsorted.
  { eapply (shown_descending version_view ContractVersion.version); [|exact Hviews].
    by intros v out (Hv & _). }
  split_and!.
  - done.
  - eexists. split; [apply order_by_perm|exact Hviews].
  - exact Hsorted.
  - unfold current_content, latest_version_of.
    destruct Hviews as [|v out vs outs' Hview _]; [done|]. cbn.
    by destruct Hview as (_ & -> & _).
  - intros Hnumbered. destruct (Hnumbered contract_id) as [m Hm].
    assert (length outs = m) as Hlen.
    { apply Forall2_length in Hviews. rewrite <- Hviews, order_by_perm.
      rewrite <- (length_fmap ContractVersion.version), Hm, length_seqZ. lia. }
    rewrite Hlen.
    apply (StronglySorted_unique_strong (λ a b : Z, b ≤ a)).
    + intros a b _ _ ? ?. lia.
    + clear -Hsorted. induction Hsorted as [|out outs' _ IH Hout]; [constructor|].
      cbn. constructor; [exact IH|]. rewrite Forall_fmap. exact Hout.
    + apply reverse_seqZ_sorted.
    + rewrite Hnumbers, order_by_perm, Hm. by rewrite reverse_Permutation.
Qed.

Lemma list_versions_outcome_witness :
  ∃ outs,
    list_versions alice "c-draft" sample_session = (Return outs, sample_session)
    ∧ current_content (pending sample_session) "c-draft"
      = match outs with
        | [] => ""
        | out :: _ => ContractVersionOut.content out
        end.
Proof.
  eexists. split; [reflexivity|].
  exact (proj1 (proj2 (proj2 (proj2
    (list_versions_outcome alice "c-draft" sample_session _ _ eq_refl))))).
Defined.

(** ** The public view *)

(** The first row of a sorted list that satisfies [P] comes before every
    other row that does. *)
Lemma head_filter_sorted {A} (R : A → A → Prop) (P : A → Prop) `{!∀ x, Decision (P x)}
    (l : list A) p :
  StronglySorted R l → head (filter P l) = Some p →
  p ∈ l ∧ P p ∧ ∀ q, q ∈ l → P q → q = p ∨ R p q.
Proof.
  induction 1 as [|x l _ IH Hx]; [done|]. rewrite filter_cons.
  destruct (decide (P x)) as [HPx|HPx].
  - intros [= ->]. split_and!; [constructor|done|].
    intros q [->|Hq]%elem_of_cons _; [by left|right].
    by apply (proj1 (Forall_forall _ _) Hx).
  - intros Hhead. destruct (IH Hhead) as (Hp & HPp & Hleast). split_and!.
    + by constructor.
    + done.
    + intros q [->|Hq]%elem_of_cons HPq; [done|]. by apply Hleast.
Qed.

(** X18: [public_view] of a contract that exists, whoever owns it and
    whatever the token, raises 404 when the contract has no party.
    Otherwise, when it returns, the session is unchanged, the view carries
    the id and title of the contract and its current content, and the party
    shown is a party of the contract: one that has not signed and has the
    least signing order among those that have not, when there is one, and
    the party with the least signing order when all have signed. *)
Theorem public_view_outcome contract_id token s c :
  live_rows (pending s) contract_id = [c] →
  let parties := parties_of (pending s) contract_id in
  (parties = [] →
   public_view contract_id token s =
     (Raise (ServiceError 404 "No hay partes registradas para este contrato."), s))
  ∧ (∀ out s',
       public_view contract_id token s = (Return out, s') →
       s' = s
       ∧ PublicContractViewOut.id out = Contract.id c
       ∧ PublicContractViewOut.title out = Contract.title c
       ∧ PublicContractViewOut.content out = current_content (pending s) contract_id
       ∧ PublicContractViewOut.document_url out = None
       ∧ ∃ p,
           p ∈ parties
           ∧ party_view p (PublicContractViewOut.party out)
           ∧ (∀ q, q ∈ parties → ContractParty.signature_status q ≠ "SIGNED" →
                ContractParty.signature_status p ≠ "SIGNED"
                ∧ ContractParty.signing_order p ≤ ContractParty.signing_order q)
           ∧ (all_signed parties →
              ∀ q, q ∈ parties →
                ContractParty.signing_order p ≤ ContractParty.signing_order q)).
Proof.
  intros Hrows parties.
  assert (public_view contract_id token s =
    match order_by ContractParty.signing_order parties with
    | [] => (Raise (ServiceError 404 "No hay partes registradas para este contrato."), s)
    | first_party :: rest =>
      (party ← ContractPartyOut_model_validate
         (default first_party
            (head (filter (λ p, ContractParty.signature_status p ≠ "SIGNED")
                     (first_party :: rest))));
       mret {|
         PublicContractViewOut.id := Contract.id c;
         PublicContractViewOut.title := Contract.title c;
         PublicContractViewOut.content := current_content (pending s) contract_id;
         PublicContractViewOut.party := party;
         PublicContractViewOut.document_url := None |}) s
    end) as ->.
  { unfold public_view.
    rewrite (bind_Return _ _ _ _ _ (get_contract_found _ _ _ Hrows)).
    rewrite raise_if_none_bind, bind_run, get_latest_version_run. cbv beta iota.
    rewrite bind_run, list_parties_run. cbv beta iota. fold parties.
    by destruct (order_by _ parties). }
  pose proof (order_by_sorted ContractParty.signing_order parties) as Hsorted.
  pose proof (order_by_perm ContractParty.signing_order parties) as Hperm.
  destruct (order_by ContractParty.signing_order parties) as [|first_party rest].
  { split; [done|]. intros out s' [=]. }
  split.
  { intros Hnil. rewrite Hnil in Hperm. by apply Permutation_nil_r in Hperm. }
  intros out s'. rewrite bind_run.
  set (sorted := first_party :: rest) in *.
  set (selected := default first_party _).
  pose proof (reading_ContractPartyOut_model_validate selected s) as Hsame.
  pose proof (ContractPartyOut_model_validate_view selected s) as Hview.
  destruct (ContractPartyOut_model_validate selected s) as [[party|e] s1]; [|done].
  cbn in Hsame. subst s1. intros [= <- <-]. split_and!; try done.
  exists selected. cbn [PublicContractViewOut.party].
  destruct (head (filter (λ p, ContractParty.signature_status p ≠ "SIGNED") sorted))
    as [p|] eqn:Hhead.
  - destruct (head_filter_sorted _ _ _ _ Hsorted Hhead) as (Hp & Hunsigned & Hleast).
    subst selected. try rewrite Hhead. cbn [default]. split_and!.
    + by rewrite <- Hperm.
    + by apply Hview.
    + intros q Hq Hq'. split; [done|]. rewrite <- Hperm in Hq.
      destruct (Hleast q Hq Hq') as [->|Hle]; [reflexivity|exact Hle].
    + intros Hall. exfalso. apply Hunsigned. unfold all_signed in Hall.
      rewrite <- Hperm in Hall. by apply (proj1 (Forall_forall _ _) Hall).
  - subst selected. try rewrite Hhead. cbn [default].
    assert (∀ q, q ∈ parties →
              ContractParty.signing_order first_party ≤ ContractParty.signing_order q)
      as Hfirst.
    { intros q Hq. rewrite <- Hperm in Hq. unfold sorted in Hsorted.
      apply StronglySorted_inv in Hsorted as [_ Hall].
      apply elem_of_cons in Hq as [->|Hq]; [lia|].
      by apply (proj1 (Forall_forall _ _) Hall). }
    split_and!.
    + rewrite <- Hperm. constructor.
    + by apply Hview.
    + intros q Hq Hq'. exfalso. rewrite <- Hperm in Hq.
      assert (q ∈ filter (λ p, ContractParty.signature_status p ≠ "SIGNED") sorted) as Hin
        by (by apply list_elem_of_filter).
      apply head_None in Hhead. rewrite Hhead in Hin. by apply elem_of_nil in Hin.
    + intros _. exact Hfirst.
Qed.

Lemma public_view_outcome_witness :
  ∃ out,
    public_view "c-signing" "any token" sample_pending_session
      = (Return out, sample_pending_session)
    ∧ ContractPartyOut.id (PublicContractViewOut.party out) = "p-4"
    ∧ PublicContractViewOut.id out = "c-signing".
Proof.
  eexists. split; [reflexivity|]. split; [reflexivity|].
  exact (proj1 (proj2 (proj2
    (public_view_outcome "c-signing" "any token" sample_pending_session
       (sample_contract "c-signing" "SIGNING") eq_refl) _ _ eq_refl))).
Defined.

(** ** Use cases keep to their contract *)

Lemma update_content_effect env user contract_id payload s c :
  repo.get_contract contract_id false s = (Return (Some c), s) →
  Contract.owner_user_id c = user_id user →
  ∃ row entry,
    update_content env user contract_id payload s =
      (Return (),
       let db := {|
         contracts := contracts (pending s);
         contract_versions := contract_versions (pending s) ++ [row];
         contract_parties := contract_parties (pending s);
         activity_logs := activity_logs (pending s) ++ [entry] |} in
       {| committed := db; pending := db; drawn := S (S (drawn s)) |})
    ∧ ContractVersion.contract_id row = contract_id
    ∧ filed_by env user contract_id entry.
Proof.
  intros Hget Hown. unfold update_content.
  enter_owned Hget Hown.
  rewrite bind_run, get_next_version_number_run.
  eexists _, _. split; [reflexivity|]. by repeat split.
Qed.

Lemma duplicate_contract_effect env user contract_id s c :
  repo.get_contract contract_id false s = (Return (Some c), s) →
  Contract.owner_user_id c = user_id user →
  let new_id := gen_random_uuid env (drawn s) in
  ∃ out copy version_rows copies entry n,
    duplicate_contract env user contract_id s =
      (Return out,
       let db := {|
         contracts := contracts (pending s) ++ [copy];
         contract_versions := contract_versions (pending s) ++ version_rows;
         contract_parties := contract_parties (pending s) ++ copies;
         activity_logs := activity_logs (pending s) ++ [entry] |} in
       {| committed := db; pending := db; drawn := n |})
    ∧ Contract.id copy = new_id
    ∧ Forall (λ v, ContractVersion.contract_id v = new_id) version_rows
    ∧ Forall (λ p, ContractParty.contract_id p = new_id) copies
    ∧ ActivityLog.contract_id entry = new_id.
Proof.
  intros Hget Hown new_id.
  unfold duplicate_contract.
  enter_owned Hget Hown.
  rewrite bind_run, or_empty_dict, create_contract_run. cbv beta iota zeta.
  fold new_id. fold (duplicate_of env user new_id c).
  rewrite bind_run, get_latest_version_run. cbv beta iota.
  cbn [pending contract_versions].
  change (latest_version_of _ contract_id) with (latest_version_of (pending s) contract_id).
  set (version_rows :=
         duplicate_versions env user new_id (latest_version_of (pending s) contract_id)
           (S (drawn s))).
  match goal with |- context [(?m ≫= ?k) ?s1] =>
    assert (m s1 =
      (Return (),
       {| committed := committed s;
          pending := {|
            contracts := contracts (pending s) ++ [duplicate_of env user new_id c];
            contract_versions := contract_versions (pending s) ++ version_rows;
            contract_parties := contract_parties (pending s);
            activity_logs := activity_logs (pending s) |};
          drawn := (length version_rows + S (drawn s))%nat |})) as Hversion
  end.
  { subst version_rows. destruct (latest_version_of _ _) as [v|]; [reflexivity|].
    cbn. by rewrite app_nil_r. }
  rewrite (bind_Return _ _ _ _ _ Hversion). clear Hversion.
  rewrite bind_run, list_parties_run. cbv beta iota.
  change (parties_of _ contract_id) with (parties_of (pending s) contract_id).
  match goal with |- context [(for_each ?parties _ ≫= _) ?s2] =>
    destruct (copy_parties_run env new_id parties s2) as (copies & Hloop & Hcopies)
  end.
  rewrite (bind_Return _ _ _ _ _ Hloop). clear Hloop.
  cbn [committed pending drawn contracts contract_versions contract_parties activity_logs].
  eexists _, _, version_rows, copies, _, _. split_and!; [reflexivity|reflexivity| | |reflexivity].
  - subst version_rows. destruct (latest_version_of _ _); by repeat constructor.
  - clear -Hcopies. induction Hcopies as [|p q ps qs Hpq _ IH]; constructor; [|done].
    by destruct Hpq as (? & _).
Qed.

Lemma untouched_refl x db : untouched x db db.
Proof. by repeat split. Qed.

Lemma filter_snoc_other {A} (P : A → Prop) `{!∀ x, Decision (P x)} (l : list A) y :
  ¬ P y → filter P (l ++ [y]) = filter P l.
Proof. intros Hy. by rewrite filter_app, filter_cons_False, filter_nil, app_nil_r. Qed.

Lemma filter_app_other {A} (P : A → Prop) `{!∀ x, Decision (P x)} (l k : list A) :
  Forall (λ y, ¬ P y) k → filter P (l ++ k) = filter P l.
Proof.
  intros Hk. rewrite filter_app.
  replace (filter P k) with (@nil A); [by rewrite app_nil_r|].
  induction Hk as [|y k Hy _ IH]; [done|]. by rewrite filter_cons_False.
Qed.

(** An UPDATE of the rows of one contract leaves the rows of another alone. *)
Lemma rows_update_other x contract_id (g : Contract.t → Contract.t) (l : list Contract.t) :
  x ≠ contract_id → (∀ c, Contract.id (g c) = Contract.id c) →
  filter (λ c, Contract.id c = x)
    ((λ c, if decide (Contract.id c = contract_id) then g c else c) <$> l)
  = filter (λ c, Contract.id c = x) l.
Proof.
  intros Hne Hid. induction l as [|c l IH]; [done|]. rewrite fmap_cons.
  destruct (decide (Contract.id c = contract_id)) as [Hc|Hc].
  - rewrite !filter_cons_False; [done|congruence|rewrite Hid; congruence].
  - destruct (decide (Contract.id c = x)).
    + rewrite !filter_cons_True by done. by rewrite IH.
    + by rewrite !filter_cons_False by done.
Qed.

(** The DELETE of a party of one contract leaves the parties of another alone. *)
Lemma parties_delete_other x contract_id party_id (l : list ContractParty.t) :
  x ≠ contract_id →
  filter (λ p, ContractParty.contract_id p = x)
    (filter (λ p, ¬ repo.party_matches contract_id party_id p) l)
  = filter (λ p, ContractParty.contract_id p = x) l.
Proof.
  intros Hne. rewrite list_filter_filter. apply list_filter_iff.
  intros p. split; [by intros [? _]|]. intros Hp. split; [done|].
  intros [Hcid _]. congruence.
Qed.

Ltac solve_untouched :=
  first
    [ apply untouched_refl
    | unfold untouched, versions_of, parties_of, logs_of;
      cbn [pending contracts contract_versions contract_parties activity_logs];
      split_and!;
      first
        [ reflexivity
        | apply filter_snoc_other; cbn; congruence
        | apply rows_update_other; [congruence|done]
        | apply parties_delete_other; congruence ] ].

Lemma perform_untouched env user contract_id uc s x :
  x ≠ contract_id → x ≠ gen_random_uuid env (drawn s) →
  untouched x (pending s) (pending (perform env user contract_id uc s).2).
Proof.
  intros Hother Hnew.
  pose proof (perform_gate env user contract_id uc s) as Hgate.
  destruct (live_rows (pending s) contract_id) as [|c [|c' rows]] eqn:Hrows;
    [rewrite Hgate; apply untouched_refl| |rewrite Hgate; apply untouched_refl].
  destruct (decide (Contract.owner_user_id c = user_id user)) as [Hown|Hnot];
    [|rewrite Hgate by done; apply untouched_refl].
  clear Hgate. pose proof (get_contract_found _ _ _ Hrows) as Hget.
  destruct (reads (Owned contract_id uc)) eqn:Hreads.
  { pose proof (reading_perform_any env (λ _ t, t) user (Owned contract_id uc) Hreads s)
      as Hsame.
    cbn [perform_any] in Hsame. rewrite Hsame. apply untouched_refl. }
  destruct uc; try discriminate; unfold perform; rewrite discard_run.
  - rewrite (update_contract_run _ _ _ _ _ _ Hrows Hown). unfold after_update_contract.
    destruct (ContractOut_model_validate _ s).1;
      destruct (UpdateContractRequest.title payload); solve_untouched.
  - rewrite (delete_contract_run _ _ _ _ _ Hrows Hown).
    case_decide; unfold after_delete; solve_untouched.
  - destruct (duplicate_contract_effect env user contract_id s c Hget Hown)
      as (out & copy & version_rows & copies & entry & n & -> & Hcopy & Hversions
          & Hparties & Hentry).
    unfold untouched, versions_of, parties_of, logs_of.
    cbn [snd pending contracts contract_versions contract_parties activity_logs].
    split_and!.
    + apply filter_snoc_other. congruence.
    + apply filter_app_other. eapply Forall_impl; [exact Hversions|]. cbn. congruence.
    + apply filter_app_other. eapply Forall_impl; [exact Hparties|]. cbn. congruence.
    + apply filter_snoc_other. congruence.
  - destruct (update_content_effect env user contract_id payload s c Hget Hown)
      as (row & entry & -> & Hrow & Hentry & _).
    unfold untouched, versions_of, parties_of, logs_of.
    cbn [snd pending contracts contract_versions contract_parties activity_logs].
    split_and!; [done| |done|]; apply filter_snoc_other; congruence.
  - rewrite (update_status_run _ _ _ _ _ _ Hget Hown). cbv zeta.
    repeat case_decide; unfold after_transition, status_entry; solve_untouched.
  - rewrite (add_party_service_run _ _ _ _ _ _ Hrows Hown).
    case_decide; unfold after_add_party, added_party, audit_entry; solve_untouched.
  - rewrite (remove_party_service_run _ _ _ _ _ _ Hrows Hown).
    repeat case_decide; unfold after_remove_party, audit_entry; solve_untouched.
Qed.

Lemma perform_any_untouched env date_trunc user uc s x :
  Some x ≠ target uc → x ≠ gen_random_uuid env (drawn s) →
  untouched x (pending s) (pending (perform_any env date_trunc user uc s).2).
Proof.
  intros Hother Hnew. destruct (reads uc) eqn:Hreads.
  { rewrite (reading_perform_any env date_trunc user uc Hreads s). apply untouched_refl. }
  destruct uc as [contract_id uc|payload| | | | |]; try discriminate.
  - apply perform_untouched; [|done]. cbn in Hother. congruence.
  - unfold perform_any. rewrite discard_run.
    destruct (create_contract_service_run env user payload s) as (out & _ & _ & _ & ->).
    unfold audit_entry. solve_untouched.
Qed.

(** Validation reads the row only: its result does not depend on the
    session. *)
Lemma mapM_result_ext {A B} (f : A → Awaitable B) (l : list A) s1 s2 :
  (∀ x, reading (f x)) → (∀ x, (f x s1).1 = (f x s2).1) →
  (mapM (M := Awaitable) f l s1).1 = (mapM (M := Awaitable) f l s2).1.
Proof.
  intros Hread Hf. induction l as [|x l IH]; [done|]. cbn [mapM].
  rewrite !bind_run. pose proof (Hread x s1) as H1. pose proof (Hread x s2) as H2.
  specialize (Hf x).
  destruct (f x s1) as [[y1|e1] t1], (f x s2) as [[y2|e2] t2]; cbn in *; simplify_eq;
    [|done].
  rewrite !bind_run.
  pose proof (reading_mapM f l Hread s1) as H1. pose proof (reading_mapM f l Hread s2) as H2.
  destruct (mapM f l s1) as [[ys1|e1] t1], (mapM f l s2) as [[ys2|e2] t2];
    cbn in *; by simplify_eq.
Qed.

Lemma party_validate_result p s1 s2 :
  (ContractPartyOut_model_validate p s1).1 = (ContractPartyOut_model_validate p s2).1.
Proof.
  unfold ContractPartyOut_model_validate.
  by destruct (PartyRole.of_value (ContractParty.role p)),
    (SignatureStatus.of_value (ContractParty.signature_status p)).
Qed.

(** The detail of a contract depends on what belongs to the contract only. *)
Lemma get_contract_detail_ext reader x s1 s2 :
  untouched x (pending s1) (pending s2) →
  (get_contract_detail reader x s2).1 = (get_contract_detail reader x s1).1.
Proof.
  intros (Hrows & Hversions & Hparties & _).
  unfold get_contract_detail. rewrite !owned_preamble. unfold live_rows. rewrite Hrows.
  destruct (filter _ (filter _ (contracts (pending s1)))) as [|c [|c' rows]]; try done.
  case_decide; [|done].
  rewrite !bind_run, !get_latest_version_run. cbv beta iota.
  rewrite !bind_run, !list_parties_run. cbv beta iota zeta.
  unfold latest_version_of. rewrite Hversions, Hparties.
  rewrite !bind_run, (model_validate_session _ s1), (model_validate_session _ s2).
  rewrite (model_validate_result _ s2 s1).
  destruct (ContractOut_model_validate (Some c) s1).1 as [base|e]; [|done].
  rewrite !bind_run.
  pose proof (mapM_result_ext ContractPartyOut_model_validate
                (order_by ContractParty.signing_order (parties_of (pending s1) x)) s1 s2
                reading_ContractPartyOut_model_validate
                (λ p, party_validate_result p s1 s2)) as Hsame.
  destruct (mapM (M := Awaitable) _ _ s1) as [[ps1|e1] t1],
    (mapM (M := Awaitable) _ _ s2) as [[ps2|e2] t2];
    cbn in Hsame; by simplify_eq.
Qed.

(** X19: a request leaves every contract other than the one it is addressed
    to as it was in the database: the rows of the other contract, its
    versions, its parties and its audit rows are the same after as before,
    and [get_contract_detail] on it gives the same answer.  The one
    identifier to set apart is the one the server draws for the new contract
    of a create or a duplicate.  Both contracts are named by canonical uuid
    texts, so that different texts are different contracts. *)
Theorem requests_touch_one_contract env date_trunc user uc srv x :
  canonical_uuid x →
  (∀ contract_id, target uc = Some contract_id → canonical_uuid contract_id) →
  Some x ≠ target uc →
  x ≠ gen_random_uuid env (uuids_drawn srv) →
  let srv' := (request (perform_any env date_trunc user uc) srv).2 in
  untouched x (database srv) (database srv')
  ∧ ∀ reader,
      (request (get_contract_detail reader x) srv').1
      = (request (get_contract_detail reader x) srv).1.
Proof.
  intros _ _ Hother Hnew srv'.
  assert (untouched x (database srv) (database srv')) as Hsame.
  { subst srv'. unfold request.
    pose proof (perform_any_untouched env date_trunc user uc (open_session srv) x
                  Hother Hnew) as Hpending.
    destruct (perform_any_orderly env date_trunc user uc (open_session srv))
      as (_ & _ & _ & Hcommitted & _).
    destruct (perform_any env date_trunc user uc (open_session srv)) as [r s'].
    cbn [fst snd close_session database open_session pending committed] in *.
    destruct Hcommitted as [->| ->]; [apply untouched_refl|exact Hpending]. }
  split; [exact Hsame|]. intros reader. unfold request.
  pose proof (get_contract_detail_ext reader x (open_session srv) (open_session srv') Hsame)
    as Hdetail.
  destruct (get_contract_detail reader x (open_session srv')) as [r1 t1],
    (get_contract_detail reader x (open_session srv)) as [r2 t2]. exact Hdetail.
Qed.

Lemma requests_touch_one_contract_witness :
  let uc := Owned draft_id DeleteContract in
  let srv' := (request (perform_any canonical_env (λ _ t, t) alice uc) canonical_server).2 in
  database srv' ≠ database canonical_server
  ∧ untouched signing_id (database canonical_server) (database srv').
Proof.
  split; [by vm_compute|].
  apply (requests_touch_one_contract canonical_env (λ _ t, t) alice
           (Owned draft_id DeleteContract) canonical_server signing_id).
  - reflexivity.
  - intros contract_id [= <-]. reflexivity.
  - by vm_compute.
  - by vm_compute.
Defined.

(** ** Signed contracts *)

Lemma live_rows_update x (g : Contract.t → Contract.t) db db' c :
  (∀ y, Contract.id (g y) = Contract.id y) →
  (∀ y, Contract.deleted_at (g y) = Contract.deleted_at y) →
  contracts db' = (λ c, if decide (Contract.id c = x) then g c else c) <$> contracts db →
  live_rows db x = [c] → live_rows db' x = [g c].
Proof.
  intros Hid Hdel Hdb Hrows. unfold live_rows in *. rewrite Hdb.
  rewrite !filter_fmap_stable, Hrows.
  - cbn. rewrite decide_True; [done|].
    assert (c ∈ [c]) as Hc by constructor. rewrite <- Hrows in Hc.
    by apply list_elem_of_filter in Hc as [_ [? _]%list_elem_of_filter].
  - intros y. cbn beta. case_decide; [by rewrite Hdel|done].
  - intros y. cbn beta. case_decide; [by rewrite Hid|done].
Qed.

Lemma perform_signed env user uc s x c parties :
  signed_as c parties x (pending s) →
  x ≠ gen_random_uuid env (drawn s) →
  signed_as c parties x (pending (perform env user x uc s).2).
Proof.
  intros (c' & Hrows & Hstatus & Hsigned & Howner & Hparties) Hnew.
  pose proof (perform_gate env user x uc s) as Hgate. rewrite Hrows in Hgate.
  destruct (decide (Contract.owner_user_id c' = user_id user)) as [Hown|Hnot];
    [|rewrite Hgate by done; by exists c'].
  clear Hgate. pose proof (get_contract_found _ _ _ Hrows) as Hget.
  destruct (reads (Owned x uc)) eqn:Hreads.
  { pose proof (reading_perform_any env (λ _ t, t) user (Owned x uc) Hreads s) as Hsame.
    cbn [perform_any] in Hsame. rewrite Hsame. by exists c'. }
  destruct uc; try discriminate; unfold perform; rewrite discard_run.
  - rewrite (update_contract_run _ _ _ _ _ _ Hrows Hown). unfold after_update_contract.
    destruct (UpdateContractRequest.title payload) as [title|].
    + exists (retitled title c').
      match goal with |- context [pending (match _ with _ => _ end).2] =>
        destruct (ContractOut_model_validate _ s).1
      end; cbn [snd pending]; (split_and!; try done);
        by apply (live_rows_update x (retitled title) (pending s)).
    + exists c'.
      destruct (ContractOut_model_validate _ s).1; cbn [snd pending]; by split_and!.
  - rewrite (delete_contract_run _ _ _ _ _ Hrows Hown), decide_True by done. by exists c'.
  - destruct (duplicate_contract_effect env user x s c' Hget Hown)
      as (out & copy & version_rows & copies & entry & n & -> & Hcopy & _ & Hcopies & _).
    exists c'. unfold live_rows, parties_of.
    cbn [snd pending contracts contract_parties]. split_and!; try done.
    + rewrite filter_snoc_other by congruence. exact Hrows.
    + rewrite filter_app_other; [exact Hparties|].
      eapply Forall_impl; [exact Hcopies|]. cbn. congruence.
  - destruct (update_content_effect env user x payload s c' Hget Hown)
      as (row & entry & -> & _). by exists c'.
  - rewrite (update_status_run _ _ _ _ _ _ Hget Hown). cbv zeta. rewrite Hstatus.
    case_decide; [by exists c'|]. rewrite decide_False; [by exists c'|].
    cbn. apply not_elem_of_nil.
  - rewrite (add_party_service_run _ _ _ _ _ _ Hrows Hown), decide_True by done.
    by exists c'.
  - rewrite (remove_party_service_run _ _ _ _ _ _ Hrows Hown), decide_True by done.
    by exists c'.
Qed.

Lemma signed_as_untouched c parties x db db' :
  untouched x db db' → signed_as c parties x db → signed_as c parties x db'.
Proof.
  intros (Hrows & _ & Hparties & _) (c' & Hlive & H). exists c'.
  unfold live_rows in *. by rewrite Hrows, Hparties.
Qed.

Lemma request_signed env date_trunc user uc srv x c parties :
  signed_as c parties x (database srv) →
  x ≠ gen_random_uuid env (uuids_drawn srv) →
  signed_as c parties x (database (request (perform_any env date_trunc user uc) srv).2).
Proof.
  intros Hsigned Hnew.
  assert (signed_as c parties x
            (pending (perform_any env date_trunc user uc (open_session srv)).2)) as Hpending.
  { destruct (decide (Some x = target uc)) as [Htarget|Hother].
    - destruct uc as [contract_id uc| | | | | |]; try discriminate.
      injection Htarget as <-. by apply perform_signed.
    - eapply signed_as_untouched; [|exact Hsigned].
      by apply (perform_any_untouched env date_trunc user uc (open_session srv)). }
  unfold request.
  destruct (perform_any_orderly env date_trunc user uc (open_session srv))
    as (_ & _ & _ & Hcommitted & _).
  destruct (perform_any env date_trunc user uc (open_session srv)) as [r s'].
  cbn [fst snd close_session database open_session pending committed] in *.
  by destruct Hcommitted as [->| ->].
Qed.

(** X20: a signed contract keeps its standing.  Whatever requests are
    served afterwards, by whatever users and in whatever order, the contract
    is still found, still SIGNED, signed at the same time and owned by the
    same user, and its parties are exactly the same rows: no use case
    changes the status, removes the contract or touches its parties once it
    is SIGNED.  (Its title and its content are not protected.)  The server
    is assumed never to draw the identifier of the contract again. *)
Theorem signed_contract_keeps_its_standing env date_trunc
    (requests : list (UserContext * UseCase)) x c :
  (∀ n, gen_random_uuid env n ≠ x) →
  Contract.status c = "SIGNED" →
  ∀ srv,
  live_rows (database srv) x = [c] →
  let srv' := (serve ((λ r, perform_any env date_trunc r.1 r.2) <$> requests) srv).2 in
  ∃ c',
    live_rows (database srv') x = [c']
    ∧ Contract.status c' = "SIGNED"
    ∧ Contract.signed_at c' = Contract.signed_at c
    ∧ Contract.owner_user_id c' = Contract.owner_user_id c
    ∧ parties_of (database srv') x = parties_of (database srv) x.
Proof.
  intros Hnew Hstatus srv Hrows srv'.
  assert (signed_as c (parties_of (database srv) x) x (database srv)) as Hsigned
    by (by exists c).
  change (signed_as c (parties_of (database srv) x) x (database srv')).
  subst srv'. generalize (parties_of (database srv) x) Hsigned. clear Hrows Hsigned.
  intros parties. revert srv.
  induction requests as [|[user uc] requests IH]; intros srv Hsigned; [done|].
  rewrite fmap_cons. cbn [serve fst snd].
  pose proof (request_signed env date_trunc user uc srv x c parties Hsigned) as Hstep.
  destruct (request _ srv) as [r srv1]. cbn [snd] in Hstep.
  specialize (IH srv1 (Hstep (λ H, Hnew _ (eq_sym H)))).
  by destruct (serve _ srv1) as [rs srv2].
Qed.

Lemma signed_contract_keeps_its_standing_witness :
  let requests :=
    [(alice, Owned "c-signed" DeleteContract);
     (alice, Owned "c-signed" (RemoveParty "p-3"));
     (alice, Owned "c-signed"
        (UpdateStatus {| UpdateContractStatusRequest.status := ContractStatus.CANCELLED;
                         UpdateContractStatusRequest.reason := Some "mistake" |}));
     (alice, Owned "c-signed" DuplicateContract)] in
  let srv' :=
    (serve ((λ r, perform_any sample_env (λ _ t, t) r.1 r.2) <$> requests) sample_server).2 in
  ∃ c',
    live_rows (database srv') "c-signed" = [c']
    ∧ Contract.status c' = "SIGNED"
    ∧ Contract.signed_at c' = None
    ∧ Contract.owner_user_id c' = "alice"
    ∧ parties_of (database srv') "c-signed" = [sample_party "p-3" "c-signed" "SIGNED" 1].
Proof.
  apply (signed_contract_keeps_its_standing sample_env (λ _ t, t)
           [(alice, Owned "c-signed" DeleteContract);
            (alice, Owned "c-signed" (RemoveParty "p-3"));
            (alice, Owned "c-signed"
               (UpdateStatus {| UpdateContractStatusRequest.status := ContractStatus.CANCELLED;
                                UpdateContractStatusRequest.reason := Some "mistake" |}));
            (alice, Owned "c-signed" DuplicateContract)]
           "c-signed" (sample_contract "c-signed" "SIGNED")).
  - intros n. cbn. discriminate.
  - reflexivity.
  - reflexivity.
Defined.

(** ** Duplicating leaves the source alone *)

(** X21: [duplicate_contract] reads its source and writes nothing that
    belongs to it: when the identifier drawn for the duplicate differs from
    the one of the source, the source keeps its row, its versions, its
    parties (signatures included) and its audit rows (the audit row of the
    duplication is filed under the duplicate), so that the lookup finds it
    as before and [get_contract_detail] on it gives the same answer. *)
Theorem duplicate_contract_keeps_source env user contract_id s c :
  repo.get_contract contract_id false s = (Return (Some c), s) →
  Contract.owner_user_id c = user_id user →
  gen_random_uuid env (drawn s) ≠ contract_id →
  let s' := (duplicate_contract env user contract_id s).2 in
  untouched contract_id (pending s) (pending s')
  ∧ repo.get_contract contract_id false s' = (Return (Some c), s')
  ∧ current_content (pending s') contract_id = current_content (pending s) contract_id
  ∧ length (logs_of (pending s') (gen_random_uuid env (drawn s)))
    = S (length (logs_of (pending s) (gen_random_uuid env (drawn s))))
  ∧ ∀ reader,
      (get_contract_detail reader contract_id s').1
      = (get_contract_detail reader contract_id s).1.
Proof.
  intros Hget Hown Hnew s'. subst s'.
  destruct (duplicate_contract_effect env user contract_id s c Hget Hown)
    as (out & copy & version_rows & copies & entry & n & -> & Hcopy & Hversions
        & Hparties & Hentry).
  cbn [snd]. set (s' := {| committed := _ |}).
  assert (untouched contract_id (pending s) (pending s')) as Hsame.
  { unfold untouched, versions_of, parties_of, logs_of.
    cbn [s' pending contracts contract_versions contract_parties activity_logs].
    split_and!.
    - apply filter_snoc_other. congruence.
    - apply filter_app_other. eapply Forall_impl; [exact Hversions|]. cbn. congruence.
    - apply filter_app_other. eapply Forall_impl; [exact Hparties|]. cbn. congruence.
    - apply filter_snoc_other. congruence. }
  split_and!.
  - exact Hsame.
  - apply get_contract_found. apply get_contract_live in Hget.
    destruct Hsame as (Hrows & _). unfold live_rows. by rewrite Hrows.
  - destruct Hsame as (_ & Hv & _). unfold current_content, latest_version_of.
    by rewrite Hv.
  - unfold logs_of. cbn [s' pending activity_logs].
    rewrite filter_app, filter_cons_True by done. rewrite length_app. cbn. lia.
  - intros reader. by apply get_contract_detail_ext.
Qed.

Lemma duplicate_contract_keeps_source_witness :
  let s' := (duplicate_contract sample_env alice "c-draft" sample_session).2 in
  pending s' ≠ pending sample_session
  ∧ untouched "c-draft" (pending sample_session) (pending s').
Proof.
  split; [by vm_compute|].
  apply (duplicate_contract_keeps_source sample_env alice "c-draft" sample_session
           (sample_contract "c-draft" "DRAFT") eq_refl eq_refl).
  by vm_compute.
Defined.

(** ** Parties and activity as listed *)

Lemma list_parties_service_inv user contract_id s outs s' :
  list_parties user contract_id s = (Return outs, s') →
  s' = s
  ∧ (mapM (M := Awaitable) ContractPartyOut_model_validate
       (order_by ContractParty.signing_order (parties_of (pending s) contract_id)) s).1
    = Return outs.
Proof.
  unfold list_parties. rewrite owned_preamble.
  destruct (live_rows (pending s) contract_id) as [|c [|c' rows]]; try done.
  case_decide as Hown; [|done]. rewrite bind_run, list_parties_run. cbv beta iota.
  pose proof (reading_mapM ContractPartyOut_model_validate
                (order_by ContractParty.signing_order (parties_of (pending s) contract_id))
                reading_ContractPartyOut_model_validate s) as Hsame.
  destruct (mapM (M := Awaitable) _ _ s) as [r s1]. cbn in Hsame. subst s1.
  by intros [= -> <-].
Qed.

(** X22: when [list_parties] returns, the session is unchanged and the list
    shows every party of the contract exactly once, in ascending signing
    order.  The parties [get_contract_detail] carries for the contract are
    the same parties in ascending signing order too; when no two parties of
    the contract have the same signing order, the two lists are equal. *)
Theorem list_parties_outcome user contract_id s outs s' :
  list_parties user contract_id s = (Return outs, s') →
  s' = s
  ∧ (∃ rows,
       rows ≡ₚ parties_of (pending s) contract_id
       ∧ Forall2 party_view rows outs)
  ∧ StronglySorted (λ a b, ContractPartyOut.order a ≤ ContractPartyOut.order b) outs
  ∧ (∀ detail s'',
       get_contract_detail user contract_id s = (Return detail, s'') →
       ContractDetailOut.parties detail ≡ₚ outs
       ∧ StronglySorted (λ a b, ContractPartyOut.order a ≤ ContractPartyOut.order b)
           (ContractDetailOut.parties detail)
       ∧ (NoDup (ContractParty.signing_order <$> parties_of (pending s) contract_id) →
          ContractDetailOut.parties detail = outs)).
Proof.
  intros [-> Hrun]%list_parties_service_inv.
  assert (Forall2 party_view
            (order_by ContractParty.signing_order (parties_of (pending s) contract_id))
            outs) as Hviews.
  { destruct (mapM (M := Awaitable) ContractPartyOut_model_validate
                (order_by ContractParty.signing_order
                   (parties_of (pending s) contract_id)) s) as [r s1] eqn:Hm.
    cbn in Hrun. subst r.
    apply mapM_Return_inv in Hm as [_ Hall];
      [|exact reading_ContractPartyOut_model_validate].
    eapply Forall2_impl; [exact Hall|]. intros p out.
    apply ContractPartyOut_model_validate_view. }
  assert (StronglySorted (λ a b, ContractPartyOut.order a ≤ ContractPartyOut.order b) outs)
    as Hsorted.
  { eapply (Forall2_sorted_by party_view ContractParty.signing_order);
      [|exact Hviews|apply order_by_sorted].
    by intros p out (_ & _ & _ & _ & _ & _ & Horder). }
  split_and!.
  - done.
  - eexists. split; [apply order_by_perm|exact Hviews].
  - exact Hsorted.
  - intros detail s'' (c & _ & _ & _ & _ & Hparties & _)%get_contract_detail_inv.
    rewrite Hrun in Hparties. injection Hparties as <-. by split_and!.
Qed.

Lemma list_parties_outcome_witness :
  ∃ outs,
    list_parties alice "c-signing" sample_pending_session = (Return outs, sample_pending_session)
    ∧ ContractPartyOut.order <$> outs = [1; 2]
    ∧ StronglySorted (λ a b, ContractPartyOut.order a ≤ ContractPartyOut.order b) outs.
Proof.
  eexists. split; [reflexivity|]. split; [reflexivity|].
  exact (proj1 (proj2 (proj2
    (list_parties_outcome alice "c-signing" sample_pending_session _ _ eq_refl)))).
Defined.

(** ** The audit trail *)

Lemma logs_snoc db db' contract_id entry :
  activity_logs db' = activity_logs db ++ [entry] →
  ActivityLog.contract_id entry = contract_id →
  logs_of db' contract_id = logs_of db contract_id ++ [entry].
Proof.
  intros Hlogs Hentry. unfold logs_of. by rewrite Hlogs, filter_app, filter_cons_True.
Qed.

Ltac solve_audited :=
  eexists; split_and!;
    [ apply logs_snoc; [reflexivity|reflexivity]
    | by repeat split
    | reflexivity ].

(** X23: every change to a contract is audited.  When an owner-scoped use
    case succeeds, either it is one that changes nothing of the contract it
    is addressed to (the reads, [update_contract] without a title, and
    [duplicate_contract], which writes to the duplicate) and then everything
    that belongs to the contract is as before; or it has appended exactly
    one audit row to the trail of the contract, filed in the name of the
    requester and stamped with the time of the database, and committed. *)
Theorem every_change_is_audited env user contract_id uc s s' :
  perform env user contract_id uc s = (Return (), s') →
  contract_id ≠ gen_random_uuid env (drawn s) →
  if audited uc then
    ∃ entry,
      logs_of (pending s') contract_id = logs_of (pending s) contract_id ++ [entry]
      ∧ filed_by env user contract_id entry
      ∧ committed s' = pending s'
  else untouched contract_id (pending s) (pending s').
Proof.
  intros Hrun Hnew.
  pose proof (perform_gate env user contract_id uc s) as Hgate.
  destruct (live_rows (pending s) contract_id) as [|c [|c' rows]] eqn:Hrows;
    [by rewrite Hgate in Hrun| |by rewrite Hgate in Hrun].
  destruct (decide (Contract.owner_user_id c = user_id user)) as [Hown|Hnot];
    [|by rewrite Hgate in Hrun].
  clear Hgate. pose proof (get_contract_found _ _ _ Hrows) as Hget.
  destruct (reads (Owned contract_id uc)) eqn:Hreads.
  { pose proof (reading_perform_any env (λ _ t, t) user (Owned contract_id uc) Hreads s)
      as Hsame.
    cbn [perform_any] in Hsame. rewrite Hrun in Hsame. cbn in Hsame. subst s'.
    destruct uc; try discriminate; apply untouched_refl. }
  destruct uc; try discriminate; unfold perform in Hrun; rewrite discard_run in Hrun;
    cbn [audited].
  - rewrite (update_contract_run _ _ _ _ _ _ Hrows Hown) in Hrun.
    unfold after_update_contract in Hrun.
    destruct (ContractOut_model_validate _ s).1; [|done].
    destruct (UpdateContractRequest.title payload); injection Hrun as <-.
    + unfold audit_entry. solve_audited.
    + solve_untouched.
  - rewrite (delete_contract_run _ _ _ _ _ Hrows Hown) in Hrun.
    case_decide; [done|]. injection Hrun as <-.
    unfold after_delete, audit_entry. solve_audited.
  - destruct (duplicate_contract_effect env user contract_id s c Hget Hown)
      as (out & copy & version_rows & copies & entry & n & Heq & Hcopy & Hversions
          & Hparties & Hentry).
    rewrite Heq in Hrun. injection Hrun as <-.
    unfold untouched, versions_of, parties_of, logs_of.
    cbn [pending contracts contract_versions contract_parties activity_logs].
    split_and!.
    + apply filter_snoc_other. congruence.
    + apply filter_app_other. eapply Forall_impl; [exact Hversions|]. cbn. congruence.
    + apply filter_app_other. eapply Forall_impl; [exact Hparties|]. cbn. congruence.
    + apply filter_snoc_other. congruence.
  - destruct (update_content_effect env user contract_id payload s c Hget Hown)
      as (row & entry & Heq & Hrow & Hentry).
    rewrite Heq in Hrun. injection Hrun as <-.
    exists entry. split_and!; [|done|done].
    apply logs_snoc; [reflexivity|by destruct Hentry].
  - rewrite (update_status_run _ _ _ _ _ _ Hget Hown) in Hrun. cbv zeta in Hrun.
    repeat case_decide; try done; injection Hrun as <-;
      unfold after_transition, status_entry; solve_audited.
  - rewrite (add_party_service_run _ _ _ _ _ _ Hrows Hown) in Hrun.
    case_decide; [done|]. injection Hrun as <-.
    unfold after_add_party, audit_entry. solve_audited.
  - rewrite (remove_party_service_run _ _ _ _ _ _ Hrows Hown) in Hrun.
    repeat case_decide; try done. injection Hrun as <-.
    unfold after_remove_party, audit_entry. solve_audited.
Qed.

Lemma every_change_is_audited_witness :
  let uc := AddParty {| AddPartyRequest.role := PartyRole.GUEST;
                        AddPartyRequest.name := "Luis";
                        AddPartyRequest.email := "luis@example.org";
                        AddPartyRequest.order := None |} in
  let s' := (perform sample_env alice "c-draft" uc sample_session).2 in
  ∃ entry,
    logs_of (pending s') "c-draft" = logs_of (pending sample_session) "c-draft" ++ [entry]
    ∧ filed_by sample_env alice "c-draft" entry
    ∧ committed s' = pending s'.
Proof.
  apply (every_change_is_audited sample_env alice "c-draft"
           (AddParty {| AddPartyRequest.role := PartyRole.GUEST;
                        AddPartyRequest.name := "Luis";
                        AddPartyRequest.email := "luis@example.org";
                        AddPartyRequest.order := None |}) sample_session).
  - reflexivity.
  - by vm_compute.
Defined.

Lemma list_activity_inv user contract_id s logs s' :
  list_activity user contract_id s = (Return logs, s') →
  s' = s ∧ logs = order_by (desc ActivityLog.timestamp) (logs_of (pending s) contract_id).
Proof.
  unfold list_activity. rewrite owned_preamble.
  destruct (live_rows (pending s) contract_id) as [|c [|c' rows]]; try done.
  case_decide as Hown; [|done]. by intros [= <- <-].
Qed.

(** X24: when [list_activity] returns, the session is unchanged and the
    list holds every audit row of the contract exactly once and no other,
    the most recent first. *)
Theorem list_activity_outcome user contract_id s logs s' :
  list_activity user contract_id s = (Return logs, s') →
  s' = s
  ∧ logs ≡ₚ logs_of (pending s) contract_id
  ∧ Forall (λ entry, ActivityLog.contract_id entry = contract_id) logs
  ∧ StronglySorted (λ a b, ActivityLog.timestamp b ≤ ActivityLog.timestamp a) logs.
Proof.
  intros [-> ->]%list_activity_inv. split_and!.
  - done.
  - apply order_by_perm.
  - apply Forall_forall. intros entry Hentry. rewrite order_by_perm in Hentry.
    by apply list_elem_of_filter in Hentry as [? _].
  - apply (StronglySorted_weaken
             (λ a b, desc ActivityLog.timestamp a ≤ desc ActivityLog.timestamp b));
      [unfold desc; intros; lia|apply order_by_sorted].
Qed.

Lemma list_activity_outcome_witness :
  let s :=
    (update_status sample_env alice "c-draft"
       {| UpdateContractStatusRequest.status := ContractStatus.GENERATED;
          UpdateContractStatusRequest.reason := None |} sample_session).2 in
  ∃ logs,
    list_activity alice "c-draft" s = (Return logs, s)
    ∧ length logs = 1%nat
    ∧ Forall (λ entry, ActivityLog.contract_id entry = "c-draft") logs.
Proof.
  eexists. split; [reflexivity|]. split; [reflexivity|].
  exact (proj1 (proj2 (proj2
    (list_activity_outcome alice "c-draft"
       (update_status sample_env alice "c-draft"
          {| UpdateContractStatusRequest.status := ContractStatus.GENERATED;
             UpdateContractStatusRequest.reason := None |} sample_session).2
       _ _ eq_refl)))).
Defined.

(** ** Creation and the dashboard *)

(** X25: a contract created by [create_contract] is counted at once in the
    statistics of its creator, whose total grows by exactly one, and in
    nobody else's; being a DRAFT without parties, it changes neither the
    pending signature count nor the signed this month count of anyone. *)
Theorem create_contract_is_counted env date_trunc user anyone payload s :
  let s' := (create_contract env user payload s).2 in
  ∃ before after,
    stats env date_trunc anyone s = (Return before, s)
    ∧ stats env date_trunc anyone s' = (Return after, s')
    ∧ ContractStatsOut.total after
      = ContractStatsOut.total before
        + (if decide (user_id user = user_id anyone) then 1 else 0)
    ∧ ContractStatsOut.pending_signatures after = ContractStatsOut.pending_signatures before
    ∧ ContractStatsOut.signed_this_month after = ContractStatsOut.signed_this_month before.
Proof.
  intros s'. eexists _, _. split; [apply stats_run|]. split; [apply stats_run|].
  cbn [ContractStatsOut.total ContractStatsOut.pending_signatures
       ContractStatsOut.signed_this_month].
  subst s'. destruct (create_contract_service_run env user payload s)
    as (out & _ & _ & _ & ->).
  cbn [snd]. set (s' := {| committed := _ |}).
  set (new := {| Contract.id := gen_random_uuid env (drawn s) |}) in *.
  assert (owned_contracts (pending s') (user_id anyone)
          = owned_contracts (pending s) (user_id anyone)
            ++ (if decide (user_id user = user_id anyone) then [new] else [])) as Howned.
  { unfold owned_contracts. cbn [s' pending contracts]. rewrite !filter_app.
    f_equal. case_decide.
    - rewrite filter_cons_True by done. by rewrite filter_cons_True.
    - by rewrite filter_cons_False. }
  assert (∀ st, st ≠ "DRAFT" →
            owned_with_status (pending s') (user_id anyone) st
            = owned_with_status (pending s) (user_id anyone) st) as Hstatus.
  { intros st Hst. unfold owned_with_status. rewrite Howned, filter_app.
    case_decide; [|by rewrite app_nil_r].
    rewrite filter_cons_False; [by rewrite app_nil_r|]. cbn. congruence. }
  split_and!.
  - rewrite !sum_status_counts, !length_fmap, Howned, length_app.
    case_decide; cbn [length]; lia.
  - by rewrite Hstatus.
  - by rewrite Hstatus.
Qed.
